(** * jusync: the ZeroMQ DEALER file sender (tools/Send data/file_sender.py)

    A shallow embedding of [ANARIUSDClient] and of the library functions it
    calls, with the properties of its transfer protocol.

    - Python [str] is a list of Unicode code points, [bytes] a list of bytes.
    - [hashlib.sha256(data).hexdigest()] is SHA-256 (FIPS 180-4) on 32-bit
      words, written out on [Z] with its wrap-around.
    - [json.dumps(data, indent=2)] and [json.loads] follow CPython's
      [json.encoder] and [json.decoder] on the values that have no floating
      point part; the limits of the interpreter (recursion depth, digits of
      an [int]) are not modelled.
    - The methods of the client are programs of a state and exception monad:
      the state holds the fields of [self], the calls handed to pyzmq and the
      lines printed; the answers of pyzmq, of the file system and of the
      clock are a parameter of the development.
    - [format_bytes] is exact arithmetic on sizes below [2 ^ 53], where the
      [float]s of the source are exact.
    - [run_test_sequence], [interactive_mode] and [main] are programs of a
      second monad, over the client and the standard output; [sys.argv] and
      the lines of the standard input are arguments, [print] and [input]
      do not fail, and no [KeyboardInterrupt] arrives. *)

From Stdlib Require Import String Ascii ZArith NArith Bool Lia List.
From Stdlib.Strings Require Byte.
Import ListNotations.

Set Implicit Arguments.

(** ** Python data *)

(** A Python [str]: its code points. *)
Definition str := list N.

(** A Python [bytes] object. *)
Definition bytes := list Byte.byte.

(** A [str] literal of the source (the literals used are ASCII). *)
Definition lit (s : string) : str :=
  map N_of_ascii (list_ascii_of_string s).

Definition str_eqb (a b : str) : bool :=
  if list_eq_dec N.eq_dec a b then true else false.

(** [str(n)] for a non-negative integer: decimal digits, most significant
    first.  The fuel is the number of binary digits, which bounds the
    number of decimal ones. *)
Fixpoint dec_digits (fuel : nat) (n : N) (acc : str) : str :=
  match fuel with
  | O => acc
  | S fuel' =>
      let acc' := (48 + n mod 10)%N :: acc in
      if (n <? 10)%N then acc' else dec_digits fuel' (n / 10)%N acc'
  end.

Definition str_of_N (n : N) : str :=
  dec_digits (S (N.to_nat (N.log2 n))) n [].

(** [str(z)] for a Python [int]. *)
Definition str_of_int (z : Z) : str :=
  if (z <? 0)%Z then 45%N :: str_of_N (Z.to_N (- z)) else str_of_N (Z.to_N z).

(** A hexadecimal digit, lowercase, as [format(d, 'x')] prints it. *)
Definition hexdig (d : N) : N :=
  if (d <? 10)%N then (48 + d)%N else (87 + d)%N.

(** ** hashlib.sha256 *)

Module Sha256.
Local Open Scope Z_scope.

Definition w32 (x : Z) : Z := x mod 2 ^ 32.
Definition add32 (a b : Z) : Z := w32 (a + b).
Definition not32 (x : Z) : Z := Z.lxor x 4294967295.
Definition rotr (n x : Z) : Z :=
  Z.lor (Z.shiftr x n) (w32 (Z.shiftl x (32 - n))).
Definition shr (n x : Z) : Z := Z.shiftr x n.

Definition Ch (x y z : Z) : Z := Z.lxor (Z.land x y) (Z.land (not32 x) z).
Definition Maj (x y z : Z) : Z :=
  Z.lxor (Z.lxor (Z.land x y) (Z.land x z)) (Z.land y z).
Definition Sigma0 (x : Z) : Z :=
  Z.lxor (Z.lxor (rotr 2 x) (rotr 13 x)) (rotr 22 x).
Definition Sigma1 (x : Z) : Z :=
  Z.lxor (Z.lxor (rotr 6 x) (rotr 11 x)) (rotr 25 x).
Definition sigma0 (x : Z) : Z :=
  Z.lxor (Z.lxor (rotr 7 x) (rotr 18 x)) (shr 3 x).
Definition sigma1 (x : Z) : Z :=
  Z.lxor (Z.lxor (rotr 17 x) (rotr 19 x)) (shr 10 x).

(** The first sixty-four primes. *)
Definition is_prime (n : nat) : bool :=
  forallb (fun d => negb (Nat.eqb (Nat.modulo n d) 0)) (seq 2 (n - 2)).

Definition primes : list Z :=
  map Z.of_nat (filter is_prime (seq 2 310)).

(** The integer cube root of [n], bit by bit from bit [k - 1] down. *)
Fixpoint cube_root (k : nat) (n r : Z) : Z :=
  match k with
  | O => r
  | S k' =>
      let r' := r + 2 ^ Z.of_nat k' in
      if r' * r' * r' <=? n then cube_root k' n r' else cube_root k' n r
  end.

(** The round constants: the first thirty-two bits of the fractional parts
    of the cube roots of the first sixty-four primes. *)
Definition K : list Z :=
  map (fun p => w32 (cube_root 36 (p * 2 ^ 96) 0)) primes.

(** The working variables a..h, and the hash value H0..H7. *)
Record regs := Regs { ra : Z; rb : Z; rc : Z; rd : Z;
                      re : Z; rf : Z; rg : Z; rh : Z }.

(** The initial hash value: the first thirty-two bits of the fractional
    parts of the square roots of the first eight primes. *)
Definition frac_sqrt (i : nat) : Z :=
  w32 (Z.sqrt (nth i primes 0 * 2 ^ 64)).

Definition H_init : regs :=
  Regs (frac_sqrt 0) (frac_sqrt 1) (frac_sqrt 2) (frac_sqrt 3)
       (frac_sqrt 4) (frac_sqrt 5) (frac_sqrt 6) (frac_sqrt 7).

(** Padding: the byte 0x80, zero bytes up to 56 modulo 64, and the length
    of the message in bits as a 64-bit big-endian integer. *)
Definition be_bytes (n : nat) (x : Z) : list Z :=
  map (fun i => (x / 2 ^ (8 * Z.of_nat i)) mod 256) (rev (seq 0 n)).

Definition pad (msg : list Z) : list Z :=
  let len := Z.of_nat (length msg) in
  msg ++ [128] ++ repeat 0 (Z.to_nat ((55 - len) mod 64))
      ++ be_bytes 8 ((8 * len) mod 2 ^ 64).

(** Big-endian 32-bit words of a byte sequence. *)
Fixpoint words (fuel : nat) (bs : list Z) : list Z :=
  match fuel, bs with
  | S fuel', b0 :: b1 :: b2 :: b3 :: rest =>
      (((b0 * 256 + b1) * 256 + b2) * 256 + b3) :: words fuel' rest
  | _, _ => []
  end.

(** The message schedule, most recent word first: sixteen words of the
    block, extended to sixty-four. *)
Fixpoint extend (n : nat) (w : list Z) : list Z :=
  match n with
  | O => w
  | S n' =>
      let x := add32 (add32 (sigma1 (nth 1 w 0)) (nth 6 w 0))
                     (add32 (sigma0 (nth 14 w 0)) (nth 15 w 0)) in
      extend n' (x :: w)
  end.

Definition schedule (block : list Z) : list Z :=
  rev (extend 48 (rev block)).

Definition round (s : regs) (kw : Z * Z) : regs :=
  let t1 := add32 (add32 (add32 (rh s) (Sigma1 (re s)))
                         (add32 (Ch (re s) (rf s) (rg s)) (fst kw)))
                  (snd kw) in
  let t2 := add32 (Sigma0 (ra s)) (Maj (ra s) (rb s) (rc s)) in
  Regs (add32 t1 t2) (ra s) (rb s) (rc s) (add32 (rd s) t1) (re s) (rf s) (rg s).

Definition compress (h : regs) (block : list Z) : regs :=
  let s := fold_left round (combine K (schedule block)) h in
  Regs (add32 (ra h) (ra s)) (add32 (rb h) (rb s))
       (add32 (rc h) (rc s)) (add32 (rd h) (rd s))
       (add32 (re h) (re s)) (add32 (rf h) (rf s))
       (add32 (rg h) (rg s)) (add32 (rh h) (rh s)).

(** One block of sixteen words after the other. *)
Fixpoint blocks (fuel : nat) (ws : list Z) (h : regs) : regs :=
  match fuel, ws with
  | S fuel', _ :: _ => blocks fuel' (skipn 16 ws) (compress h (firstn 16 ws))
  | _, _ => h
  end.

Definition sha256 (data : bytes) : regs :=
  let p := pad (map (fun b => Z.of_N (Byte.to_N b)) data) in
  let ws := words (length p) p in
  blocks (length ws) ws H_init.

(** [hexdigest]: every word as eight lowercase hexadecimal digits. *)
Definition hex_word (x : Z) : str :=
  map (fun i => hexdig (Z.to_N ((x / 16 ^ Z.of_nat i) mod 16))) (rev (seq 0 8)).

Definition hexdigest (h : regs) : str :=
  hex_word (ra h) ++ hex_word (rb h) ++ hex_word (rc h) ++ hex_word (rd h)
  ++ hex_word (re h) ++ hex_word (rf h) ++ hex_word (rg h) ++ hex_word (rh h).

End Sha256.

Definition bytes_of_string (s : string) : bytes := list_byte_of_string s.

(** ** Exceptions *)

(** The exceptions that the calls of the source can raise.  All of them are
    subclasses of [Exception]; [Again] is a subclass of [ZMQError], and
    [JSONDecodeError] of [ValueError].  What is no [Exception]
    ([KeyboardInterrupt], [SystemExit]) is not modelled. *)
Inductive exn :=
| ZMQError (errno : Z)
| Again
| OSError (errno : Z)
| UnicodeError
| TypeError
| ValueError
| JSONDecodeError
| AttributeError.

(** ** json *)

Module Json.
Local Open Scope N_scope.

(** Keys of a [dict]: the hashable values of this model. *)
Inductive key :=
| KStr (s : str)
| KInt (z : Z)
| KBool (b : bool)
| KNone
| KBytes (b : bytes).

(** Python values.  A [dict] keeps its items in insertion order.  There is
    no [float] in this model. *)
#[local] Unset Elimination Schemes.
Inductive pyval :=
| PNone
| PBool (b : bool)
| PInt (z : Z)
| PStr (s : str)
| PBytes (b : bytes)
| PList (items : list pyval)
| PTuple (items : list pyval)
| PDict (items : list (key * pyval)).
#[local] Set Elimination Schemes.

(** *** json.encoder *)

Definition hex4 (n : N) : str :=
  [hexdig (n / 4096 mod 16); hexdig (n / 256 mod 16);
   hexdig (n / 16 mod 16); hexdig (n mod 16)].

(** ['\\u{0:04x}'.format(n)] *)
Definition u_escape (n : N) : str := 92 :: 117 :: hex4 n.

(** The replacement of one character in [py_encode_basestring_ascii]:
    [ESCAPE_ASCII] matches a backslash, a double quote and everything
    outside [' '..'~']; [ESCAPE_DCT] has the short escapes. *)
Definition escape_char (c : N) : str :=
  if c =? 92 then [92; 92]
  else if c =? 34 then [92; 34]
  else if c =? 8 then [92; 98]
  else if c =? 12 then [92; 102]
  else if c =? 10 then [92; 110]
  else if c =? 13 then [92; 114]
  else if c =? 9 then [92; 116]
  else if (32 <=? c) && (c <=? 126) then [c]
  else if c <? 0x10000 then u_escape c
  else
    let n := c - 0x10000 in
    let s1 := N.lor 0xd800 (N.land (N.shiftr n 10) 0x3ff) in
    let s2 := N.lor 0xdc00 (N.land n 0x3ff) in
    u_escape s1 ++ u_escape s2.

Definition encode_basestring_ascii (s : str) : str :=
  34 :: flat_map escape_char s ++ [34].

(** ['\n' + _indent * _current_indent_level], with [_indent = ' ' * 2]. *)
Definition newline_indent (level : nat) : str :=
  10 :: repeat 32 (2 * level)%nat.

(** The key of an item in [_iterencode_dict]. *)
Definition encode_key (k : key) : exn + str :=
  match k with
  | KStr s => inr s
  | KBool true => inr (lit "true")
  | KBool false => inr (lit "false")
  | KNone => inr (lit "null")
  | KInt z => inr (str_of_int z)
  | KBytes _ => inl TypeError
  end.

(** The loop of [_iterencode_list] over the items, [encode] being
    [_iterencode] one level down: [buf] is the newline and the indentation
    before the first item, and the separator with them before the others. *)
Fixpoint encode_list (encode : pyval -> exn + str) (level : nat)
    (first : bool) (lst : list pyval) {struct lst} : exn + str :=
  match lst with
  | [] => inr []
  | value :: lst' =>
      let buf := if first then newline_indent level
                 else 44 :: newline_indent level in
      match encode value with
      | inl e => inl e
      | inr chunk =>
          match encode_list encode level false lst' with
          | inl e => inl e
          | inr rest => inr (buf ++ chunk ++ rest)
          end
      end
  end.

(** The loop of [_iterencode_dict] over [dct.items()]. *)
Fixpoint encode_dict (encode : pyval -> exn + str) (level : nat)
    (first : bool) (dct : list (key * pyval)) {struct dct} : exn + str :=
  match dct with
  | [] => inr []
  | (k, value) :: dct' =>
      let buf := if first then newline_indent level
                 else 44 :: newline_indent level in
      match encode_key k with
      | inl e => inl e
      | inr ks =>
          match encode value with
          | inl e => inl e
          | inr chunk =>
              match encode_dict encode level false dct' with
              | inl e => inl e
              | inr rest =>
                  inr (buf ++ encode_basestring_ascii ks ++ [58; 32]
                           ++ chunk ++ rest)
              end
          end
      end
  end.

(** [_iterencode], [_iterencode_list] and [_iterencode_dict] of
    [_make_iterencode], with [_indent = 2], [_item_separator = ','] and
    [_key_separator = ': '], the chunks joined.  [level] is
    [_current_indent_level]. *)
Fixpoint iterencode (level : nat) (o : pyval) {struct o} : exn + str :=
  match o with
  | PStr s => inr (encode_basestring_ascii s)
  | PNone => inr (lit "null")
  | PBool true => inr (lit "true")
  | PBool false => inr (lit "false")
  | PInt z => inr (str_of_int z)
  | PList lst | PTuple lst =>
      match lst with
      | [] => inr (lit "[]")
      | _ :: _ =>
          match encode_list (iterencode (S level)) (S level) true lst with
          | inl e => inl e
          | inr body => inr (91 :: body ++ newline_indent level ++ [93])
          end
      end
  | PDict dct =>
      match dct with
      | [] => inr (lit "{}")
      | _ :: _ =>
          match encode_dict (iterencode (S level)) (S level) true dct with
          | inl e => inl e
          | inr body => inr (123 :: body ++ newline_indent level ++ [125])
          end
      end
  | PBytes _ => inl TypeError
  end.

(** [json.dumps(obj, indent=2)] *)
Definition dumps (obj : pyval) : exn + str := iterencode 0 obj.

(** *** json.decoder *)

(** What a call of the decoder gives: a value, an exception, or nothing
    that this model can speak of (the text denotes a [float], or the fuel
    of the scanner ran out). *)
Inductive result (A : Type) :=
| Ok (a : A)
| Raise (e : exn)
| Outside.
Arguments Ok {A} a.
Arguments Raise {A} e.
Arguments Outside {A}.

(** [WHITESPACE = re.compile(r'[ \t\n\r]*')] *)
Definition is_ws (c : N) : bool :=
  (c =? 32) || (c =? 9) || (c =? 10) || (c =? 13).

Fixpoint skip_ws (s : str) : str :=
  match s with
  | c :: s' => if is_ws c then skip_ws s' else s
  | [] => []
  end.

Fixpoint starts_with (p s : str) : bool :=
  match p, s with
  | [], _ => true
  | a :: p', b :: s' => (a =? b) && starts_with p' s'
  | _ :: _, [] => false
  end.

Definition hexval (c : N) : option N :=
  if (48 <=? c) && (c <=? 57) then Some (c - 48)
  else if (97 <=? c) && (c <=? 102) then Some (c - 87)
  else if (65 <=? c) && (c <=? 70) then Some (c - 55)
  else None.

(** The four hexadecimal digits of [_decode_uXXXX]. *)
Definition hex4val (h1 h2 h3 h4 : N) : option N :=
  match hexval h1, hexval h2, hexval h3, hexval h4 with
  | Some a, Some b, Some c, Some d => Some (((a * 16 + b) * 16 + c) * 16 + d)
  | _, _, _, _ => None
  end.

(** [BACKSLASH] *)
Definition backslash (esc : N) : option N :=
  if esc =? 34 then Some 34
  else if esc =? 92 then Some 92
  else if esc =? 47 then Some 47
  else if esc =? 98 then Some 8
  else if esc =? 102 then Some 12
  else if esc =? 110 then Some 10
  else if esc =? 114 then Some 13
  else if esc =? 116 then Some 9
  else None.

(** [py_scanstring(s, end, strict=True)]: [s] is the text after the opening
    quote, [chunks] the characters read so far, last first.  Where the
    source raises for a [\u] that is cut short after a high surrogate, the
    next round of the loop raises here. *)
Fixpoint scanstring (s : str) (chunks : str) {struct s} : result (str * str) :=
  match s with
  | [] => Raise JSONDecodeError
  | c :: s1 =>
      if c =? 34 then Ok (rev chunks, s1)
      else if c =? 92 then
        match s1 with
        | [] => Raise JSONDecodeError
        | esc :: s2 =>
            if esc =? 117 then
              match s2 with
              | h1 :: h2 :: h3 :: h4 :: s3 =>
                  match hex4val h1 h2 h3 h4 with
                  | None => Raise JSONDecodeError
                  | Some uni =>
                      if (0xd800 <=? uni) && (uni <=? 0xdbff) then
                        match s3 with
                        | b :: u :: g1 :: g2 :: g3 :: g4 :: s4 =>
                            if (b =? 92) && (u =? 117) then
                              match hex4val g1 g2 g3 g4 with
                              | None => Raise JSONDecodeError
                              | Some uni2 =>
                                  if (0xdc00 <=? uni2) && (uni2 <=? 0xdfff)
                                  then
                                    scanstring s4
                                      (0x10000
                                       + N.lor (N.shiftl (uni - 0xd800) 10)
                                               (uni2 - 0xdc00)
                                       :: chunks)
                                  else scanstring s3 (uni :: chunks)
                              end
                            else scanstring s3 (uni :: chunks)
                        | _ => scanstring s3 (uni :: chunks)
                        end
                      else scanstring s3 (uni :: chunks)
                  end
              | _ => Raise JSONDecodeError
              end
            else
              match backslash esc with
              | Some char => scanstring s2 (char :: chunks)
              | None => Raise JSONDecodeError
              end
        end
      else if c <? 32 then Raise JSONDecodeError
      else scanstring s1 (c :: chunks)
  end.

(** [NUMBER_RE]: an optional minus sign and either a zero or a digit from 1
    to 9 followed by digits; then, optionally, a point and digits (the
    fraction) and an [e] or [E], an optional sign and digits (the
    exponent). *)
Definition is_digit (c : N) : bool := (48 <=? c) && (c <=? 57).

Fixpoint span_digits (s : str) (acc : N) : N * str :=
  match s with
  | c :: s' =>
      if is_digit c then span_digits s' (acc * 10 + (c - 48)) else (acc, s)
  | [] => (acc, [])
  end.

Definition int_part (s : str) : option (N * str) :=
  match s with
  | c :: s' =>
      if c =? 48 then Some (0, s')
      else if is_digit c then Some (span_digits s 0)
      else None
  | [] => None
  end.

Definition has_frac (s : str) : bool :=
  match s with
  | p :: d :: _ => (p =? 46) && is_digit d
  | _ => false
  end.

Definition has_exp (s : str) : bool :=
  match s with
  | e :: d :: rest =>
      ((e =? 101) || (e =? 69))
      && (is_digit d
          || (((d =? 43) || (d =? 45))
              && match rest with d' :: _ => is_digit d' | [] => false end))
  | _ => false
  end.

(** The match of [NUMBER_RE] at the head of [s]: [None] when there is none,
    else the integer, whether a fraction or an exponent follows it (the
    number is then a [float]) and the text after the integer. *)
Definition match_number (s : str) : option (Z * bool * str) :=
  match s with
  | c :: s' =>
      if c =? 45 then
        match int_part s' with
        | Some (n, rest) =>
            Some ((- Z.of_N n)%Z, has_frac rest || has_exp rest, rest)
        | None => None
        end
      else
        match int_part s with
        | Some (n, rest) => Some (Z.of_N n, has_frac rest || has_exp rest, rest)
        | None => None
        end
  | [] => None
  end.

(** Equality of keys as a [dict] sees it: [True == 1] and [False == 0]. *)
Definition key_num (k : key) : option Z :=
  match k with
  | KInt z => Some z
  | KBool b => Some (if b then 1%Z else 0%Z)
  | _ => None
  end.

Definition key_eqb (a b : key) : bool :=
  match a, b with
  | KStr x, KStr y => str_eqb x y
  | KNone, KNone => true
  | KBytes x, KBytes y => if list_eq_dec Byte.byte_eq_dec x y then true else false
  | _, _ =>
      match key_num a, key_num b with
      | Some x, Some y => (x =? y)%Z
      | _, _ => false
      end
  end.

(** [d[k] = v]: an equal key keeps its place (and the key object). *)
Fixpoint dict_set (k : key) (v : pyval) (d : list (key * pyval))
  : list (key * pyval) :=
  match d with
  | [] => [(k, v)]
  | (k', v') :: d' =>
      if key_eqb k k' then (k', v) :: d' else (k', v') :: dict_set k v d'
  end.

(** [dict(pairs)] *)
Definition dict_of_pairs (pairs : list (str * pyval)) : list (key * pyval) :=
  fold_left (fun d kv => dict_set (KStr (fst kv)) (snd kv) d) pairs [].

(** [scan_once] of [py_make_scanner], with [JSONArray] and [JSONObject]:
    [array_loop] and [object_loop] are their [while True] loops, [values]
    and [pairs] hold what was read, last first.  Every call and every round
    of a loop takes one unit of fuel. *)
Fixpoint scan_once (fuel : nat) (s : str) {struct fuel}
  : result (pyval * str) :=
  match fuel with
  | O => Outside
  | S fuel' =>
      match s with
      | [] => Raise JSONDecodeError
      | nextchar :: s1 =>
          if nextchar =? 34 then
            match scanstring s1 [] with
            | Ok (x, rest) => Ok (PStr x, rest)
            | Raise e => Raise e
            | Outside => Outside
            end
          else if nextchar =? 123 then
            match skip_ws s1 with
            | c :: s2 =>
                if c =? 125 then Ok (PDict [], s2)
                else if c =? 34 then object_loop fuel' s2 []
                else Raise JSONDecodeError
            | [] => Raise JSONDecodeError
            end
          else if nextchar =? 91 then
            match skip_ws s1 with
            | c :: s2 =>
                if c =? 93 then Ok (PList [], s2)
                else array_loop fuel' (c :: s2) []
            | [] => Raise JSONDecodeError
            end
          else if starts_with (lit "null") s then Ok (PNone, skipn 4 s)
          else if starts_with (lit "true") s then Ok (PBool true, skipn 4 s)
          else if starts_with (lit "false") s then Ok (PBool false, skipn 5 s)
          else
            match match_number s with
            | Some (z, is_float, rest) =>
                if is_float then Outside else Ok (PInt z, rest)
            | None =>
                if starts_with (lit "NaN") s
                   || starts_with (lit "Infinity") s
                   || starts_with (lit "-Infinity") s
                then Outside
                else Raise JSONDecodeError
            end
      end
  end

with array_loop (fuel : nat) (s : str) (values : list pyval) {struct fuel}
  : result (pyval * str) :=
  match fuel with
  | O => Outside
  | S fuel' =>
      match scan_once fuel' s with
      | Ok (value, s1) =>
          match skip_ws s1 with
          | c :: s2 =>
              if c =? 93 then Ok (PList (rev (value :: values)), s2)
              else if c =? 44 then
                array_loop fuel' (skip_ws s2) (value :: values)
              else Raise JSONDecodeError
          | [] => Raise JSONDecodeError
          end
      | Raise e => Raise e
      | Outside => Outside
      end
  end

with object_loop (fuel : nat) (s : str) (pairs : list (str * pyval))
  {struct fuel} : result (pyval * str) :=
  match fuel with
  | O => Outside
  | S fuel' =>
      match scanstring s [] with
      | Ok (k, s1) =>
          match skip_ws s1 with
          | c :: s2 =>
              if c =? 58 then
                match scan_once fuel' (skip_ws s2) with
                | Ok (value, s3) =>
                    match skip_ws s3 with
                    | d :: s4 =>
                        if d =? 125 then
                          Ok (PDict (dict_of_pairs (rev ((k, value) :: pairs))),
                              s4)
                        else if d =? 44 then
                          match skip_ws s4 with
                          | q :: s5 =>
                              if q =? 34
                              then object_loop fuel' s5 ((k, value) :: pairs)
                              else Raise JSONDecodeError
                          | [] => Raise JSONDecodeError
                          end
                        else Raise JSONDecodeError
                    | [] => Raise JSONDecodeError
                    end
                | Raise e => Raise e
                | Outside => Outside
                end
              else Raise JSONDecodeError
          | [] => Raise JSONDecodeError
          end
      | Raise e => Raise e
      | Outside => Outside
      end
  end.

(** [JSONDecoder.decode]: one value between white space, and nothing after
    it. *)
Definition decode (s : str) : result pyval :=
  match scan_once (S (length s)) (skip_ws s) with
  | Ok (obj, rest) =>
      match skip_ws rest with
      | [] => Ok obj
      | _ :: _ => Raise JSONDecodeError
      end
  | Raise e => Raise e
  | Outside => Outside
  end.

(** [json.loads(s)] for a [str]: a byte order mark is refused. *)
Definition loads (s : str) : result pyval :=
  if starts_with [0xfeff] s then Raise JSONDecodeError else decode s.

(** *** Deep equality: [a == b] *)

Definition num_of (v : pyval) : option Z :=
  match v with
  | PInt z => Some z
  | PBool b => Some (if b then 1%Z else 0%Z)
  | _ => None
  end.

Fixpoint dict_get (k : key) (d : list (key * pyval)) : option pyval :=
  match d with
  | [] => None
  | (k', v) :: d' => if key_eqb k k' then Some v else dict_get k d'
  end.

(** Two sequences are equal when they are item by item. *)
Fixpoint seq_eq (eq : pyval -> pyval -> bool) (xs ys : list pyval)
    {struct xs} : bool :=
  match xs, ys with
  | [], [] => true
  | x :: xs', y :: ys' => eq x y && seq_eq eq xs' ys'
  | _, _ => false
  end.

(** Every item of [xs] has its key in [ys], with an equal value. *)
Fixpoint items_in (eq : pyval -> pyval -> bool) (xs ys : list (key * pyval))
    {struct xs} : bool :=
  match xs with
  | [] => true
  | (k, v) :: xs' =>
      match dict_get k ys with
      | Some v' => eq v v' && items_in eq xs' ys
      | None => false
      end
  end.

Fixpoint py_eq (a b : pyval) {struct a} : bool :=
  match a, b with
  | PNone, PNone => true
  | PStr x, PStr y => str_eqb x y
  | PBytes x, PBytes y =>
      if list_eq_dec Byte.byte_eq_dec x y then true else false
  | PList xs, PList ys => seq_eq py_eq xs ys
  | PTuple xs, PTuple ys => seq_eq py_eq xs ys
  | PDict xs, PDict ys =>
      Nat.eqb (length xs) (length ys) && items_in py_eq xs ys
  | _, _ =>
      match num_of a, num_of b with
      | Some x, Some y => (x =? y)%Z
      | _, _ => false
      end
  end.

(** *** The values of the JSON data model *)

(** A Unicode scalar value: a code point that is no surrogate. *)
Definition scalar (c : N) : bool :=
  (c <? 0xd800) || ((0xdfff <? c) && (c <? 0x110000)).

Definition text (s : str) : bool := forallb scalar s.

Fixpoint distinct (l : list key) : bool :=
  match l with
  | [] => true
  | k :: l' => negb (existsb (key_eqb k) l') && distinct l'
  end.

(** [None], [bool], [int], text, [list]s of such values and [dict]s from
    distinct text keys to such values. *)
Fixpoint json_value (v : pyval) : bool :=
  match v with
  | PNone | PBool _ | PInt _ => true
  | PStr s => text s
  | PBytes _ | PTuple _ => false
  | PList items => forallb json_value items
  | PDict items =>
      forallb (fun kv : key * pyval =>
                 let (k, v) := kv in
                 match k with KStr s => text s | _ => false end
                 && json_value v) items
      && distinct (map fst items)
  end.

(** *** Notions of the round trip *)

(** What may follow a value in the output of the encoder: the end of the
    text, a comma or a newline. *)
Definition ends_value (rest : str) : bool :=
  match rest with
  | [] => true
  | c :: _ => (c =? 44) || (c =? 10)
  end.

(** [l] is the decimal numeral of [n]. *)
Definition numeral (l : str) (n : N) : Prop :=
  (forall rest a,
      span_digits (l ++ rest) a
      = span_digits rest (a * 10 ^ N.of_nat (length l) + n))
  /\ exists d l', l = d :: l' /\ is_digit d = true
                  /\ (n = 0 -> l = [48]) /\ (n <> 0 -> d <> 48).

(** The first character of an encoded value: it is no white space, closes
    no list and is an ASCII character. *)
Definition starts_value (s : str) : bool :=
  match s with
  | c :: _ => negb (is_ws c) && (negb (c =? 93) && (c <? 128))
  | [] => false
  end.

(** The scanner reads back the encoding of [v], at every level of
    indentation and before everything that may follow a value. *)
Definition reads_back (v : pyval) : Prop :=
  forall level, exists s,
    iterencode level v = inr s
    /\ starts_value s = true
    /\ forall rest fuel,
         ends_value rest = true -> (length s < fuel)%nat ->
         scan_once fuel (s ++ rest) = Ok (v, rest).

(** An item of a dict of the JSON data model whose value is read back. *)
Definition json_item (kv : key * pyval) : Prop :=
  exists k, fst kv = KStr k /\ text k = true /\ reads_back (snd kv).

(** The pairs that [JSONObject] collects for such items. *)
Definition pair_of (kv : key * pyval) : str * pyval :=
  (match fst kv with KStr k => k | _ => [] end, snd kv).

(** The item that [dict(pairs)] holds for a pair. *)
Definition keyed (kv : str * pyval) : key * pyval := (KStr (fst kv), snd kv).

End Json.

(** ** pathlib.Path (the POSIX flavour) *)

Module PosixPath.
Local Open Scope N_scope.

(** A parsed path: the root (empty, one slash or two) and the components
    after it. *)
Record Path := mkPath { root : str; tail : list str }.

(** [posixpath.splitroot] *)
Definition splitroot (p : str) : str * str :=
  match p with
  | a :: p1 =>
      if a =? 47 then
        match p1 with
        | b :: p2 =>
            if b =? 47 then
              match p2 with
              | c :: _ => if c =? 47 then ([47], p1) else ([47; 47], p2)
              | [] => ([47; 47], p2)
              end
            else ([47], p1)
        | [] => ([47], p1)
        end
      else ([], p)
  | [] => ([], p)
  end.

(** [rel.split('/')]; [cur] is the component being read, last character
    first. *)
Fixpoint split_sep (s : str) (cur : str) : list str :=
  match s with
  | [] => [rev cur]
  | c :: s' =>
      if c =? 47 then rev cur :: split_sep s' [] else split_sep s' (c :: cur)
  end.

(** [Path(path)]: empty components and single dots are dropped. *)
Definition parse (path : str) : Path :=
  let (rt, rel) := splitroot path in
  mkPath rt (filter (fun x => negb (str_eqb x []) && negb (str_eqb x [46]))
                    (split_sep rel [])).

Fixpoint join_sep (l : list str) : str :=
  match l with
  | [] => []
  | [x] => x
  | x :: l' => x ++ 47 :: join_sep l'
  end.

(** [str(path)] *)
Definition to_str (p : Path) : str :=
  match root p, tail p with
  | [], [] => [46]
  | rt, tl => rt ++ join_sep tl
  end.

(** [path.name]: the final component, if any. *)
Definition name (p : Path) : str := last (tail p) [].

End PosixPath.

(** ** The client: [ANARIUSDClient] *)

(** A [zmq.Socket] object. *)
Definition handle := nat.

Inductive sockopt := LINGER | RCVTIMEO | SNDTIMEO | IDENTITY.

(** The calls of the source into pyzmq.  [sndmore] is the flag
    [zmq.SNDMORE]. *)
Inductive call :=
| Csocket
| Csetsockopt (h : handle) (o : sockopt) (v : Z)
| Csetsockopt_string (h : handle) (o : sockopt) (v : str)
| Cconnect (h : handle) (addr : str)
| Csend_string (h : handle) (u : str) (sndmore : bool)
| Csend (h : handle) (data : bytes) (sndmore : bool)
| Crecv_string (h : handle)
| Cclose (h : handle)
| Cterm.

(** The lines that the source prints, one constructor for each [print]
    (the number is its line in the source).  The size of line 83 is kept as
    the length it formats. *)
Inductive msg :=
| MConnecting (endpoint : str)          (* 35 *)
| MConnected (identity : str)           (* 38 *)
| MConnectionFailed (e : exn)           (* 42 *)
| MDisconnected                         (* 52 *)
| MNotConnected                         (* 64 and 109 *)
| MFileNotFound (file_path : str)       (* 71 *)
| MSendingFile                          (* 81 *)
| MFilename (filename : str)            (* 82 *)
| MSize (len : nat)                     (* 83 *)
| MHash (prefix : str)                  (* 84 *)
| MFileSent                             (* 91 *)
| MServerReply (reply : str)            (* 96 and 119 *)
| MNoReply                              (* 99 and 122 *)
| MErrorSendingFile (e : exn)           (* 103 *)
| MSendingMessage (message : str)       (* 113 *)
| MErrorSendingMessage (e : exn)        (* 126 *)
| MErrorEncodingJSON (e : exn).         (* 135 *)

(** What the client runs against: pyzmq, the clock and the file system.
    Every answer of pyzmq may depend on the calls made before.
    [zmq_call] answers the calls whose value the source does not use: they
    raise or return. *)
Record Env := mkEnv {
  zmq_socket : list call -> exn + handle;
  zmq_call : list call -> call -> option exn;
  zmq_recv_string : list call -> handle -> exn + str;
  getpid : Z;
  time_time : list call -> Z;
  path_exists : str -> bool;
  read_bytes : str -> exn + bytes
}.

(** The fields of [self]; [self.context] is the one context of the client,
    to which [Csocket] and [Cterm] go. *)
Record Client := mkClient {
  endpoint : str;
  socket : option handle;
  connected : bool
}.

(** The state of a run: [self], the calls made into pyzmq (first call
    first) and the lines printed (first line first). *)
Record State := mkState {
  self : Client;
  calls : list call;
  console : list msg
}.

(** A method returns or raises, in a new state. *)
Definition M (A : Type) : Type := State -> (exn + A) * State.

Definition ret {A} (a : A) : M A := fun st => (inr a, st).

Definition raise {A} (e : exn) : M A := fun st => (inl e, st).

Definition bind {A B} (m : M A) (k : A -> M B) : M B :=
  fun st =>
    match m st with
    | (inr a, st') => k a st'
    | (inl e, st') => (inl e, st')
    end.

Notation "x <- m ;; k" := (bind m (fun x => k))
  (at level 61, m at next level, right associativity).
Notation "m ;; k" := (bind m (fun _ => k))
  (at level 61, right associativity).

(** [try: body except Exception as e: handler] *)
Definition try_except {A} (body : M A) (handler : exn -> M A) : M A :=
  fun st =>
    match body st with
    | (inl e, st') => handler e st'
    | r => r
    end.

(** [try: body except zmq.Again: handler] *)
Definition try_except_Again {A} (body : M A) (handler : M A) : M A :=
  fun st =>
    match body st with
    | (inl Again, st') => handler st'
    | r => r
    end.

Definition get_self : M Client := fun st => (inr (self st), st).

Definition set_socket (h : handle) : M unit :=
  fun st =>
    (inr tt,
     mkState (mkClient (endpoint (self st)) (Some h) (connected (self st)))
             (calls st) (console st)).

Definition set_connected (b : bool) : M unit :=
  fun st =>
    (inr tt,
     mkState (mkClient (endpoint (self st)) (socket (self st)) b)
             (calls st) (console st)).

Definition print (m : msg) : M unit :=
  fun st => (inr tt, mkState (self st) (calls st) (console st ++ [m])).

Section Client.

Variable env : Env.

(** [self.context.socket(zmq.DEALER)] *)
Definition context_socket : M handle :=
  fun st =>
    (zmq_socket env (calls st),
     mkState (self st) (calls st ++ [Csocket]) (console st)).

Definition do_call (c : call) : M unit :=
  fun st =>
    (match zmq_call env (calls st) c with
     | Some e => inl e
     | None => inr tt
     end,
     mkState (self st) (calls st ++ [c]) (console st)).

(** [self.socket.method(...)]: on [None] the attribute is missing. *)
Definition socket_call (c : handle -> call) : M unit :=
  s <- get_self ;;
  match socket s with
  | Some h => do_call (c h)
  | None => raise AttributeError
  end.

(** [self.socket.recv_string()] *)
Definition socket_recv_string : M str :=
  s <- get_self ;;
  match socket s with
  | Some h =>
      fun st =>
        (zmq_recv_string env (calls st) h,
         mkState (self st) (calls st ++ [Crecv_string h]) (console st))
  | None => raise AttributeError
  end.

(** [f"client_{os.getpid()}_{int(time.time())}"] *)
Definition make_identity : M str :=
  fun st =>
    (inr (lit "client_" ++ str_of_int (getpid env) ++ lit "_"
              ++ str_of_int (time_time env (calls st))),
     st).

(** [with open(file_path, 'rb') as f: file_data = f.read()] *)
Definition read_file (file_path : str) : M bytes :=
  fun st => (read_bytes env file_path, st).

Definition connect : M bool :=
  try_except
    (h <- context_socket ;;
     set_socket h ;;
     socket_call (fun h => Csetsockopt h LINGER 1000) ;;
     socket_call (fun h => Csetsockopt h RCVTIMEO 5000) ;;
     socket_call (fun h => Csetsockopt h SNDTIMEO 5000) ;;
     identity <- make_identity ;;
     socket_call (fun h => Csetsockopt_string h IDENTITY identity) ;;
     s <- get_self ;;
     print (MConnecting (endpoint s)) ;;
     socket_call (fun h => Cconnect h (endpoint s)) ;;
     set_connected true ;;
     print (MConnected identity) ;;
     ret true)
    (fun e =>
       print (MConnectionFailed e) ;;
       ret false).

(** [self.context] is never [None], and a socket and a context are true
    objects: the tests of [disconnect] are on [None] only. *)
Definition disconnect : M unit :=
  s <- get_self ;;
  match socket s with
  | Some h => do_call (Cclose h)
  | None => ret tt
  end ;;
  do_call Cterm ;;
  set_connected false ;;
  print MDisconnected.

Definition calculate_sha256 (data : bytes) : M str :=
  ret (Sha256.hexdigest (Sha256.sha256 data)).

(** The wait for the reply, at the end of [send_file] and of
    [send_message]. *)
Definition await_reply : M bool :=
  try_except_Again
    (reply <- socket_recv_string ;;
     print (MServerReply reply) ;;
     ret true)
    (print MNoReply ;;
     ret false).

Definition send_file (file_path : str) : M bool :=
  s <- get_self ;;
  if negb (connected s) then
    print MNotConnected ;;
    ret false
  else
    try_except
      (let file_path := PosixPath.parse file_path in
       if negb (path_exists env (PosixPath.to_str file_path)) then
         print (MFileNotFound (PosixPath.to_str file_path)) ;;
         ret false
       else
         file_data <- read_file (PosixPath.to_str file_path) ;;
         file_hash <- calculate_sha256 file_data ;;
         let filename := PosixPath.name file_path in
         print MSendingFile ;;
         print (MFilename filename) ;;
         print (MSize (length file_data)) ;;
         print (MHash (firstn 16 file_hash)) ;;
         socket_call (fun h => Csend_string h filename true) ;;
         socket_call (fun h => Csend h file_data true) ;;
         socket_call (fun h => Csend_string h file_hash false) ;;
         print MFileSent ;;
         await_reply)
      (fun e =>
         print (MErrorSendingFile e) ;;
         ret false).

Definition send_message (message : str) : M bool :=
  s <- get_self ;;
  if negb (connected s) then
    print MNotConnected ;;
    ret false
  else
    try_except
      (print (MSendingMessage message) ;;
       socket_call (fun h => Csend_string h message false) ;;
       await_reply)
      (fun e =>
         print (MErrorSendingMessage e) ;;
         ret false).

Definition send_json_message (data : Json.pyval) : M bool :=
  try_except
    (match Json.dumps data with
     | inl e => raise e
     | inr json_str => send_message json_str
     end)
    (fun e =>
       print (MErrorEncodingJSON e) ;;
       ret false).

End Client.

(** [ANARIUSDClient(endpoint)], before any call. *)
Definition init (endpoint : str) : State :=
  mkState (mkClient endpoint None false) [] [].

(** ** The receiving side *)

Inductive frame :=
| FText (u : str)
| FBytes (data : bytes).

(** The multipart messages that a sequence of accepted sends makes up: a
    frame sent with [SNDMORE] waits for the frames after it, the frame sent
    without it closes the message.  [pending] holds the waiting frames,
    last first. *)
Fixpoint multipart (cs : list call) (pending : list frame)
  : list (list frame) :=
  match cs with
  | [] => []
  | Csend_string _ u sndmore :: cs' =>
      if sndmore then multipart cs' (FText u :: pending)
      else rev (FText u :: pending) :: multipart cs' []
  | Csend _ data sndmore :: cs' =>
      if sndmore then multipart cs' (FBytes data :: pending)
      else rev (FBytes data :: pending) :: multipart cs' []
  | _ :: cs' => multipart cs' pending
  end.

(** ** Runs of the public operations *)

Inductive op :=
| Oconnect
| Odisconnect
| Osend_file (file_path : str)
| Osend_message (message : str)
| Osend_json_message (data : Json.pyval).

(** The state after an operation, whether it returned or raised: the
    caller goes on with the same client. *)
Definition run_op (env : Env) (o : op) (st : State) : State :=
  match o with
  | Oconnect => snd (connect env st)
  | Odisconnect => snd (disconnect env st)
  | Osend_file file_path => snd (send_file env file_path st)
  | Osend_message message => snd (send_message env message st)
  | Osend_json_message data => snd (send_json_message env data st)
  end.

(** The states of a client from its construction on. *)
Inductive reachable (env : Env) : State -> Prop :=
| reachable_init : forall endpoint, reachable env (init endpoint)
| reachable_step : forall st o,
    reachable env st -> reachable env (run_op env o st).

(** A run that returns: no exception leaves it. *)
Definition returns {A} (r : (exn + A) * State) : Prop :=
  exists a, fst r = inr a.

(** The line printed last. *)
Definition final_line (st : State) : option msg :=
  last (map Some (console st)) None.

(** A lowercase hexadecimal digit: [0-9a-f]. *)
Definition is_lower_hex (c : N) : bool :=
  ((48 <=? c) && (c <=? 57) || (97 <=? c) && (c <=? 102))%N.

(** The lines that report a failure of a send operation. *)
Definition failure_line (m : msg) : bool :=
  match m with
  | MNotConnected | MFileNotFound _ | MNoReply
  | MErrorSendingFile _ | MErrorSendingMessage _ | MErrorEncodingJSON _ => true
  | _ => false
  end.

(** What a send operation gives its caller: [True] after it printed the
    reply of the server, [False] after it printed a failure. *)
Definition success_flag (r : (exn + bool) * State) : Prop :=
  (fst r = inr true
   /\ exists reply, final_line (snd r) = Some (MServerReply reply))
  \/ (fst r = inr false
      /\ exists m, final_line (snd r) = Some m /\ failure_line m = true).

(** Where [connected] is [True], there is a socket. *)
Definition connected_has_socket (st : State) : Prop :=
  connected (self st) = true -> socket (self st) <> None.

(** A path that resolves to a readable file with content [data]. *)
Definition readable (env : Env) (file_path : str) (data : bytes) : Prop :=
  path_exists env (PosixPath.to_str (PosixPath.parse file_path)) = true
  /\ read_bytes env (PosixPath.to_str (PosixPath.parse file_path)) = inr data.

(** ** Sequences of calls *)

(** pyzmq accepts the calls [cs] one after the other, after the calls
    [tr]: none of them raises. *)
Fixpoint accepted (env : Env) (tr cs : list call) : Prop :=
  match cs with
  | [] => True
  | c :: cs' => zmq_call env tr c = None /\ accepted env (tr ++ [c]) cs'
  end.

(** The calls of [connect] on the socket [h]. *)
Definition connect_calls (h : handle) (identity endpoint : str) : list call :=
  [Csetsockopt h LINGER 1000; Csetsockopt h RCVTIMEO 5000;
   Csetsockopt h SNDTIMEO 5000; Csetsockopt_string h IDENTITY identity;
   Cconnect h endpoint].

(** The identity that [connect] makes when the calls [tr] were made. *)
Definition identity_at (env : Env) (tr : list call) : str :=
  lit "client_" ++ str_of_int (getpid env) ++ lit "_"
    ++ str_of_int (time_time env tr).


Definition send_message_calls_of (h : handle) (message : str) : list call :=
  [Csend_string h message false; Crecv_string h].

(** The calls that give up the socket or the context. *)
Definition teardown (c : call) : bool :=
  match c with
  | Cclose _ | Cterm => true
  | _ => false
  end.

(** A text of ASCII characters. *)
Definition is_ascii (s : str) : bool := forallb (fun c => (c <? 128)%N) s.

(** ** format_bytes

    [bytes_size] is an [int] below [2 ^ 53]: it is a [float] without
    rounding, a division by [1024.0] changes the exponent only, and so the
    [float] of every round of the loop is the quotient [num / den] itself.
    [f"{x:.2f}"] prints the hundredth nearest to it, the even one of two
    that are as near. *)

Definition round_half_even (num den : N) : N :=
  let q := (num / den)%N in
  let r := (num mod den)%N in
  if ((den <? 2 * r) || ((2 * r =? den) && N.odd q))%N then (q + 1)%N else q.

(** [f"{x:.2f}"] for [x = num / den]. *)
Definition format_2f (num den : N) : str :=
  let h := round_half_even (100 * num) den in
  str_of_N (h / 100) ++ [46; 48 + (h / 10) mod 10; 48 + h mod 10]%N.

(** The loop of [format_bytes] over the units that are left. *)
Fixpoint format_units (units : list str) (num den : N) : str :=
  match units with
  | [] => format_2f num den ++ lit " TB"
  | unit :: units' =>
      if (num <? 1024 * den)%N then format_2f num den ++ 32%N :: unit
      else format_units units' num (1024 * den)%N
  end.

Definition format_bytes (bytes_size : N) : str :=
  format_units [lit "B"; lit "KB"; lit "MB"; lit "GB"] bytes_size 1.

(** ** The command line: [run_test_sequence], [interactive_mode], [main] *)

Module Cli.
Import Json.

(** The lines that the functions of the command line print (with the line
    of the [print] in the source).  [LPrompt] is the prompt of [input]. *)
Inductive cli_msg :=
| LUsage                                (* 148: print_usage *)
| LRunningTests                         (* 175 *)
| LTest1                                (* 178 *)
| LTest2                                (* 183 *)
| LTest3                                (* 197 *)
| LTestsCompleted                       (* 200 *)
| LInteractive                          (* 204 *)
| LCommands                             (* 205 *)
| LPrompt                               (* 209 *)
| LInvalidJSON                          (* 228 *)
| LUnknownInteractive                   (* 230 *)
| LExiting                              (* 237 *)
| LEndpointRequiresAddress              (* 255 *)
| LSendFileRequiresPath                 (* 272 *)
| LSendMessageRequiresMessage           (* 279 *)
| LSendJsonRequiresPath                 (* 287 *)
| LErrorReadingJSON (e : exn)           (* 295 *)
| LUnknownCommand (command : str).      (* 307 *)

(** A line of the standard output: of the client or of the command line. *)
Inductive line :=
| Lclient (m : msg)
| Lcli (m : cli_msg).

(** The process from the construction of the client on: the state of the
    client and the standard output, first line first. *)
Record Process := mkProcess {
  client : State;
  stdout : list line
}.

(** A function of the command line returns, raises or leaves the model
    (where [json.loads] does), in a new process. *)
Definition C (A : Type) : Type := Process -> result A * Process.

Definition c_ret {A} (a : A) : C A := fun p => (Ok a, p).

Definition c_bind {A B} (m : C A) (k : A -> C B) : C B :=
  fun p =>
    match m p with
    | (Ok a, p') => k a p'
    | (Raise e, p') => (Raise e, p')
    | (Outside, p') => (Outside, p')
    end.

Declare Scope cli_scope.
Notation "x <- m ;; k" := (c_bind m (fun x => k))
  (at level 61, m at next level, right associativity) : cli_scope.
Notation "m ;; k" := (c_bind m (fun _ => k))
  (at level 61, right associativity) : cli_scope.
Local Open Scope cli_scope.

(** A method of the client, called from the command line: what it prints
    goes to the standard output. *)
Definition lift {A} (m : M A) : C A :=
  fun p =>
    let (r, st') := m (client p) in
    (match r with inr a => Ok a | inl e => Raise e end,
     mkProcess st'
       (stdout p
        ++ map Lclient (skipn (length (console (client p))) (console st')))).

(** [print] in the functions of the command line. *)
Definition echo (m : cli_msg) : C unit :=
  fun p => (Ok tt, mkProcess (client p) (stdout p ++ [Lcli m])).

(** [time.sleep(seconds)]: the clock moves, and the clock is a parameter. *)
Definition sleep (seconds : Z) : C unit := c_ret tt.

(** [try: body finally: final] *)
Definition try_finally {A} (body : C A) (final : C unit) : C A :=
  fun p =>
    match body p with
    | (Outside, p') => (Outside, p')
    | (r, p') =>
        match final p' with
        | (Ok _, p'') => (r, p'')
        | (Raise e, p'') => (Raise e, p'')
        | (Outside, p'') => (Outside, p'')
        end
    end.

(** [try: body except Exception as e: handler] *)
Definition c_try_except {A} (body : C A) (handler : exn -> C A) : C A :=
  fun p =>
    match body p with
    | (Raise e, p') => handler e p'
    | r => r
    end.

(** [x in l] and [l.index(x)] *)
Fixpoint index (x : str) (l : list str) : option nat :=
  match l with
  | [] => None
  | y :: l' => if str_eqb y x then Some O else option_map S (index x l')
  end.

(** [" ".join(l)] *)
Fixpoint join_space (l : list str) : str :=
  match l with
  | [] => []
  | [x] => x
  | x :: l' => x ++ 32%N :: join_space l'
  end.

(** [s.split(' ', 1)]; [cur] is the part being read, last character
    first. *)
Fixpoint split_space_1 (s : str) (cur : str) : list str :=
  match s with
  | [] => [rev cur]
  | c :: s' =>
      if (c =? 32)%N then [rev cur; s'] else split_space_1 s' (c :: cur)
  end.

(** The dict of the second test, with [timestamp = int(time.time())]. *)
Definition test_data (timestamp : Z) : pyval :=
  PDict [(KStr (lit "type"), PStr (lit "test"));
         (KStr (lit "timestamp"), PInt timestamp);
         (KStr (lit "client"), PStr (lit "python_zmq_client"));
         (KStr (lit "data"),
          PDict [(KStr (lit "message"),
                  PStr (lit "This is a test JSON message"));
                 (KStr (lit "version"), PStr (lit "1.0"))])].

Section Cli.

Variable env : Env.

(** [open(path, 'r')] and [f.read()], with the text of the file. *)
Variable read_text : str -> exn + str.

(** [str.strip()] and [str.lower()]: the white space and the case
    mappings of Unicode are the tables of the interpreter. *)
Variable str_strip : str -> str.
Variable str_lower : str -> str.

(** [int(time.time())] *)
Definition now : C Z :=
  fun p => (Ok (time_time env (calls (client p))), p).

Definition run_test_sequence : C unit :=
  echo LRunningTests ;;
  echo LTest1 ;;
  lift (send_message env (lit "Hello from Python ZMQ client!")) ;;
  sleep 1 ;;
  echo LTest2 ;;
  timestamp <- now ;;
  lift (send_json_message env (test_data timestamp)) ;;
  sleep 1 ;;
  echo LTest3 ;;
  lift (send_message env (lit "STATUS")) ;;
  echo LTestsCompleted.

(** [json.loads(text)] in a function of the command line.  A longer text
    may reach the recursion limit of the interpreter (1000 frames unless it
    is changed; a level of nesting takes one or two) or its limit on the
    digits of an [int] (4300), which raise [RecursionError] and
    [ValueError]: a text of 256 characters or more is left outside of the
    model. *)
Definition json_loads (text : str) : C pyval :=
  fun p => (if (length text <? 256)%nat then loads text else Outside, p).

(** The loop of [interactive_mode] on the lines that [input] reads, one
    after the other; at the end of them [input] raises [EOFError].  A
    [KeyboardInterrupt] is not modelled. *)
Fixpoint interactive_loop (inputs : list str) : C unit :=
  echo LPrompt ;;
  match inputs with
  | [] => c_ret tt
  | raw :: inputs' =>
      let user_input := str_strip raw in
      match user_input with
      | [] => interactive_loop inputs'
      | _ :: _ =>
          if str_eqb (str_lower user_input) (lit "quit") then c_ret tt
          else
            let parts := split_space_1 user_input [] in
            let command := str_lower (nth 0 parts []) in
            (if str_eqb command (lit "file") && (1 <? length parts)%nat then
               lift (send_file env (nth 1 parts [])) ;; c_ret tt
             else if str_eqb command (lit "message")
                     && (1 <? length parts)%nat then
               lift (send_message env (nth 1 parts [])) ;; c_ret tt
             else if str_eqb command (lit "json")
                     && (1 <? length parts)%nat then
               c_try_except
                 (json_data <- json_loads (nth 1 parts []) ;;
                  lift (send_json_message env json_data) ;;
                  c_ret tt)
                 (fun e =>
                    match e with
                    | JSONDecodeError => echo LInvalidJSON
                    | _ => fun p => (Raise e, p)
                    end)
             else echo LUnknownInteractive) ;;
            interactive_loop inputs'
      end
  end.

Definition interactive_mode (inputs : list str) : C unit :=
  echo LInteractive ;;
  echo LCommands ;;
  interactive_loop inputs ;;
  echo LExiting.

(** [main], from [sys.argv] to the endpoint and the arguments without the
    option (lines 240 to 260): the line printed when there is no command,
    or the two. *)
Definition parse_options (argv : list str) : cli_msg + (str * list str) :=
  if (length argv <? 2)%nat then inl LUsage
  else
    let endpoint := lit "tcp://localhost:5556" in
    let args := skipn 1 argv in
    match
      match index (lit "--endpoint") args with
      | Some idx =>
          if (idx + 1 <? length args)%nat then
            inr (nth (idx + 1) args [],
                 firstn idx args ++ skipn (idx + 2) args)
          else inl LEndpointRequiresAddress
      | None => inr (endpoint, args)
      end
    with
    | inl m => inl m
    | inr (endpoint, []) => inl LUsage
    | inr (endpoint, args) => inr (endpoint, args)
    end.

(** The commands, in the [try] of [main] (lines 270 to 309). *)
Definition dispatch (args inputs : list str) : C Z :=
  let command := nth 0 args [] in
  if str_eqb command (lit "send-file") then
    if (length args <? 2)%nat then
      echo LSendFileRequiresPath ;; c_ret 1%Z
    else
      success <- lift (send_file env (nth 1 args [])) ;;
      c_ret (if success : bool then 0 else 1)%Z
  else if str_eqb command (lit "send-message") then
    if (length args <? 2)%nat then
      echo LSendMessageRequiresMessage ;; c_ret 1%Z
    else
      let message := join_space (skipn 1 args) in
      success <- lift (send_message env message) ;;
      c_ret (if success : bool then 0 else 1)%Z
  else if str_eqb command (lit "send-json") then
    if (length args <? 2)%nat then
      echo LSendJsonRequiresPath ;; c_ret 1%Z
    else
      c_try_except
        (text <- (fun p =>
                    (match read_text (nth 1 args []) with
                     | inr text => Ok text
                     | inl e => Raise e
                     end, p)) ;;
         json_data <- json_loads text ;;
         success <- lift (send_json_message env json_data) ;;
         c_ret (if success : bool then 0 else 1)%Z)
        (fun e => echo (LErrorReadingJSON e) ;; c_ret 1%Z)
  else if str_eqb command (lit "test") then
    run_test_sequence ;; c_ret 0%Z
  else if str_eqb command (lit "interactive") then
    interactive_mode inputs ;; c_ret 0%Z
  else
    echo (LUnknownCommand command) ;; echo LUsage ;; c_ret 1%Z.

(** [main] from [client.connect()] on (lines 266 to 312). *)
Definition main_client (args inputs : list str) : C Z :=
  connected <- lift (connect env) ;;
  if negb connected then c_ret 1%Z
  else try_finally (dispatch args inputs) (lift (disconnect env)).

(** What a run of [main] leaves: the exit code (or the exception that
    left it), the client if one was made, and the standard output. *)
Record Outcome := mkOutcome {
  status : result Z;
  final : option State;
  printed : list line
}.

(** [main()] with [sys.argv = argv], [inputs] being the lines of the
    standard input. *)
Definition main (argv inputs : list str) : Outcome :=
  match parse_options argv with
  | inl m => mkOutcome (Ok 1%Z) None [Lcli m]
  | inr (endpoint, args) =>
      let (r, p) := main_client args inputs (mkProcess (init endpoint) []) in
      mkOutcome r (Some (client p)) (stdout p)
  end.

End Cli.

(** A function of the command line that leaves the fields of the client
    alone and calls neither [close()] nor [term()]. *)
Definition keeps {A} (m : C A) : Prop :=
  forall p,
    self (client (snd (m p))) = self (client p)
    /\ exists tl, calls (client (snd (m p))) = calls (client p) ++ tl
                  /\ existsb teardown tl = false.

(** A function of the command line that lets no exception out. *)
Definition safe {A} (m : C A) : Prop :=
  forall p e, fst (m p) <> Raise e.

(** A function of the command line whose value is the exit code 0 or 1. *)
Definition exits (m : C Z) : Prop :=
  forall p z, fst (m p) = Ok z -> z = 0%Z \/ z = 1%Z.

End Cli.

(** ** Test doubles

    Concrete environments and states, at which the theorems below are
    instantiated. *)

Module Double.

Definition greeting_path : str := lit "/data/greeting.txt".

(** A server that answers every request, and a file system that holds
    [/data/greeting.txt] with the content [hello]. *)
Definition env_ok : Env :=
  mkEnv (fun _ => inr 1%nat)
        (fun _ _ => None)
        (fun _ _ => inr (lit "OK"))
        4242 (fun _ => 1700000000%Z)
        (fun p => str_eqb p greeting_path)
        (fun p => if str_eqb p greeting_path
                  then inr (bytes_of_string "hello") else inl (OSError 2)).

(** A silent server: every [recv_string] times out. *)
Definition env_silent : Env :=
  mkEnv (zmq_socket env_ok) (zmq_call env_ok) (fun _ _ => inl Again)
        (getpid env_ok) (time_time env_ok)
        (path_exists env_ok) (read_bytes env_ok).

(** A file system in which [/data] is a directory: it exists, and reading
    it raises [IsADirectoryError] (errno 21). *)
Definition env_dir : Env :=
  mkEnv (zmq_socket env_ok) (zmq_call env_ok) (zmq_recv_string env_ok)
        (getpid env_ok) (time_time env_ok)
        (fun p => str_eqb p (lit "/data") || str_eqb p greeting_path)
        (fun p => if str_eqb p greeting_path
                  then inr (bytes_of_string "hello")
                  else if str_eqb p (lit "/data") then inl (OSError 21)
                  else inl (OSError 2)).

(** A transport whose [context.term()] raises (errno 14, [EFAULT]). *)
Definition env_term_fails : Env :=
  mkEnv (zmq_socket env_ok)
        (fun _ c => match c with Cterm => Some (ZMQError 14) | _ => None end)
        (zmq_recv_string env_ok)
        (getpid env_ok) (time_time env_ok)
        (path_exists env_ok) (read_bytes env_ok).

(** A transport that refuses the receive timeout (errno 22, [EINVAL]):
    [connect] fails after the socket was made. *)
Definition env_option_fails : Env :=
  mkEnv (zmq_socket env_ok)
        (fun _ c => match c with
                    | Csetsockopt _ RCVTIMEO _ => Some (ZMQError 22)
                    | _ => None
                    end)
        (zmq_recv_string env_ok)
        (getpid env_ok) (time_time env_ok)
        (path_exists env_ok) (read_bytes env_ok).

(** The default endpoint of the source. *)
Definition endpoint0 : str := lit "tcp://localhost:5556".

(** A client after its [connect()] has returned [True]: socket 1 is open.
    The four environments have the same answers up to this state. *)
Definition st_connected : State := snd (connect env_ok (init endpoint0)).

(** [{'a': 1}] *)
Definition a1 : Json.pyval := Json.PDict [(Json.KStr (lit "a"), Json.PInt 1)].

(** The digest of [hello]. *)
Definition hello_digest : str :=
  Sha256.hexdigest (Sha256.sha256 (bytes_of_string "hello")).

End Double.

(** Doubles for the command line: the white space and the letters of
    ASCII, and a file system with one JSON file. *)
Module CliDouble.

Definition is_space (c : N) : bool :=
  ((c =? 32) || ((9 <=? c) && (c <=? 13)))%N.

Fixpoint lstrip (s : str) : str :=
  match s with
  | c :: s' => if is_space c then lstrip s' else s
  | [] => []
  end.

Definition str_strip (s : str) : str := rev (lstrip (rev (lstrip s))).

Definition str_lower (s : str) : str :=
  map (fun c => if ((65 <=? c) && (c <=? 90))%N then (c + 32)%N else c) s.

Definition read_text (path : str) : exn + str :=
  if str_eqb path (lit "/data/a1.json") then inr (lit "{ }")
  else inl (OSError 2).

Definition prog : str := lit "file_sender.py".

Definition endpoint1 : str := lit "tcp://192.168.1.100:5556".

(** The client that [main] has connected to the default endpoint. *)
Definition p_connected : Cli.Process :=
  Cli.mkProcess Double.st_connected [].

End CliDouble.

(** * Properties *)

Unset Implicit Arguments.

Arguments Sha256.hexdigest : simpl never.
Arguments Sha256.sha256 : simpl never.
Arguments PosixPath.parse : simpl never.
Arguments PosixPath.to_str : simpl never.
Arguments PosixPath.name : simpl never.
Arguments Json.dumps : simpl never.
Arguments Json.loads : simpl never.
Arguments str_of_int : simpl never.
Arguments lit : simpl never.
Arguments firstn : simpl never.
Arguments final_line : simpl never.

(** ** Test vectors *)

Example sha256_empty :
  Sha256.hexdigest (Sha256.sha256 []) =
  lit "e3b0c44298fc1c149afbf4c8996fb92427ae41e4649b934ca495991b7852b855".
Proof. vm_compute. reflexivity. Qed.

Example sha256_abc :
  Sha256.hexdigest (Sha256.sha256 (bytes_of_string "abc")) =
  lit "ba7816bf8f01cfea414140de5dae2223b00361a396177a9cb410ff61f20015ad".
Proof. vm_compute. reflexivity. Qed.

(** A message of two blocks. *)
Example sha256_two_blocks :
  Sha256.hexdigest (Sha256.sha256 (bytes_of_string
    "abcdbcdecdefdefgefghfghighijhijkijkljklmklmnlmnomnopnopq")) =
  lit "248d6a61d20638b8e5c026930c3e6039a33ce45964ff2167f6ecedd419db06c1".
Proof. vm_compute. reflexivity. Qed.

Example sha256_constants :
  nth 0 Sha256.K 0%Z = 0x428a2f98%Z /\ nth 63 Sha256.K 0%Z = 0xc67178f2%Z
  /\ length Sha256.K = 64%nat
  /\ Sha256.ra Sha256.H_init = 0x6a09e667%Z
  /\ Sha256.rh Sha256.H_init = 0x5be0cd19%Z.
Proof. vm_compute. repeat split. Qed.

Example str_of_int_examples :
  str_of_int 0 = lit "0" /\ str_of_int (-150) = lit "-150"
  /\ str_of_int 1024 = lit "1024" /\ str_of_int 9 = lit "9"
  /\ str_of_int 10 = lit "10".
Proof. vm_compute. repeat split. Qed.

(** [json.dumps({'a': 1}, indent=2)]: three lines. *)
Example dumps_a1 :
  Json.dumps Double.a1
  = inr (lit "{" ++ [10%N] ++ lit "  " ++ [34%N] ++ lit "a" ++ [34%N]
         ++ lit ": 1" ++ [10%N] ++ lit "}").
Proof. vm_compute. reflexivity. Qed.

(** A list in a list, an empty dict, and the escapes of a string with a
    character of two bytes, one beyond the basic plane and a newline. *)
Example dumps_nested :
  Json.dumps (Json.PList [Json.PInt 1; Json.PTuple [Json.PInt 2; Json.PNone];
                          Json.PDict []; Json.PStr [233%N; 128512%N; 10%N]])
  = inr (lit "[" ++ [10%N] ++ lit "  1," ++ [10%N] ++ lit "  [" ++ [10%N]
         ++ lit "    2," ++ [10%N] ++ lit "    null" ++ [10%N] ++ lit "  ],"
         ++ [10%N] ++ lit "  {}," ++ [10%N] ++ lit "  " ++ [34%N]
         ++ lit "\u00e9\ud83d\ude00\n" ++ [34%N] ++ [10%N] ++ lit "]").
Proof. vm_compute. reflexivity. Qed.

Example path_examples :
  PosixPath.name (PosixPath.parse (lit "/data/greeting.txt")) = lit "greeting.txt"
  /\ PosixPath.name (PosixPath.parse (lit "a/b/")) = lit "b"
  /\ PosixPath.name (PosixPath.parse (lit "a/.")) = lit "a"
  /\ PosixPath.name (PosixPath.parse (lit "/")) = []
  /\ PosixPath.name (PosixPath.parse (lit "..")) = lit ".."
  /\ PosixPath.to_str (PosixPath.parse (lit "a//b/./c")) = lit "a/b/c"
  /\ PosixPath.to_str (PosixPath.parse (lit "//a")) = lit "//a"
  /\ PosixPath.to_str (PosixPath.parse (lit "///a")) = lit "/a"
  /\ PosixPath.to_str (PosixPath.parse []) = lit ".".
Proof. vm_compute. repeat split. Qed.

(** ** The JSON round trip *)

Module JsonFacts.
Import Json.
Local Open Scope N_scope.

(** *** Strings *)

Lemma hexval_hexdig d : d < 16 -> hexval (hexdig d) = Some d.
Proof.
  intros Hd. unfold hexval, hexdig.
  destruct (d <? 10) eqn:E.
  - apply N.ltb_lt in E.
    replace (48 <=? 48 + d) with true by (symmetry; apply N.leb_le; lia).
    replace (48 + d <=? 57) with true by (symmetry; apply N.leb_le; lia).
    cbn [andb]. f_equal. lia.
  - apply N.ltb_ge in E.
    replace (48 <=? 87 + d) with true by (symmetry; apply N.leb_le; lia).
    replace (87 + d <=? 57) with false by (symmetry; apply N.leb_gt; lia).
    replace (97 <=? 87 + d) with true by (symmetry; apply N.leb_le; lia).
    replace (87 + d <=? 102) with true by (symmetry; apply N.leb_le; lia).
    cbn [andb]. f_equal. lia.
Qed.

Lemma hex4val_hex4 n :
  n < 65536 ->
  hex4val (hexdig (n / 4096 mod 16)) (hexdig (n / 256 mod 16))
          (hexdig (n / 16 mod 16)) (hexdig (n mod 16)) = Some n.
Proof.
  intros Hn. unfold hex4val.
  rewrite !hexval_hexdig by (apply N.mod_lt; discriminate).
  f_equal.
  replace (n / 4096) with (n / 16 / 16 / 16)
    by (rewrite !N.Div0.div_div; reflexivity).
  replace (n / 256) with (n / 16 / 16)
    by (rewrite !N.Div0.div_div; reflexivity).
  zify. Z.to_euclidean_division_equations. lia.
Qed.

(** [a * 2 ^ k] and a number below [2 ^ k] share no bit. *)
Lemma lor_mul_pow2 a b k : b < 2 ^ k -> N.lor (a * 2 ^ k) b = a * 2 ^ k + b.
Proof.
  intros Hb.
  assert (H0 : N.land (a * 2 ^ k) b = 0).
  { apply N.bits_inj_0. intros i. rewrite N.land_spec.
    destruct (N.lt_ge_cases i k) as [Hi|Hi].
    - rewrite N.mul_pow2_bits_low by exact Hi. reflexivity.
    - rewrite <- (N.mod_small b (2 ^ k)) by exact Hb.
      rewrite N.mod_pow2_bits_high by exact Hi. apply andb_false_r. }
  rewrite N.add_nocarry_lxor by exact H0. symmetry. apply N.lxor_lor. exact H0.
Qed.

(** The surrogate pair of a code point above the basic plane, and the code
    point of the pair. *)
Lemma surrogates c :
  0x10000 <= c -> c < 0x110000 ->
  let n := c - 0x10000 in
  let s1 := N.lor 0xd800 (N.land (N.shiftr n 10) 0x3ff) in
  let s2 := N.lor 0xdc00 (N.land n 0x3ff) in
  (0xd800 <= s1 /\ s1 <= 0xdbff) /\ (0xdc00 <= s2 /\ s2 <= 0xdfff)
  /\ 0x10000 + N.lor (N.shiftl (s1 - 0xd800) 10) (s2 - 0xdc00) = c.
Proof.
  intros Hlo Hhi. cbv zeta.
  remember (c - 0x10000) as n eqn:En.
  set (s1 := N.lor 0xd800 (N.land (N.shiftr n 10) 0x3ff)).
  set (s2 := N.lor 0xdc00 (N.land n 0x3ff)).
  assert (Hn : n < 0x100000) by lia.
  assert (E1 : s1 = 0xd800 + n / 1024).
  { unfold s1. change 0x3ff with (N.ones 10).
    rewrite N.land_ones, N.shiftr_div_pow2.
    change (2 ^ 10) with 1024.
    rewrite N.mod_small
      by (apply N.Div0.div_lt_upper_bound; lia).
    change 0xd800 with (54 * 2 ^ 10).
    apply lor_mul_pow2. change (2 ^ 10) with 1024.
    apply N.Div0.div_lt_upper_bound; lia. }
  assert (E2 : s2 = 0xdc00 + n mod 1024).
  { unfold s2. change 0x3ff with (N.ones 10). rewrite N.land_ones.
    change (2 ^ 10) with 1024. change 0xdc00 with (55 * 2 ^ 10).
    apply lor_mul_pow2. apply N.mod_lt. discriminate. }
  assert (Hq : n / 1024 < 1024) by (apply N.Div0.div_lt_upper_bound; lia).
  assert (Hr : n mod 1024 < 1024) by (apply N.mod_lt; discriminate).
  pose proof (N.div_mod n 1024 ltac:(discriminate)) as Hdm.
  remember (n / 1024) as q eqn:Eq. remember (n mod 1024) as r eqn:Er.
  rewrite E1, E2. clearbody s1 s2. repeat split; try lia.
  replace (0xd800 + q - 0xd800) with q by lia.
  replace (0xdc00 + r - 0xdc00) with r by lia.
  rewrite N.shiftl_mul_pow2, lor_mul_pow2 by exact Hr.
  change (2 ^ 10) with 1024.
  lia.
Qed.

(** [scanstring] reads back what [escape_char] wrote for a scalar value. *)
Lemma scanstring_escape_char c r chunks :
  scalar c = true ->
  scanstring (escape_char c ++ r) chunks = scanstring r (c :: chunks).
Proof.
  intros Hc. unfold escape_char.
  destruct (c =? 92) eqn:E92; [apply N.eqb_eq in E92; subst c; reflexivity|].
  destruct (c =? 34) eqn:E34; [apply N.eqb_eq in E34; subst c; reflexivity|].
  destruct (c =? 8) eqn:E8; [apply N.eqb_eq in E8; subst c; reflexivity|].
  destruct (c =? 12) eqn:E12; [apply N.eqb_eq in E12; subst c; reflexivity|].
  destruct (c =? 10) eqn:E10; [apply N.eqb_eq in E10; subst c; reflexivity|].
  destruct (c =? 13) eqn:E13; [apply N.eqb_eq in E13; subst c; reflexivity|].
  destruct (c =? 9) eqn:E9; [apply N.eqb_eq in E9; subst c; reflexivity|].
  destruct ((32 <=? c) && (c <=? 126)) eqn:Ep.
  - apply andb_true_iff in Ep. destruct Ep as [Ep _]. apply N.leb_le in Ep.
    cbn [app scanstring]. rewrite E34, E92.
    replace (c <? 32) with false by (symmetry; apply N.ltb_ge; exact Ep).
    reflexivity.
  - unfold scalar in Hc.
    destruct (c <? 0x10000) eqn:Eb.
    + apply N.ltb_lt in Eb.
      unfold u_escape, hex4. cbn [app scanstring].
      change (92 =? 34) with false. change (92 =? 92) with true.
      change (117 =? 117) with true. cbv iota.
      rewrite hex4val_hex4 by lia.
      replace ((0xd800 <=? c) && (c <=? 0xdbff)) with false; [reflexivity|].
      symmetry. apply andb_false_iff.
      destruct (c <? 0xd800) eqn:Es.
      * left. apply N.leb_gt. apply N.ltb_lt in Es. exact Es.
      * cbn [orb] in Hc. apply andb_true_iff in Hc. destruct Hc as [Hc _].
        apply N.ltb_lt in Hc. right. apply N.leb_gt. lia.
    + apply N.ltb_ge in Eb.
      assert (Hhi : c < 0x110000).
      { destruct (c <? 0xd800) eqn:Es; [apply N.ltb_lt in Es; lia|].
        cbn [orb] in Hc. apply andb_true_iff in Hc. destruct Hc as [_ Hc].
        apply N.ltb_lt in Hc. exact Hc. }
      destruct (surrogates c Eb Hhi) as ((L1 & U1) & (L2 & U2) & Hjoin).
      cbv zeta.
      remember (N.lor 0xd800 (N.land (N.shiftr (c - 0x10000) 10) 0x3ff)) as s1.
      remember (N.lor 0xdc00 (N.land (c - 0x10000) 0x3ff)) as s2.
      unfold u_escape, hex4. cbn [app scanstring].
      change (92 =? 34) with false. change (92 =? 92) with true.
      change (117 =? 117) with true. cbv iota. cbn [andb].
      rewrite !hex4val_hex4 by lia.
      replace ((0xd800 <=? s1) && (s1 <=? 0xdbff)) with true
        by (symmetry; apply andb_true_iff; split; apply N.leb_le; assumption).
      replace ((0xdc00 <=? s2) && (s2 <=? 0xdfff)) with true
        by (symmetry; apply andb_true_iff; split; apply N.leb_le; assumption).
      rewrite Hjoin. reflexivity.
Qed.

Lemma scanstring_flat_map s r chunks :
  text s = true ->
  scanstring (flat_map escape_char s ++ 34 :: r) chunks
  = Ok (rev chunks ++ s, r).
Proof.
  revert chunks. induction s as [|c s IH]; intros chunks Hs.
  - cbn [flat_map app scanstring]. change (34 =? 34) with true. cbv iota.
    rewrite app_nil_r. reflexivity.
  - cbn [text forallb] in Hs. apply andb_true_iff in Hs. destruct Hs as [Hc Hs].
    cbn [flat_map]. rewrite <- app_assoc.
    rewrite scanstring_escape_char by exact Hc.
    rewrite IH by exact Hs. cbn [rev]. rewrite <- app_assoc. reflexivity.
Qed.

(** *** Integers *)

Lemma ends_value_cases rest :
  ends_value rest = true ->
  rest = [] \/ exists c r, rest = c :: r /\ (c = 44 \/ c = 10).
Proof.
  destruct rest as [|c r]; [auto|]. cbn. intros H. right. exists c, r.
  split; [reflexivity|]. apply orb_true_iff in H.
  destruct H as [H|H]; apply N.eqb_eq in H; auto.
Qed.

Lemma span_digits_stop rest a :
  ends_value rest = true -> span_digits rest a = (a, rest).
Proof.
  intros H. destruct (ends_value_cases rest H) as [->|(c & r & -> & [->| ->])];
    reflexivity.
Qed.

Lemma not_float rest :
  ends_value rest = true -> has_frac rest || has_exp rest = false.
Proof.
  intros H. destruct (ends_value_cases rest H) as [->|(c & r & -> & [->| ->])];
    [reflexivity | destruct r; reflexivity ..].
Qed.

Lemma dec_digits_S f n acc :
  dec_digits (S f) n acc
  = if n <? 10 then (48 + n mod 10) :: acc
    else dec_digits f (n / 10) ((48 + n mod 10) :: acc).
Proof. reflexivity. Qed.

Lemma dec_digits_numeral f : forall n acc,
  n < 2 ^ N.of_nat (S f) ->
  exists l, dec_digits (S f) n acc = l ++ acc /\ numeral l n.
Proof.
  assert (Hsmall : forall n acc, n < 10 ->
            exists l, [48 + n] ++ acc = l ++ acc /\ numeral l n).
  { intros n acc Hn. exists [48 + n]. split; [reflexivity|]. split.
    - intros rest a. cbn [app span_digits length]. unfold is_digit.
      replace (48 <=? 48 + n) with true by (symmetry; apply N.leb_le; lia).
      replace (48 + n <=? 57) with true by (symmetry; apply N.leb_le; lia).
      cbn [andb]. f_equal. change (10 ^ N.of_nat 1) with 10. lia.
    - exists (48 + n), []. split; [reflexivity|]. split.
      + unfold is_digit.
        replace (48 <=? 48 + n) with true by (symmetry; apply N.leb_le; lia).
        replace (48 + n <=? 57) with true by (symmetry; apply N.leb_le; lia).
        reflexivity.
      + split; [intros ->; reflexivity | lia]. }
  induction f as [|f IH]; intros n acc Hn.
  - change (2 ^ N.of_nat 1) with 2 in Hn. rewrite dec_digits_S.
    replace (n <? 10) with true by (symmetry; apply N.ltb_lt; lia).
    rewrite N.mod_small by lia. apply Hsmall. lia.
  - rewrite dec_digits_S.
    destruct (n <? 10) eqn:E.
    + apply N.ltb_lt in E. rewrite N.mod_small by exact E.
      apply Hsmall. exact E.
    + apply N.ltb_ge in E.
      assert (Hq : n / 10 < 2 ^ N.of_nat (S f)).
      { apply N.Div0.div_lt_upper_bound.
        rewrite Nat2N.inj_succ, N.pow_succ_r' in Hn. lia. }
      destruct (IH (n / 10) ((48 + n mod 10) :: acc) Hq)
        as (l & Hl & Hspan & d & l' & -> & Hd & _ & Hnz).
      exists ((d :: l') ++ [48 + n mod 10]). split.
      * rewrite Hl, <- app_assoc. reflexivity.
      * assert (Hr : n mod 10 < 10) by (apply N.mod_lt; discriminate).
        pose proof (N.div_mod n 10 ltac:(discriminate)) as Hdm.
        remember (n / 10) as q eqn:Eq. remember (n mod 10) as r eqn:Er.
        split.
        -- intros rest a. rewrite <- app_assoc, Hspan.
           cbn [app span_digits]. unfold is_digit.
           replace (48 <=? 48 + r) with true
             by (symmetry; apply N.leb_le; lia).
           replace (48 + r <=? 57) with true
             by (symmetry; apply N.leb_le; lia).
           cbn [andb]. f_equal.
           change (d :: l' ++ [48 + r]) with ((d :: l') ++ [48 + r]).
           remember (d :: l') as l eqn:El.
           replace (Datatypes.length (l ++ [48 + r]))
             with (S (Datatypes.length l))
             by (rewrite length_app, Nat.add_comm; reflexivity).
           rewrite Nat2N.inj_succ, N.pow_succ_r'.
           remember (10 ^ N.of_nat (Datatypes.length l)) as p. nia.
        -- exists d, (l' ++ [48 + r]). split; [reflexivity|].
           split; [exact Hd|]. split; [lia|].
           intros _. apply Hnz. lia.
Qed.

Lemma str_of_N_numeral n : numeral (str_of_N n) n.
Proof.
  unfold str_of_N.
  destruct (dec_digits_numeral (N.to_nat (N.log2 n)) n []) as (l & Hl & Hnum).
  - rewrite Nat2N.inj_succ, N2Nat.id.
    destruct (N.eq_dec n 0) as [->|Hn]; [reflexivity|].
    apply N.log2_spec. lia.
  - rewrite Hl, app_nil_r. exact Hnum.
Qed.

Lemma int_part_numeral l n rest :
  numeral l n -> ends_value rest = true -> int_part (l ++ rest) = Some (n, rest).
Proof.
  intros [Hspan (d & l' & -> & Hd & Hz & Hnz)] Hrest.
  cbn [app int_part].
  destruct (d =? 48) eqn:E.
  - apply N.eqb_eq in E. subst d.
    destruct (N.eq_dec n 0) as [->|Hn]; [|exfalso; apply (Hnz Hn); reflexivity].
    specialize (Hz eq_refl). injection Hz as ->. reflexivity.
  - rewrite Hd. change (d :: l' ++ rest) with ((d :: l') ++ rest).
    rewrite Hspan, span_digits_stop by exact Hrest.
    rewrite N.mul_0_l, N.add_0_l. reflexivity.
Qed.

Lemma match_number_str_of_int z rest :
  ends_value rest = true ->
  match_number (str_of_int z ++ rest) = Some (z, false, rest).
Proof.
  intros Hrest. unfold str_of_int.
  destruct (z <? 0)%Z eqn:E.
  - apply Z.ltb_lt in E. cbn [app match_number].
    change (45 =? 45) with true. cbv iota.
    rewrite (int_part_numeral _ _ _ (str_of_N_numeral _) Hrest).
    rewrite not_float by exact Hrest. f_equal. f_equal. f_equal. lia.
  - apply Z.ltb_ge in E.
    pose proof (str_of_N_numeral (Z.to_N z)) as Hnum.
    pose proof (int_part_numeral _ _ rest Hnum Hrest) as Hint.
    destruct Hnum as [_ (d & l' & Hl & Hd & _)].
    rewrite Hl in *. cbn [app match_number].
    replace (d =? 45) with false.
    + change (d :: l' ++ rest) with ((d :: l') ++ rest).
      rewrite Hint, not_float by exact Hrest. f_equal. f_equal. f_equal. lia.
    + symmetry. apply N.eqb_neq. intros ->. discriminate.
Qed.

(** *** Values *)

(** Induction on values, with the hypothesis on every item of a list, of a
    tuple and of a dict. *)
Lemma pyval_ind (P : pyval -> Prop) :
  P PNone ->
  (forall b, P (PBool b)) ->
  (forall z, P (PInt z)) ->
  (forall s, P (PStr s)) ->
  (forall b, P (PBytes b)) ->
  (forall items, Forall P items -> P (PList items)) ->
  (forall items, Forall P items -> P (PTuple items)) ->
  (forall items, Forall (fun kv => P (snd kv)) items -> P (PDict items)) ->
  forall v, P v.
Proof.
  intros HNone HBool HInt HStr HBytes HList HTuple HDict.
  fix IH 1. intros [ | b | z | s | b | items | items | items].
  - exact HNone.
  - apply HBool.
  - apply HInt.
  - apply HStr.
  - apply HBytes.
  - apply HList. induction items as [|x xs IHxs]; constructor;
      [apply IH | exact IHxs].
  - apply HTuple. induction items as [|x xs IHxs]; constructor;
      [apply IH | exact IHxs].
  - apply HDict. induction items as [|[k x] xs IHxs]; constructor;
      [apply IH | exact IHxs].
Qed.

(** One step of the scanner and of its loops. *)
Lemma scan_once_S fuel nextchar s1 :
  scan_once (S fuel) (nextchar :: s1) =
  let s := nextchar :: s1 in
  if nextchar =? 34 then
    match scanstring s1 [] with
    | Ok (x, rest) => Ok (PStr x, rest)
    | Raise e => Raise e
    | Outside => Outside
    end
  else if nextchar =? 123 then
    match skip_ws s1 with
    | c :: s2 =>
        if c =? 125 then Ok (PDict [], s2)
        else if c =? 34 then object_loop fuel s2 []
        else Raise JSONDecodeError
    | [] => Raise JSONDecodeError
    end
  else if nextchar =? 91 then
    match skip_ws s1 with
    | c :: s2 =>
        if c =? 93 then Ok (PList [], s2)
        else array_loop fuel (c :: s2) []
    | [] => Raise JSONDecodeError
    end
  else if starts_with (lit "null") s then Ok (PNone, skipn 4 s)
  else if starts_with (lit "true") s then Ok (PBool true, skipn 4 s)
  else if starts_with (lit "false") s then Ok (PBool false, skipn 5 s)
  else
    match match_number s with
    | Some (z, is_float, rest) =>
        if is_float then Outside else Ok (PInt z, rest)
    | None =>
        if starts_with (lit "NaN") s
           || starts_with (lit "Infinity") s
           || starts_with (lit "-Infinity") s
        then Outside
        else Raise JSONDecodeError
    end.
Proof. reflexivity. Qed.

Lemma array_loop_S fuel s values :
  array_loop (S fuel) s values =
  match scan_once fuel s with
  | Ok (value, s1) =>
      match skip_ws s1 with
      | c :: s2 =>
          if c =? 93 then Ok (PList (rev (value :: values)), s2)
          else if c =? 44 then array_loop fuel (skip_ws s2) (value :: values)
          else Raise JSONDecodeError
      | [] => Raise JSONDecodeError
      end
  | Raise e => Raise e
  | Outside => Outside
  end.
Proof. reflexivity. Qed.

Lemma object_loop_S fuel s pairs :
  object_loop (S fuel) s pairs =
  match scanstring s [] with
  | Ok (k, s1) =>
      match skip_ws s1 with
      | c :: s2 =>
          if c =? 58 then
            match scan_once fuel (skip_ws s2) with
            | Ok (value, s3) =>
                match skip_ws s3 with
                | d :: s4 =>
                    if d =? 125 then
                      Ok (PDict (dict_of_pairs (rev ((k, value) :: pairs))), s4)
                    else if d =? 44 then
                      match skip_ws s4 with
                      | q :: s5 =>
                          if q =? 34
                          then object_loop fuel s5 ((k, value) :: pairs)
                          else Raise JSONDecodeError
                      | [] => Raise JSONDecodeError
                      end
                    else Raise JSONDecodeError
                | [] => Raise JSONDecodeError
                end
            | Raise e => Raise e
            | Outside => Outside
            end
          else Raise JSONDecodeError
      | [] => Raise JSONDecodeError
      end
  | Raise e => Raise e
  | Outside => Outside
  end.
Proof. reflexivity. Qed.

(** White space. *)
Lemma skip_ws_spaces n s : skip_ws (repeat 32 n ++ s) = skip_ws s.
Proof. induction n as [|n IH]; [reflexivity | exact IH]. Qed.

Lemma skip_ws_newline_indent level s :
  skip_ws (newline_indent level ++ s) = skip_ws s.
Proof. unfold newline_indent. cbn [app skip_ws is_ws N.eqb orb]. apply skip_ws_spaces. Qed.

Lemma skip_ws_value s r : starts_value s = true -> skip_ws (s ++ r) = s ++ r.
Proof.
  destruct s as [|c s]; [discriminate|]. cbn [starts_value app skip_ws].
  intros H. apply andb_true_iff in H. destruct H as [H _].
  apply negb_true_iff in H. rewrite H. reflexivity.
Qed.

Lemma str_of_int_head z :
  exists c s, str_of_int z = c :: s /\ (c = 45 \/ is_digit c = true).
Proof.
  unfold str_of_int. destruct (z <? 0)%Z.
  - eexists _, _. split; [reflexivity|]. left. reflexivity.
  - destruct (str_of_N_numeral (Z.to_N z)) as [_ (d & l' & Hl & Hd & _)].
    exists d, l'. auto.
Qed.

Lemma scan_once_number fuel c s :
  c = 45 \/ is_digit c = true ->
  scan_once (S fuel) (c :: s) =
  match match_number (c :: s) with
  | Some (z, is_float, rest) => if is_float then Outside else Ok (PInt z, rest)
  | None =>
      if starts_with (lit "NaN") (c :: s)
         || starts_with (lit "Infinity") (c :: s)
         || starts_with (lit "-Infinity") (c :: s)
      then Outside
      else Raise JSONDecodeError
  end.
Proof.
  intros Hc. rewrite scan_once_S. cbv zeta.
  assert (E : (c =? 34) = false /\ (c =? 123) = false /\ (c =? 91) = false
              /\ (110 =? c) = false /\ (116 =? c) = false
              /\ (102 =? c) = false).
  { destruct Hc as [->|Hd]; [repeat split; reflexivity|].
    unfold is_digit in Hd. apply andb_true_iff in Hd. destruct Hd as [H1 H2].
    apply N.leb_le in H1, H2.
    repeat split; apply N.eqb_neq; lia. }
  destruct E as (E1 & E2 & E3 & E4 & E5 & E6).
  rewrite E1, E2, E3.
  change (lit "null") with [110; 117; 108; 108].
  change (lit "true") with [116; 114; 117; 101].
  change (lit "false") with [102; 97; 108; 115; 101].
  cbn [starts_with]. rewrite E4, E5, E6. reflexivity.
Qed.

Lemma ends_value_newline_indent level r :
  ends_value (newline_indent level ++ r) = true.
Proof. reflexivity. Qed.

Lemma skip_ws_comma s : skip_ws (44 :: s) = 44 :: s.
Proof. reflexivity. Qed.

(** The loop of [JSONArray] on the items after the first. *)
Lemma array_loop_reads_back level xs :
  Forall reads_back xs ->
  exists tail,
    encode_list (iterencode (S level)) (S level) false xs = inr tail
    /\ (forall r, ends_value (tail ++ newline_indent level ++ r) = true)
    /\ forall x s_x values rest fuel,
         (forall rest fuel,
             ends_value rest = true -> (length s_x < fuel)%nat ->
             scan_once fuel (s_x ++ rest) = Ok (x, rest)) ->
         (length s_x + length tail + 1 < fuel)%nat ->
         array_loop fuel (s_x ++ tail ++ newline_indent level ++ 93 :: rest)
                    values
         = Ok (PList (rev values ++ x :: xs), rest).
Proof.
  induction 1 as [|y ys Hy Hys IH].
  - exists []. split; [reflexivity|]. split; [intros r; reflexivity|].
    intros x s_x values rest fuel Hx Hfuel.
    destruct fuel as [|fuel]; [lia|]. rewrite array_loop_S.
    cbn [app]. rewrite Hx by (auto using ends_value_newline_indent; lia).
    rewrite skip_ws_newline_indent. cbn [skip_ws is_ws N.eqb orb].
    reflexivity.
  - destruct IH as (tail & Htail & Hends & Hloop).
    destruct (Hy (S level)) as (s_y & Hs_y & Hstart & Hscan).
    exists (44 :: newline_indent (S level) ++ s_y ++ tail).
    split; [cbn [encode_list]; rewrite Hs_y, Htail; reflexivity|].
    split; [intros r; reflexivity|].
    intros x s_x values rest fuel Hx Hfuel.
    destruct fuel as [|fuel]; [lia|]. rewrite array_loop_S.
    cbn [length] in Hfuel. rewrite !length_app in Hfuel.
    rewrite Hx by (try reflexivity; lia).
    cbn [app]. rewrite skip_ws_comma.
    change (44 =? 93) with false. change (44 =? 44) with true. cbv iota.
    rewrite <- !app_assoc, skip_ws_newline_indent.
    rewrite skip_ws_value by exact Hstart.
    rewrite (Hloop y s_y (x :: values) rest fuel Hscan) by lia.
    cbn [rev]. rewrite <- app_assoc. reflexivity.
Qed.

Lemma skip_ws_colon s : skip_ws (58 :: s) = 58 :: s.
Proof. reflexivity. Qed.

Lemma skip_ws_space s : skip_ws (32 :: s) = skip_ws s.
Proof. reflexivity. Qed.

Lemma skip_ws_quote s : skip_ws (34 :: s) = 34 :: s.
Proof. reflexivity. Qed.

(** The loop of [JSONObject], from the text after the opening quote of a
    key on. *)
Lemma object_loop_reads_back level items :
  Forall json_item items ->
  exists tail,
    encode_dict (iterencode (S level)) (S level) false items = inr tail
    /\ (forall r, ends_value (tail ++ newline_indent level ++ r) = true)
    /\ forall k v s_v pairs rest fuel,
         text k = true ->
         starts_value s_v = true ->
         (forall rest fuel,
             ends_value rest = true -> (length s_v < fuel)%nat ->
             scan_once fuel (s_v ++ rest) = Ok (v, rest)) ->
         (length s_v + length tail + 1 < fuel)%nat ->
         object_loop fuel
           (flat_map escape_char k ++ 34 :: 58 :: 32 :: s_v ++ tail
              ++ newline_indent level ++ 125 :: rest)
           pairs
         = Ok (PDict (dict_of_pairs (rev pairs ++ (k, v) :: map pair_of items)),
               rest).
Proof.
  induction 1 as [|[k2 v2] items (k2' & Hk2 & Htext2 & Hv2) Hitems IH].
  - exists []. split; [reflexivity|]. split; [intros r; reflexivity|].
    intros k v s_v pairs rest fuel Hk Hstart Hv Hfuel.
    destruct fuel as [|fuel]; [lia|]. rewrite object_loop_S.
    rewrite scanstring_flat_map by exact Hk. cbn [rev app].
    rewrite skip_ws_colon. change (58 =? 58) with true. cbv iota.
    rewrite skip_ws_space, skip_ws_value by exact Hstart.
    rewrite Hv by (auto using ends_value_newline_indent; lia).
    rewrite skip_ws_newline_indent. reflexivity.
  - cbn [fst snd] in Hk2, Hv2. subst k2.
    destruct IH as (tail & Htail & Hends & Hloop).
    destruct (Hv2 (S level)) as (s_v2 & Hs_v2 & Hstart2 & Hscan2).
    exists (44 :: newline_indent (S level) ++ encode_basestring_ascii k2'
               ++ [58; 32] ++ s_v2 ++ tail).
    split; [cbn [encode_dict encode_key]; rewrite Hs_v2, Htail; reflexivity|].
    split; [intros r; reflexivity|].
    intros k v s_v pairs rest fuel Hk Hstart Hv Hfuel.
    destruct fuel as [|fuel]; [lia|]. rewrite object_loop_S.
    rewrite scanstring_flat_map by exact Hk. cbn [rev app].
    rewrite skip_ws_colon. change (58 =? 58) with true. cbv iota.
    rewrite skip_ws_space, skip_ws_value by exact Hstart.
    cbn [length] in Hfuel. rewrite !length_app in Hfuel.
    rewrite Hv by (try reflexivity; lia).
    cbn [app]. rewrite skip_ws_comma.
    change (44 =? 125) with false. change (44 =? 44) with true. cbv iota.
    unfold encode_basestring_ascii.
    rewrite <- !app_assoc, skip_ws_newline_indent. cbn [app].
    rewrite skip_ws_quote. change (34 =? 34) with true. cbv iota.
    rewrite <- !app_assoc. cbn [app].
    rewrite (Hloop k2' v2 s_v2 ((k, v) :: pairs) rest fuel Htext2 Hstart2 Hscan2)
      by lia.
    cbn [rev map]. rewrite <- app_assoc. reflexivity.
Qed.

Lemma str_eqb_eq a b : str_eqb a b = true <-> a = b.
Proof.
  unfold str_eqb. destruct (list_eq_dec N.eq_dec a b); split;
    auto; discriminate.
Qed.

Lemma dict_set_fresh k v d :
  ~ In k (map fst d) ->
  dict_set (KStr k) v (map keyed d) = map keyed (d ++ [(k, v)]).
Proof.
  induction d as [|[k' v'] d IH]; intros Hk; [reflexivity|].
  cbn [map dict_set keyed fst snd app key_eqb].
  destruct (str_eqb k k') eqn:E.
  - apply str_eqb_eq in E. exfalso. apply Hk. left. symmetry. exact E.
  - cbn [keyed fst snd] in IH. rewrite IH; [reflexivity|].
    intros Hin. apply Hk. right. exact Hin.
Qed.

(** [dict(pairs)] of pairs with distinct keys keeps them all, in order. *)
Lemma dict_of_pairs_distinct pairs :
  NoDup (map fst pairs) -> dict_of_pairs pairs = map keyed pairs.
Proof.
  unfold dict_of_pairs.
  induction pairs as [|[k v] pairs IH] using rev_ind; intros Hnd;
    [reflexivity|].
  rewrite fold_left_app. cbn [fold_left fst snd].
  rewrite map_app in Hnd. cbn [map fst] in Hnd.
  apply NoDup_remove in Hnd. rewrite app_nil_r in Hnd. destruct Hnd as [Hnd Hk].
  rewrite IH by exact Hnd. apply dict_set_fresh. exact Hk.
Qed.

Lemma json_items_keyed items :
  Forall json_item items -> map keyed (map pair_of items) = items.
Proof.
  induction 1 as [|[k v] items (k' & Hk & _) _ IH]; [reflexivity|].
  cbn [fst] in Hk. subst k. cbn [map]. rewrite IH. reflexivity.
Qed.

Lemma json_items_distinct items :
  Forall json_item items ->
  distinct (map fst items) = true ->
  NoDup (map fst (map pair_of items)).
Proof.
  induction 1 as [|[k v] items (k' & Hk & _) Hitems IH]; intros Hd;
    [constructor|].
  cbn [fst] in Hk. subst k. cbn [map fst distinct] in Hd.
  apply andb_true_iff in Hd. destruct Hd as [Hfresh Hd].
  cbn [map pair_of fst snd]. constructor; [|exact (IH Hd)].
  apply negb_true_iff in Hfresh. intros Hin.
  assert (Hex : existsb (key_eqb (KStr k')) (map fst items) = true);
    [|rewrite Hex in Hfresh; discriminate].
  clear Hfresh Hd IH. induction Hitems as [|[k2 v2] items (k2' & Hk2 & _) _ IH].
  - destruct Hin.
  - cbn [fst] in Hk2. subst k2. cbn [map fst existsb key_eqb].
    cbn [map pair_of fst snd] in Hin. destruct Hin as [<- | Hin].
    + replace (str_eqb k2' k2') with true by (symmetry; apply str_eqb_eq; auto).
      reflexivity.
    + rewrite (IH Hin). apply orb_true_r.
Qed.

Lemma iterencode_list level x xs :
  iterencode level (PList (x :: xs)) =
  match encode_list (iterencode (S level)) (S level) true (x :: xs) with
  | inl e => inl e
  | inr body => inr (91 :: body ++ newline_indent level ++ [93])
  end.
Proof. reflexivity. Qed.

Lemma iterencode_dict level kv items :
  iterencode level (PDict (kv :: items)) =
  match encode_dict (iterencode (S level)) (S level) true (kv :: items) with
  | inl e => inl e
  | inr body => inr (123 :: body ++ newline_indent level ++ [125])
  end.
Proof. reflexivity. Qed.

(** Every value of the JSON data model is read back. *)
Lemma json_value_reads_back v : json_value v = true -> reads_back v.
Proof.
  induction v as [ | b | z | s | b | items IH | items IH | items IH]
    using pyval_ind; intros Hjson level.
  - exists (lit "null"). repeat split.
    intros rest [|fuel] _ Hfuel; [inversion Hfuel | reflexivity].
  - destruct b.
    + exists (lit "true"). repeat split.
      intros rest [|fuel] _ Hfuel; [inversion Hfuel | reflexivity].
    + exists (lit "false"). repeat split.
      intros rest [|fuel] _ Hfuel; [inversion Hfuel | reflexivity].
  - exists (str_of_int z). split; [reflexivity|].
    destruct (str_of_int_head z) as (c & s' & Hs & Hc). split.
    + rewrite Hs. cbn [starts_value]. unfold is_ws.
      destruct Hc as [->|Hd]; [reflexivity|].
      unfold is_digit in Hd. apply andb_true_iff in Hd. destruct Hd as [H1 H2].
      apply N.leb_le in H1, H2.
      replace (c =? 32) with false by (symmetry; apply N.eqb_neq; lia).
      replace (c =? 9) with false by (symmetry; apply N.eqb_neq; lia).
      replace (c =? 10) with false by (symmetry; apply N.eqb_neq; lia).
      replace (c =? 13) with false by (symmetry; apply N.eqb_neq; lia).
      replace (c =? 93) with false by (symmetry; apply N.eqb_neq; lia).
      replace (c <? 128) with true by (symmetry; apply N.ltb_lt; lia).
      reflexivity.
    + intros rest [|fuel] Hrest Hfuel; [inversion Hfuel|].
      pose proof (match_number_str_of_int z rest Hrest) as Hm.
      rewrite Hs in *. cbn [app] in *.
      rewrite scan_once_number by exact Hc. rewrite Hm. reflexivity.
  - cbn [json_value] in Hjson.
    exists (encode_basestring_ascii s). split; [reflexivity|].
    split; [reflexivity|].
    intros rest [|fuel] _ Hfuel; [inversion Hfuel|].
    unfold encode_basestring_ascii. cbn [app]. rewrite scan_once_S. cbv zeta.
    change (34 =? 34) with true. cbv iota.
    rewrite <- app_assoc. cbn [app].
    rewrite scanstring_flat_map by exact Hjson. reflexivity.
  - discriminate.
  - cbn [json_value] in Hjson.
    assert (Hall : Forall reads_back items).
    { rewrite forallb_forall in Hjson. rewrite Forall_forall in IH |- *.
      intros x Hx. apply IH; auto. }
    destruct Hall as [|x xs Hx Hxs].
    + exists (lit "[]"). repeat split.
      intros rest [|fuel] _ Hfuel; [inversion Hfuel | reflexivity].
    + destruct (Hx (S level)) as (s_x & Hs_x & Hstart & Hscan).
      destruct (array_loop_reads_back level xs Hxs)
        as (tail & Htail & _ & Hloop).
      exists (91 :: (newline_indent (S level) ++ s_x ++ tail)
                 ++ newline_indent level ++ [93]).
      split.
      { rewrite iterencode_list. cbn [encode_list].
        rewrite Hs_x, Htail. reflexivity. }
      split; [reflexivity|].
      intros rest [|fuel] _ Hfuel; [inversion Hfuel|].
      cbn [length] in Hfuel. rewrite !length_app in Hfuel. cbn [length] in Hfuel.
      cbn [app]. rewrite scan_once_S. cbv zeta.
      change (91 =? 34) with false. change (91 =? 123) with false.
      change (91 =? 91) with true. cbv iota.
      rewrite <- !app_assoc, skip_ws_newline_indent. cbn [app].
      rewrite skip_ws_value by exact Hstart.
      pose proof (Hloop x s_x [] rest fuel Hscan ltac:(lia)) as Hl.
      destruct s_x as [|c s_x']; [discriminate|].
      cbn [app] in Hl |- *.
      cbn [starts_value] in Hstart. apply andb_true_iff in Hstart.
      destruct Hstart as [_ Hc]. apply andb_true_iff in Hc.
      destruct Hc as [Hc _]. apply negb_true_iff in Hc. rewrite Hc.
      exact Hl.
  - discriminate.
  - cbn [json_value] in Hjson. apply andb_true_iff in Hjson.
    destruct Hjson as [Hjson Hdist].
    assert (Hall : Forall json_item items).
    { rewrite forallb_forall in Hjson. rewrite Forall_forall in IH |- *.
      intros [k v] Hkv. specialize (Hjson _ Hkv). specialize (IH _ Hkv).
      cbn [snd] in IH. apply andb_true_iff in Hjson.
      destruct Hjson as [Hk Hv].
      destruct k as [k| | | |]; try discriminate.
      exists k. cbn [fst snd]. auto. }
    pose proof (json_items_keyed items Hall) as Hkeyed.
    pose proof (json_items_distinct items Hall Hdist) as Hnd.
    destruct Hall as [|[k v] items (k' & Hk & Htext & Hv) Hitems].
    + exists (lit "{}"). repeat split.
      intros rest [|fuel] _ Hfuel; [inversion Hfuel | reflexivity].
    + cbn [fst snd] in Hk, Hv. subst k.
      destruct (Hv (S level)) as (s_v & Hs_v & Hstart & Hscan).
      destruct (object_loop_reads_back level items Hitems)
        as (tail & Htail & _ & Hloop).
      exists (123 :: (newline_indent (S level) ++ encode_basestring_ascii k'
                        ++ [58; 32] ++ s_v ++ tail)
                  ++ newline_indent level ++ [125]).
      split.
      { rewrite iterencode_dict. cbn [encode_dict encode_key].
        rewrite Hs_v, Htail. reflexivity. }
      split; [reflexivity|].
      intros rest [|fuel] _ Hfuel; [inversion Hfuel|].
      cbn [length] in Hfuel. rewrite !length_app in Hfuel. cbn [length] in Hfuel.
      cbn [app]. rewrite scan_once_S. cbv zeta.
      change (123 =? 34) with false. change (123 =? 123) with true. cbv iota.
      unfold encode_basestring_ascii.
      rewrite <- !app_assoc, skip_ws_newline_indent. cbn [app].
      rewrite skip_ws_quote.
      change (34 =? 125) with false. change (34 =? 34) with true. cbv iota.
      rewrite <- !app_assoc. cbn [app].
      rewrite (Hloop k' v s_v [] rest fuel Htext Hstart Hscan) by lia.
      cbn [rev app]. change ((k', v) :: map pair_of items)
        with (map pair_of ((KStr k', v) :: items)).
      rewrite dict_of_pairs_distinct by exact Hnd. rewrite Hkeyed.
      reflexivity.
Qed.

(** [json.loads] undoes [json.dumps] on the values of the JSON data model. *)
Lemma loads_dumps v :
  json_value v = true -> exists s, dumps v = inr s /\ loads s = Ok v.
Proof.
  intros Hjson.
  destruct (json_value_reads_back v Hjson 0%nat) as (s & Hs & Hstart & Hscan).
  exists s. split; [exact Hs|].
  specialize (Hscan [] (S (length s)) eq_refl (Nat.lt_succ_diag_r _)).
  rewrite app_nil_r in Hscan.
  pose proof (skip_ws_value s [] Hstart) as Hskip. rewrite app_nil_r in Hskip.
  unfold loads, decode. rewrite Hskip, Hscan.
  destruct s as [|c s]; [discriminate|].
  cbn [starts_value] in Hstart. apply andb_true_iff in Hstart.
  destruct Hstart as [_ Hc]. apply andb_true_iff in Hc. destruct Hc as [_ Hc].
  apply N.ltb_lt in Hc. cbn [starts_with].
  replace (65279 =? c) with false by (symmetry; apply N.eqb_neq; lia).
  reflexivity.
Qed.

(** *** Deep equality is reflexive on these values *)



End JsonFacts.

(** ** The digest *)

Lemma hexdig_lower_hex d : (d < 16)%N -> is_lower_hex (hexdig d) = true.
Proof.
  intros Hd. unfold is_lower_hex, hexdig.
  destruct (d <? 10)%N eqn:E.
  - apply N.ltb_lt in E.
    replace ((48 <=? 48 + d)%N) with true by (symmetry; apply N.leb_le; lia).
    replace ((48 + d <=? 57)%N) with true by (symmetry; apply N.leb_le; lia).
    reflexivity.
  - apply N.ltb_ge in E.
    replace ((97 <=? 87 + d)%N) with true by (symmetry; apply N.leb_le; lia).
    replace ((87 + d <=? 102)%N) with true by (symmetry; apply N.leb_le; lia).
    apply orb_true_r.
Qed.

Lemma hex_word_length x : length (Sha256.hex_word x) = 8%nat.
Proof. reflexivity. Qed.

Lemma hex_word_lower_hex x : forallb is_lower_hex (Sha256.hex_word x) = true.
Proof.
  unfold Sha256.hex_word. apply forallb_forall. intros c Hc.
  apply in_map_iff in Hc. destruct Hc as (i & <- & _).
  apply hexdig_lower_hex.
  pose proof (Z.mod_pos_bound (x / 16 ^ Z.of_nat i) 16 eq_refl). lia.
Qed.

Lemma hexdigest_length h : length (Sha256.hexdigest h) = 64%nat.
Proof.
  unfold Sha256.hexdigest. rewrite !length_app, !hex_word_length. reflexivity.
Qed.

Lemma hexdigest_lower_hex h : forallb is_lower_hex (Sha256.hexdigest h) = true.
Proof.
  unfold Sha256.hexdigest. rewrite !forallb_app, !hex_word_lower_hex.
  reflexivity.
Qed.

(** C2: for every byte sequence, the empty one too, [calculate_sha256]
    returns (it raises nothing) in the state in which it was called, and
    its value is a text of 64 lowercase hexadecimal digits that is a
    function of the bytes alone: neither the state of the client nor a file
    name enters it, and equal bytes give equal digests. *)
Theorem calculate_sha256_pure data st :
  calculate_sha256 data st = (inr (Sha256.hexdigest (Sha256.sha256 data)), st)
  /\ length (Sha256.hexdigest (Sha256.sha256 data)) = 64%nat
  /\ forallb is_lower_hex (Sha256.hexdigest (Sha256.sha256 data)) = true
  /\ (forall data' st',
        data = data' ->
        fst (calculate_sha256 data st) = fst (calculate_sha256 data' st')).
Proof.
  split; [reflexivity|]. split; [apply hexdigest_length|].
  split; [apply hexdigest_lower_hex|].
  intros data' st' <-. reflexivity.
Qed.

(** ** The monad *)

Lemma returns_inr {A} (a : A) st : returns (inr a, st).
Proof. exists a; reflexivity. Qed.

#[local] Hint Resolve returns_inr : core.

Ltac run_monad :=
  unfold try_except, try_except_Again, bind, ret, raise, print, get_self,
    set_socket, set_connected; cbn.

Lemma final_line_snoc s c l m : final_line (mkState s c (l ++ [m])) = Some m.
Proof.
  unfold final_line; cbn. rewrite map_app. cbn. apply last_last.
Qed.

(** Case analysis on the fields of the client read and on the answers of
    the environment met in the goal, the ones of the earliest call first. *)
Ltac case_env :=
  repeat (cbn;
          match goal with
          | H : socket ?s = _ |- context [socket ?s] => rewrite H
          | H : connected ?s = _ |- context [connected ?s] => rewrite H
          | |- context [connected ?s] => destruct (connected s) eqn:?
          | |- context [match socket ?s with _ => _ end] =>
              destruct (socket s) eqn:?
          | |- context [match zmq_socket ?e ?t with _ => _ end] =>
              destruct (zmq_socket e t) eqn:?
          | |- context [match zmq_call ?e ?t ?c with _ => _ end] =>
              destruct (zmq_call e t c) eqn:?
          | |- context [match zmq_recv_string ?e ?t ?h with _ => _ end] =>
              destruct (zmq_recv_string e t h) eqn:?
          | |- context [path_exists ?e ?p] =>
              destruct (path_exists e p) eqn:?
          | |- context [match read_bytes ?e ?p with _ => _ end] =>
              destruct (read_bytes e p) eqn:?
          | |- context [match ?x with _ => _ end] => is_var x; destruct x
          end);
  cbn.

Ltac unfold_client :=
  unfold connect, disconnect, send_file, send_message, send_json_message,
    calculate_sha256, await_reply, socket_call, socket_recv_string, do_call,
    context_socket, make_identity, read_file;
  run_monad.

Section Returns.

Variable env : Env.

Lemma send_message_returns message st : returns (send_message env message st).
Proof. unfold_client. case_env; eauto. Qed.

Lemma send_file_returns file_path st : returns (send_file env file_path st).
Proof. unfold_client. case_env; eauto. Qed.

Lemma connect_returns st : returns (connect env st).
Proof. unfold_client. case_env; eauto. Qed.

Lemma send_json_message_eq data st :
  send_json_message env data st =
  match Json.dumps data with
  | inl e =>
      (inr false,
       mkState (self st) (calls st) (console st ++ [MErrorEncodingJSON e]))
  | inr json_str => send_message env json_str st
  end.
Proof.
  unfold send_json_message, try_except.
  destruct (Json.dumps data) as [e|json_str]; [reflexivity|].
  destruct (send_message_returns json_str st) as [b Hb].
  destruct (send_message env json_str st) as [[e|b'] st']; [|reflexivity].
  discriminate.
Qed.

Lemma send_json_message_returns data st :
  returns (send_json_message env data st).
Proof.
  rewrite send_json_message_eq.
  destruct (Json.dumps data); auto using send_message_returns.
Qed.

End Returns.

(** ** The transfer protocol *)

Section Protocol.

Variable env : Env.

(** C5: while [connected] is [False], [send_file], [send_message] and
    [send_json_message] return [False] at once: no call reaches pyzmq (no
    send, no receive) and the fields of the client are unchanged. *)
Theorem not_connected_fails_fast st :
  connected (self st) = false ->
  (forall file_path,
      fst (send_file env file_path st) = inr false
      /\ calls (snd (send_file env file_path st)) = calls st
      /\ self (snd (send_file env file_path st)) = self st)
  /\ (forall message,
      fst (send_message env message st) = inr false
      /\ calls (snd (send_message env message st)) = calls st
      /\ self (snd (send_message env message st)) = self st)
  /\ (forall data,
      fst (send_json_message env data st) = inr false
      /\ calls (snd (send_json_message env data st)) = calls st
      /\ self (snd (send_json_message env data st)) = self st).
Proof.
  intros Hc.
  assert (Hm : forall message,
      fst (send_message env message st) = inr false
      /\ calls (snd (send_message env message st)) = calls st
      /\ self (snd (send_message env message st)) = self st).
  { intros message. unfold send_message. run_monad. rewrite Hc. cbn. auto. }
  split; [|split]; auto.
  - intros file_path. unfold send_file. run_monad. rewrite Hc. cbn. auto.
  - intros data. rewrite send_json_message_eq.
    destruct (Json.dumps data); [cbn; auto | apply Hm].
Qed.

(** C7: when [json.dumps] raises, [send_json_message] prints the error and
    returns [False] and nothing reaches pyzmq; when it returns a text, the
    call is the call of [send_message] on exactly that text. *)
Theorem send_json_message_dumps data st :
  send_json_message env data st =
  match Json.dumps data with
  | inl e =>
      (inr false,
       mkState (self st) (calls st) (console st ++ [MErrorEncodingJSON e]))
  | inr json_str => send_message env json_str st
  end.
Proof. apply send_json_message_eq. Qed.

(** C3, as amended: on a connected client, a path that does not resolve to
    a readable file makes [send_file] return [False] with no call into
    pyzmq at all.  The line "File not found" is printed when the path does
    not exist; a path that exists and cannot be read is reported by the
    general handler, with the error that [open] or [read] raised. *)
Theorem send_file_validates_before_sending st file_path :
  connected (self st) = true ->
  (forall data, ~ readable env file_path data) ->
  let p := PosixPath.to_str (PosixPath.parse file_path) in
  let r := send_file env file_path st in
  fst r = inr false
  /\ calls (snd r) = calls st
  /\ self (snd r) = self st
  /\ (path_exists env p = false ->
      console (snd r) = console st ++ [MFileNotFound p])
  /\ (path_exists env p = true ->
      exists e, read_bytes env p = inl e
                /\ console (snd r) = console st ++ [MErrorSendingFile e]).
Proof.
  intros Hc Hn p r. subst r. unfold send_file, read_file. run_monad.
  rewrite Hc. cbn. fold p.
  destruct (path_exists env p) eqn:He; cbn.
  - destruct (read_bytes env p) as [e|data] eqn:Hr; cbn.
    + repeat split; try discriminate. intros _. exists e. auto.
    + exfalso. apply (Hn data). split; assumption.
  - repeat split; try discriminate.
Qed.




(** [disconnect] when [close()] and [term()] return. *)
Lemma disconnect_ok st :
  (forall tr h, zmq_call env tr (Cclose h) = None) ->
  (forall tr, zmq_call env tr Cterm = None) ->
  fst (disconnect env st) = inr tt
  /\ self (snd (disconnect env st))
     = mkClient (endpoint (self st)) (socket (self st)) false.
Proof.
  intros Hclose Hterm. unfold disconnect, do_call. run_monad.
  destruct (socket (self st)) as [h|] eqn:Hs; cbn;
    rewrite ?Hclose; cbn; rewrite Hterm; cbn; rewrite Hs; auto.
Qed.

(** C9: where [close()] and [term()] of pyzmq return (as they do, also on a
    closed socket and on a terminated context), [disconnect] returns on
    every state of the client and leaves [connected] at [False]; so does a
    second [disconnect] right after it, which changes no field; and on a
    client that has no socket, [close()] is not called at all. *)
Theorem disconnect_idempotent st :
  (forall tr h, zmq_call env tr (Cclose h) = None) ->
  (forall tr, zmq_call env tr Cterm = None) ->
  let st1 := snd (disconnect env st) in
  let st2 := snd (disconnect env st1) in
  fst (disconnect env st) = inr tt
  /\ connected (self st1) = false
  /\ fst (disconnect env st1) = inr tt
  /\ self st2 = self st1
  /\ (socket (self st) = None -> calls st1 = calls st ++ [Cterm]).
Proof.
  intros Hclose Hterm st1 st2.
  destruct (disconnect_ok st Hclose Hterm) as [R1 S1].
  destruct (disconnect_ok st1 Hclose Hterm) as [R2 S2].
  fold st1 in S1. fold st2 in S2.
  repeat split; auto.
  - rewrite S1. reflexivity.
  - rewrite S2, S1. reflexivity.
  - intros Hs. subst st1. unfold disconnect, do_call. run_monad.
    rewrite Hs. cbn. rewrite Hterm. reflexivity.
Qed.

(** C4, as amended: the value that [send_file], [send_message] and
    [send_json_message] return is a boolean, [True] exactly when the reply
    of the server was received and printed, and [False] after every
    failure: not connected, file not found, timeout or any error alike.
    Which failure it was, the reply and the digest appear only in the
    lines printed. *)
Theorem result_is_success_flag st :
  (forall file_path, success_flag (send_file env file_path st))
  /\ (forall message, success_flag (send_message env message st))
  /\ (forall data, success_flag (send_json_message env data st)).
Proof.
  assert (Hm : forall message, success_flag (send_message env message st)).
  { intros message. unfold success_flag. unfold_client.
    case_env;
      first [ left; split; [reflexivity|]; eexists; apply final_line_snoc
            | right; split; [reflexivity|]; eexists; split;
              [apply final_line_snoc | reflexivity] ]. }
  split; [|split]; auto.
  - intros file_path. unfold success_flag. unfold_client.
    case_env;
      first [ left; split; [reflexivity|]; eexists; apply final_line_snoc
            | right; split; [reflexivity|]; eexists; split;
              [apply final_line_snoc | reflexivity] ].
  - intros data. rewrite send_json_message_eq.
    destruct (Json.dumps data); [|apply Hm].
    right; split; [reflexivity|]. eexists; split;
      [apply final_line_snoc | reflexivity].
Qed.

(** The send operations leave the fields of the client alone. *)
Lemma send_message_self message st :
  self (snd (send_message env message st)) = self st.
Proof. unfold_client. case_env; reflexivity. Qed.

Lemma send_file_self file_path st :
  self (snd (send_file env file_path st)) = self st.
Proof. unfold_client. case_env; reflexivity. Qed.

Lemma send_json_message_self data st :
  self (snd (send_json_message env data st)) = self st.
Proof.
  rewrite send_json_message_eq.
  destruct (Json.dumps data); [reflexivity | apply send_message_self].
Qed.

Lemma disconnect_keeps_socket st :
  socket (self (snd (disconnect env st))) = socket (self st)
  /\ (connected (self (snd (disconnect env st))) = true ->
      connected (self st) = true).
Proof.
  unfold disconnect, do_call. run_monad.
  destruct (socket (self st)) as [h|] eqn:Hs; cbn.
  - destruct (zmq_call env (calls st) (Cclose h)); cbn; auto.
    destruct (zmq_call env (calls st ++ [Cclose h]) Cterm); cbn; auto.
    split; [assumption | discriminate].
  - destruct (zmq_call env (calls st) Cterm); cbn; auto.
    split; [assumption | discriminate].
Qed.

Lemma connect_socket st :
  self (snd (connect env st)) = self st
  \/ socket (self (snd (connect env st))) <> None.
Proof. unfold_client. case_env; auto; right; congruence. Qed.

Lemma run_op_invariant o st :
  connected_has_socket st -> connected_has_socket (run_op env o st).
Proof.
  unfold connected_has_socket. intros Hi.
  destruct o as [| |file_path|message|data]; unfold run_op.
  - destruct (connect_socket st) as [-> | Hs]; auto.
  - destruct (disconnect_keeps_socket st) as [-> Hc]. auto.
  - rewrite send_file_self. exact Hi.
  - rewrite send_message_self. exact Hi.
  - rewrite send_json_message_self. exact Hi.
Qed.

(** C10: in every state that a client reaches from its construction by
    calls of [connect], [disconnect], [send_file], [send_message] and
    [send_json_message], whatever the environment answers,
    [connected = True] implies that [socket] is not [None]. *)
Theorem reachable_connected_has_socket st :
  reachable env st -> connected (self st) = true -> socket (self st) <> None.
Proof.
  intros Hr. change (connected_has_socket st).
  induction Hr as [endpoint | st o Hr IH].
  - unfold connected_has_socket; cbn. discriminate.
  - apply run_op_invariant. exact IH.
Qed.

(** [send_message] on a connected client whose send is accepted: the text
    as the only frame, then the wait for the reply. *)
Lemma send_message_calls st message h :
  connected (self st) = true ->
  socket (self st) = Some h ->
  zmq_call env (calls st) (Csend_string h message false) = None ->
  calls (snd (send_message env message st))
  = calls st ++ [Csend_string h message false; Crecv_string h].
Proof.
  intros Hc Hs Hsend.
  unfold send_message, socket_call, do_call, await_reply, socket_recv_string.
  run_monad. rewrite Hc. cbn. rewrite Hs. cbn. rewrite Hsend. cbn.
  rewrite Hs. cbn.
  destruct (zmq_recv_string env _ h) as [[]|reply]; cbn;
    rewrite <- ?app_assoc; reflexivity.
Qed.


End Protocol.

(** ** The theorems at the test doubles *)

Module Witness.
Import Double.

(** The connected client of the test doubles: what [connect] called and
    printed, and the same state in each of the environments. *)
Example st_connected_value :
  fst (connect env_ok (init endpoint0)) = inr true
  /\ self st_connected = mkClient endpoint0 (Some 1%nat) true
  /\ calls st_connected
     = [Csocket; Csetsockopt 1 LINGER 1000; Csetsockopt 1 RCVTIMEO 5000;
        Csetsockopt 1 SNDTIMEO 5000;
        Csetsockopt_string 1 IDENTITY (lit "client_4242_1700000000");
        Cconnect 1 endpoint0]
  /\ console st_connected
     = [MConnecting endpoint0; MConnected (lit "client_4242_1700000000")]
  /\ st_connected = run_op env_silent Oconnect (init endpoint0)
  /\ st_connected = run_op env_dir Oconnect (init endpoint0)
  /\ st_connected = run_op env_term_fails Oconnect (init endpoint0).
Proof. vm_compute. repeat split. Qed.

Lemma not_connected_fails_fast_witness :
  connected (self (init endpoint0)) = false
  /\ fst (send_file env_ok greeting_path (init endpoint0)) = inr false
  /\ calls (snd (send_file env_ok greeting_path (init endpoint0))) = []
  /\ self (snd (send_file env_ok greeting_path (init endpoint0)))
     = self (init endpoint0).
Proof.
  split; [reflexivity|].
  exact (proj1 (not_connected_fails_fast env_ok (init endpoint0) eq_refl)
               greeting_path).
Defined.


Example hello_digest_value :
  hello_digest
  = lit "2cf24dba5fb0a30e26e83b2ac5b9e29e1b161e5c1fa7425e73043362938b9824".
Proof. vm_compute. reflexivity. Qed.


(** C3, the claim as stated fails: [/data] is a directory, so it does not
    resolve to a readable file, and [send_file] on a connected client does
    not print the line of the missing file: [open] raises, and the general
    handler prints the error. *)
Lemma directory_is_not_reported_missing :
  st_connected = run_op env_dir Oconnect (init endpoint0)
  /\ connected (self st_connected) = true
  /\ (forall data, ~ readable env_dir (lit "/data") data)
  /\ final_line (snd (send_file env_dir (lit "/data") st_connected))
     = Some (MErrorSendingFile (OSError 21))
  /\ final_line (snd (send_file env_dir (lit "/data") st_connected))
     <> Some (MFileNotFound (lit "/data")).
Proof.
  split; [reflexivity|]. split; [reflexivity|]. split.
  - intros data [_ Hr]. vm_compute in Hr. discriminate.
  - split; [vm_compute; reflexivity|]. vm_compute. discriminate.
Qed.

Lemma missing_unreadable :
  forall data, ~ readable env_ok (lit "/nonexistent/path") data.
Proof. intros data [He _]. vm_compute in He. discriminate. Qed.

Lemma send_file_validates_before_sending_witness :
  connected (self st_connected) = true
  /\ (forall data, ~ readable env_ok (lit "/nonexistent/path") data)
  /\ fst (send_file env_ok (lit "/nonexistent/path") st_connected) = inr false
  /\ calls (snd (send_file env_ok (lit "/nonexistent/path") st_connected))
     = calls st_connected
  /\ console (snd (send_file env_ok (lit "/nonexistent/path") st_connected))
     = console st_connected ++ [MFileNotFound (lit "/nonexistent/path")].
Proof.
  split; [reflexivity|]. split; [exact missing_unreadable|].
  destruct (send_file_validates_before_sending env_ok st_connected
              (lit "/nonexistent/path") eq_refl missing_unreadable)
    as (Hf & Hc & _ & Hm & _).
  split; [exact Hf|]. split; [exact Hc|]. exact (Hm eq_refl).
Defined.

(** C4, the claim as stated fails: a timeout and a missing file give the
    caller the same value, [False]; only the lines printed differ, and the
    value holds neither the digest nor a reply. *)
Lemma timeout_and_missing_file_return_the_same :
  st_connected = run_op env_silent Oconnect (init endpoint0)
  /\ fst (send_file env_silent greeting_path st_connected) = inr false
  /\ final_line (snd (send_file env_silent greeting_path st_connected))
     = Some MNoReply
  /\ fst (send_file env_silent (lit "/nonexistent/path") st_connected)
     = inr false
  /\ final_line (snd (send_file env_silent (lit "/nonexistent/path")
                                st_connected))
     = Some (MFileNotFound (lit "/nonexistent/path")).
Proof. repeat split; vm_compute; reflexivity. Qed.



Lemma disconnect_idempotent_witness :
  (forall tr h, zmq_call env_ok tr (Cclose h) = None)
  /\ (forall tr, zmq_call env_ok tr Cterm = None)
  /\ fst (disconnect env_ok st_connected) = inr tt
  /\ connected (self (snd (disconnect env_ok st_connected))) = false
  /\ fst (disconnect env_ok (snd (disconnect env_ok st_connected))) = inr tt
  /\ self (snd (disconnect env_ok (snd (disconnect env_ok st_connected))))
     = self (snd (disconnect env_ok st_connected)).
Proof.
  split; [reflexivity|]. split; [reflexivity|].
  destruct (disconnect_idempotent env_ok st_connected
              (fun _ _ => eq_refl) (fun _ => eq_refl))
    as (H1 & H2 & H3 & H4 & _).
  repeat split; assumption.
Defined.

(** [disconnect] on a client that never connected, and after a [connect]
    that failed when the socket was made. *)
Example disconnect_never_connected :
  disconnect env_ok (init endpoint0)
  = (inr tt, mkState (mkClient endpoint0 None false) [Cterm] [MDisconnected]).
Proof. reflexivity. Qed.

Example disconnect_after_failed_connect :
  connect env_option_fails (init endpoint0)
  = (inr false,
     mkState (mkClient endpoint0 (Some 1%nat) false)
             [Csocket; Csetsockopt 1 LINGER 1000; Csetsockopt 1 RCVTIMEO 5000]
             [MConnectionFailed (ZMQError 22)])
  /\ fst (disconnect env_option_fails
                     (snd (connect env_option_fails (init endpoint0))))
     = inr tt
  /\ calls (snd (disconnect env_option_fails
                    (snd (connect env_option_fails (init endpoint0)))))
     = [Csocket; Csetsockopt 1 LINGER 1000; Csetsockopt 1 RCVTIMEO 5000;
        Cclose 1; Cterm].
Proof. repeat split. Qed.

Lemma reachable_connected_has_socket_witness :
  reachable env_ok st_connected
  /\ connected (self st_connected) = true
  /\ socket (self st_connected) <> None.
Proof.
  assert (Hr : reachable env_ok st_connected).
  { change (reachable env_ok (run_op env_ok Oconnect (init endpoint0))).
    apply reachable_step, reachable_init. }
  split; [exact Hr|]. split; [reflexivity|].
  exact (reachable_connected_has_socket env_ok _ Hr eq_refl).
Defined.

(** The digests of the empty sequence and of [hello]. *)
Lemma calculate_sha256_pure_witness :
  fst (calculate_sha256 [] st_connected)
  = inr (lit "e3b0c44298fc1c149afbf4c8996fb92427ae41e4649b934ca495991b7852b855")
  /\ fst (calculate_sha256 (bytes_of_string "hello") st_connected)
     = fst (calculate_sha256 (bytes_of_string "hello") (init endpoint0)).
Proof.
  split; [vm_compute; reflexivity|].
  exact (proj2 (proj2 (proj2
           (calculate_sha256_pure (bytes_of_string "hello") st_connected)))
           (bytes_of_string "hello") (init endpoint0) eq_refl).
Defined.


(** A tuple comes back as a list. *)
Example tuple_does_not_round_trip :
  exists json_str,
    Json.dumps (Json.PTuple [Json.PInt 1]) = inr json_str
    /\ Json.loads json_str = Json.Ok (Json.PList [Json.PInt 1])
    /\ Json.py_eq (Json.PList [Json.PInt 1]) (Json.PTuple [Json.PInt 1])
       = false.
Proof. eexists. repeat split; vm_compute; reflexivity. Qed.


(** [{'a': 1}] on the wire and back. *)
Example send_json_a1 :
  exists json_str,
    Json.dumps a1 = inr json_str
    /\ multipart (skipn (length (calls st_connected))
         (calls (snd (send_json_message env_ok a1 st_connected)))) []
       = [[FText json_str]]
    /\ Json.loads json_str = Json.Ok a1.
Proof. eexists. repeat split; vm_compute; reflexivity. Qed.

End Witness.


(** * More of the client *)

Section MoreClient.

Variable env : Env.

(** X1: when pyzmq makes the socket and accepts the four options and the
    connection, [connect] returns [True] with [connected] set and the
    socket kept; it has set the linger time and the two timeouts, then the
    identity, and only then connected to the endpoint, and it has printed
    the two lines of a connection. *)
Theorem connect_success st h :
  zmq_socket env (calls st) = inr h ->
  let tr := calls st ++ [Csocket] in
  let identity :=
    identity_at env
      (tr ++ [Csetsockopt h LINGER 1000; Csetsockopt h RCVTIMEO 5000;
              Csetsockopt h SNDTIMEO 5000]) in
  accepted env tr (connect_calls h identity (endpoint (self st))) ->
  connect env st
  = (inr true,
     mkState (mkClient (endpoint (self st)) (Some h) true)
             (tr ++ connect_calls h identity (endpoint (self st)))
             (console st ++ [MConnecting (endpoint (self st));
                             MConnected identity])).
Proof.
  intros Hsock tr identity (H1 & H2 & H3 & H4 & H5 & _).
  unfold connect, context_socket, socket_call, do_call, make_identity.
  run_monad. rewrite Hsock. cbn. fold tr. rewrite H1. cbn.
  rewrite H2. cbn. rewrite H3. cbn.
  assert (E3 : ((tr ++ [Csetsockopt h LINGER 1000])
                ++ [Csetsockopt h RCVTIMEO 5000])
               ++ [Csetsockopt h SNDTIMEO 5000]
               = tr ++ [Csetsockopt h LINGER 1000; Csetsockopt h RCVTIMEO 5000;
                        Csetsockopt h SNDTIMEO 5000])
    by (rewrite <- !app_assoc; reflexivity).
  rewrite E3 in *.
  change (lit "client_" ++ str_of_int (getpid env) ++ lit "_"
            ++ str_of_int (time_time env
                 (tr ++ [Csetsockopt h LINGER 1000;
                         Csetsockopt h RCVTIMEO 5000;
                         Csetsockopt h SNDTIMEO 5000])))
    with identity.
  rewrite H4. cbn. rewrite H5. cbn.
  unfold connect_calls. rewrite <- !app_assoc. reflexivity.
Qed.

(** X2: the value of [connect] tells what it did to [connected]: after
    [True] the flag is set and there is a socket; after [False] the flag is
    as it was before the call (a client that was connected stays so), and
    the line printed last is the one of the failed connection. *)
Theorem connect_flag st :
  (fst (connect env st) = inr true
   /\ connected (self (snd (connect env st))) = true
   /\ exists h, socket (self (snd (connect env st))) = Some h)
  \/ (fst (connect env st) = inr false
      /\ connected (self (snd (connect env st))) = connected (self st)
      /\ exists e,
           final_line (snd (connect env st)) = Some (MConnectionFailed e)).
Proof.
  unfold connect, context_socket, socket_call, do_call, make_identity.
  run_monad.
  destruct (zmq_socket env (calls st)) as [e|h]; cbn.
  { right. repeat split. exists e. apply final_line_snoc. }
  repeat (match goal with
          | |- context [match zmq_call env ?t ?c with _ => _ end] =>
              destruct (zmq_call env t c) as [?e|]; cbn;
              [right; repeat split; eexists; apply final_line_snoc|]
          end).
  left. repeat split. exists h. reflexivity.
Qed.



(** X5: once the text was accepted, [send_message] reads the answer of
    [recv_string]: a reply gives [True] and is printed; the timeout
    ([zmq.Again]) gives [False] with the line of the missing reply; every
    other exception, a reply that is no text among them, gives [False] with
    the line of the error.  The wait is made once. *)
Theorem send_message_reply st message h :
  connected (self st) = true ->
  socket (self st) = Some h ->
  zmq_call env (calls st) (Csend_string h message false) = None ->
  send_message env message st
  = let tr := calls st ++ send_message_calls_of h message in
    let out := console st ++ [MSendingMessage message] in
    match zmq_recv_string env (calls st ++ [Csend_string h message false]) h
    with
    | inr reply => (inr true, mkState (self st) tr (out ++ [MServerReply reply]))
    | inl Again => (inr false, mkState (self st) tr (out ++ [MNoReply]))
    | inl e => (inr false, mkState (self st) tr (out ++ [MErrorSendingMessage e]))
    end.
Proof.
  intros Hc Hs Hsend.
  unfold send_message, socket_call, do_call, await_reply, socket_recv_string,
    send_message_calls_of.
  run_monad. rewrite Hc. cbn. rewrite Hs. cbn. rewrite Hsend. cbn.
  rewrite Hs. cbn.
  destruct (zmq_recv_string env _ h) as [[]|reply]; cbn;
    rewrite <- !app_assoc; reflexivity.
Qed.

(** X6: no send operation changes a field of the client, whatever happens
    to it: after a timeout, a refused frame or any error the client is
    still connected on the same socket; nothing is closed and nothing is
    connected anew. *)
Theorem sends_keep_client st :
  (forall file_path, self (snd (send_file env file_path st)) = self st)
  /\ (forall message, self (snd (send_message env message st)) = self st)
  /\ (forall data, self (snd (send_json_message env data st)) = self st).
Proof.
  repeat split; intros.
  - apply send_file_self.
  - apply send_message_self.
  - apply send_json_message_self.
Qed.

(** X7: after a [disconnect] that returned, the client keeps its socket
    object but every send operation fails at once: [False], and not one
    call into pyzmq on the closed socket. *)
Theorem send_after_disconnect st :
  fst (disconnect env st) = inr tt ->
  let st1 := snd (disconnect env st) in
  socket (self st1) = socket (self st)
  /\ (forall file_path,
         fst (send_file env file_path st1) = inr false
         /\ calls (snd (send_file env file_path st1)) = calls st1)
  /\ (forall message,
         fst (send_message env message st1) = inr false
         /\ calls (snd (send_message env message st1)) = calls st1)
  /\ (forall data,
         fst (send_json_message env data st1) = inr false
         /\ calls (snd (send_json_message env data st1)) = calls st1).
Proof.
  intros Hd st1.
  assert (Hc : connected (self st1) = false).
  { subst st1. revert Hd. unfold disconnect, do_call. run_monad.
    destruct (socket (self st)) as [h|]; cbn.
    - destruct (zmq_call env (calls st) (Cclose h)); cbn; [discriminate|].
      destruct (zmq_call env _ Cterm); cbn; [discriminate | reflexivity].
    - destruct (zmq_call env (calls st) Cterm); cbn;
        [discriminate | reflexivity]. }
  assert (Hm : forall message,
             fst (send_message env message st1) = inr false
             /\ calls (snd (send_message env message st1)) = calls st1).
  { intros message. unfold send_message. run_monad. rewrite Hc. cbn. auto. }
  split; [apply disconnect_keeps_socket|].
  split; [|split; [exact Hm|]].
  - intros file_path. unfold send_file. run_monad. rewrite Hc. cbn. auto.
  - intros data. rewrite send_json_message_eq.
    destruct (Json.dumps data); [cbn; auto | apply Hm].
Qed.

End MoreClient.

(** * More of the libraries under the client *)

Module MoreLibrary.
Import Json.
Local Open Scope N_scope.

(** ** The base name *)

Lemma split_sep_no_sep s : forall cur,
  ~ In 47 cur -> Forall (fun x => ~ In 47 x) (PosixPath.split_sep s cur).
Proof.
  induction s as [|c s IH]; intros cur Hcur; cbn [PosixPath.split_sep].
  - constructor; [|constructor].
    intros Hin. apply Hcur. apply in_rev. exact Hin.
  - destruct (c =? 47) eqn:E.
    + constructor; [|apply IH; intros []].
      intros Hin. apply Hcur. apply in_rev. exact Hin.
    + apply IH. intros [Hin|Hin]; [|auto].
      subst c. discriminate.
Qed.

Lemma last_Forall {A} (P : A -> Prop) l d : Forall P l -> P d -> P (last l d).
Proof.
  induction 1 as [|x l Hx Hl IH]; intros Hd; [exact Hd|].
  destruct l as [|y l]; [exact Hx | exact (IH Hd)].
Qed.

(** X8: the name that [send_file] takes from the path, and sends as the
    first frame, holds no slash and is never a single dot, whatever the
    path is: the directories of the path do not reach the server. *)
Theorem name_is_base_name file_path :
  ~ In 47 (PosixPath.name (PosixPath.parse file_path))
  /\ PosixPath.name (PosixPath.parse file_path) <> [46].
Proof.
  unfold PosixPath.name, PosixPath.parse.
  destruct (PosixPath.splitroot file_path) as [rt rel]. cbn [PosixPath.tail].
  apply (last_Forall (fun x => ~ In 47 x /\ x <> [46])).
  - apply Forall_forall. intros x Hx. apply filter_In in Hx.
    destruct Hx as [Hin Hkeep]. split.
    + pose proof (split_sep_no_sep rel [] (fun H => H)) as Hall.
      rewrite Forall_forall in Hall. exact (Hall x Hin).
    + intros ->. discriminate.
  - split; [intros [] | discriminate].
Qed.

(** ** The text of [json.dumps] *)

Lemma ascii_app a b : is_ascii (a ++ b) = is_ascii a && is_ascii b.
Proof. apply forallb_app. Qed.

Lemma hexdig_ascii d : d < 16 -> (hexdig d <? 128) = true.
Proof. intros Hd. unfold hexdig. apply N.ltb_lt. destruct (d <? 10); lia. Qed.

Lemma u_escape_ascii n : is_ascii (u_escape n) = true.
Proof.
  unfold u_escape, hex4, is_ascii. cbn [forallb].
  rewrite !hexdig_ascii by (apply N.mod_lt; discriminate). reflexivity.
Qed.

Lemma escape_char_ascii c : is_ascii (escape_char c) = true.
Proof.
  unfold escape_char.
  repeat match goal with
         | |- context [if ?b =? ?n then _ else _] =>
             destruct (b =? n); [reflexivity|]
         end.
  destruct ((32 <=? c) && (c <=? 126)) eqn:E.
  - apply andb_true_iff in E. destruct E as [_ E]. apply N.leb_le in E.
    unfold is_ascii. cbn [forallb].
    replace (c <? 128) with true by (symmetry; apply N.ltb_lt; lia).
    reflexivity.
  - destruct (c <? 65536); [apply u_escape_ascii|].
    cbv zeta. rewrite ascii_app, !u_escape_ascii. reflexivity.
Qed.

Lemma encode_basestring_ascii_ascii s :
  is_ascii (encode_basestring_ascii s) = true.
Proof.
  unfold encode_basestring_ascii.
  change (34 :: flat_map escape_char s ++ [34])
    with ([34] ++ flat_map escape_char s ++ [34]).
  rewrite !ascii_app. cbn [is_ascii forallb andb].
  replace (is_ascii (flat_map escape_char s)) with true; [reflexivity|].
  symmetry. induction s as [|c s IH]; [reflexivity|].
  cbn [flat_map]. rewrite ascii_app, escape_char_ascii, IH. reflexivity.
Qed.

Lemma dec_digits_ascii fuel : forall n acc,
  is_ascii acc = true -> is_ascii (dec_digits fuel n acc) = true.
Proof.
  induction fuel as [|fuel IH]; intros n acc Hacc; [exact Hacc|].
  cbn [dec_digits].
  assert (Hd : is_ascii ((48 + n mod 10) :: acc) = true).
  { unfold is_ascii in *. cbn [forallb]. rewrite Hacc.
    pose proof (N.mod_lt n 10 ltac:(discriminate)) as Hr.
    remember (n mod 10) as r.
    replace (48 + r <? 128) with true by (symmetry; apply N.ltb_lt; lia).
    reflexivity. }
  destruct (n <? 10); [exact Hd | apply IH; exact Hd].
Qed.

Lemma str_of_int_ascii z : is_ascii (str_of_int z) = true.
Proof.
  unfold str_of_int, str_of_N.
  destruct (z <? 0)%Z.
  - change (is_ascii ([45] ++ dec_digits
                     (S (N.to_nat (N.log2 (Z.to_N (- z))))) (Z.to_N (- z)) [])
            = true).
    rewrite ascii_app, dec_digits_ascii by reflexivity. reflexivity.
  - apply dec_digits_ascii. reflexivity.
Qed.

Lemma newline_indent_ascii level : is_ascii (newline_indent level) = true.
Proof.
  unfold newline_indent, is_ascii. cbn [forallb]. cbn [N.ltb N.compare Pos.compare Pos.compare_cont andb].
  induction (2 * level)%nat as [|n IH]; [reflexivity | exact IH].
Qed.

Lemma encode_key_ascii k ks : encode_key k = inr ks ->
  is_ascii (encode_basestring_ascii ks) = true.
Proof. intros _. apply encode_basestring_ascii_ascii. Qed.

(** X9: the text of [json.dumps], when there is one, is made of ASCII
    characters only (every character of a string or of a key beyond them
    is written as an escape): what [send_json_message] hands to
    [send_message] is plain ASCII, whatever the value holds. *)
Theorem dumps_is_ascii data json_str :
  dumps data = inr json_str -> is_ascii json_str = true.
Proof.
  unfold dumps.
  generalize 0%nat as level. revert json_str.
  induction data as [ | b | z | s | b | items IH | items IH | items IH]
    using JsonFacts.pyval_ind; intros json_str level.
  - intros [= <-]. reflexivity.
  - destruct b; intros [= <-]; reflexivity.
  - intros [= <-]. apply str_of_int_ascii.
  - intros [= <-]. apply encode_basestring_ascii_ascii.
  - discriminate.
  - destruct items as [|x xs]; [intros [= <-]; reflexivity|].
    rewrite JsonFacts.iterencode_list.
    assert (Hbody : forall first body,
      encode_list (iterencode (S level)) (S level) first (x :: xs) = inr body ->
      is_ascii body = true).
    { revert IH. generalize (x :: xs). clear x xs. intros l IH.
      induction IH as [|y ys Hy _ IHys]; intros first body;
        cbn [encode_list]; [intros [= <-]; reflexivity|].
      destruct (iterencode (S level) y) as [e|chunk] eqn:Ey; [discriminate|].
      destruct (encode_list _ _ false ys) as [e|rest] eqn:Er; [discriminate|].
      intros [= <-]. rewrite !ascii_app, (Hy _ _ Ey), (IHys _ _ Er).
      destruct first; [rewrite newline_indent_ascii; reflexivity|].
      change (is_ascii ([44] ++ newline_indent (S level)) && (true && true) = true).
      rewrite ascii_app, newline_indent_ascii. reflexivity. }
    destruct (encode_list _ _ true (x :: xs)) as [e|body] eqn:Eb;
      [discriminate|].
    intros [= <-].
    change (is_ascii ([91] ++ body ++ newline_indent level ++ [93]) = true).
    rewrite !ascii_app, (Hbody _ _ Eb), newline_indent_ascii. reflexivity.
  - destruct items as [|x xs]; [intros [= <-]; reflexivity|].
    change (iterencode level (PTuple (x :: xs)))
      with (iterencode level (PList (x :: xs))).
    rewrite JsonFacts.iterencode_list.
    assert (Hbody : forall first body,
      encode_list (iterencode (S level)) (S level) first (x :: xs) = inr body ->
      is_ascii body = true).
    { revert IH. generalize (x :: xs). clear x xs. intros l IH.
      induction IH as [|y ys Hy _ IHys]; intros first body;
        cbn [encode_list]; [intros [= <-]; reflexivity|].
      destruct (iterencode (S level) y) as [e|chunk] eqn:Ey; [discriminate|].
      destruct (encode_list _ _ false ys) as [e|rest] eqn:Er; [discriminate|].
      intros [= <-]. rewrite !ascii_app, (Hy _ _ Ey), (IHys _ _ Er).
      destruct first; [rewrite newline_indent_ascii; reflexivity|].
      change (is_ascii ([44] ++ newline_indent (S level)) && (true && true) = true).
      rewrite ascii_app, newline_indent_ascii. reflexivity. }
    destruct (encode_list _ _ true (x :: xs)) as [e|body] eqn:Eb;
      [discriminate|].
    intros [= <-].
    change (is_ascii ([91] ++ body ++ newline_indent level ++ [93]) = true).
    rewrite !ascii_app, (Hbody _ _ Eb), newline_indent_ascii. reflexivity.
  - destruct items as [|x xs]; [intros [= <-]; reflexivity|].
    rewrite JsonFacts.iterencode_dict.
    assert (Hbody : forall first body,
      encode_dict (iterencode (S level)) (S level) first (x :: xs) = inr body ->
      is_ascii body = true).
    { revert IH. generalize (x :: xs). clear x xs. intros l IH.
      induction IH as [|[k y] ys Hy _ IHys]; intros first body;
        cbn [encode_dict]; [intros [= <-]; reflexivity|].
      cbn [snd] in Hy.
      destruct (encode_key k) as [e|ks] eqn:Ek; [discriminate|].
      destruct (iterencode (S level) y) as [e|chunk] eqn:Ey; [discriminate|].
      destruct (encode_dict _ _ false ys) as [e|rest] eqn:Er; [discriminate|].
      pose proof (encode_basestring_ascii_ascii ks) as Hks.
      remember (encode_basestring_ascii ks) as eks.
      assert (Hsep : is_ascii [58; 32] = true) by reflexivity.
      remember ([58; 32] : str) as sep.
      intros [= <-].
      rewrite !ascii_app, Hks, Hsep, (Hy _ _ Ey), (IHys _ _ Er).
      destruct first; [rewrite newline_indent_ascii; reflexivity|].
      change (is_ascii ([44] ++ newline_indent (S level))
              && (true && (true && (true && true))) = true).
      rewrite ascii_app, newline_indent_ascii. reflexivity. }
    destruct (encode_dict _ _ true (x :: xs)) as [e|body] eqn:Eb;
      [discriminate|].
    intros [= <-].
    change (is_ascii ([123] ++ body ++ newline_indent level ++ [125]) = true).
    rewrite !ascii_app, (Hbody _ _ Eb), newline_indent_ascii. reflexivity.
Qed.

End MoreLibrary.

(** * format_bytes *)

Module MoreFormat.
Local Open Scope N_scope.

Lemma round_half_even_exact k d : d <> 0 -> round_half_even (k * d) d = k.
Proof.
  intros Hd. unfold round_half_even.
  rewrite N.div_mul by exact Hd. rewrite N.Div0.mod_mul.
  rewrite N.mul_0_r.
  replace (d <? 0) with false by (symmetry; apply N.ltb_ge; lia).
  replace (0 =? d) with false by (symmetry; apply N.eqb_neq; lia).
  reflexivity.
Qed.

Lemma format_2f_exact k d :
  d <> 0 -> format_2f (k * d) d = str_of_N k ++ lit ".00".
Proof.
  intros Hd. unfold format_2f.
  replace (100 * (k * d)) with (100 * k * d) by lia.
  rewrite round_half_even_exact by exact Hd.
  replace (100 * k / 100) with k
    by (rewrite N.mul_comm, N.div_mul; [reflexivity | discriminate]).
  replace (100 * k / 10) with (10 * k).
  - replace (10 * k mod 10) with 0
      by (rewrite N.mul_comm, N.Div0.mod_mul; reflexivity).
    replace (100 * k mod 10) with 0.
    + reflexivity.
    + replace (100 * k) with (10 * k * 10) by lia.
      rewrite N.Div0.mod_mul. reflexivity.
  - replace (100 * k) with (10 * k * 10) by lia.
    rewrite N.div_mul; [reflexivity | discriminate].
Qed.

(** X10: a size that is a whole number [k] of units is printed as that
    number with two zeros after the point and the unit: bytes below
    1024, and from 1 to 1023 of [KB], [MB] and [GB]; from 1024 [GB] on the
    unit is [TB], without a bound on the number.  (Sizes below [2 ^ 53]:
    there the [float]s of the source are exact.) *)
Theorem format_bytes_whole_units j k :
  (j <= 4)%nat ->
  (j = 0%nat \/ 1 <= k) ->
  (j = 4%nat \/ k < 1024) ->
  k * 1024 ^ N.of_nat j < 2 ^ 53 ->
  format_bytes (k * 1024 ^ N.of_nat j)
  = str_of_N k ++ lit ".00 "
      ++ nth j [lit "B"; lit "KB"; lit "MB"; lit "GB"; lit "TB"] [].
Proof.
  intros Hj Hlo Hhi _. unfold format_bytes.
  assert (Hfmt : forall d u, d <> 0 ->
            format_2f (k * d) d ++ 32 :: u = str_of_N k ++ lit ".00 " ++ u).
  { intros d u Hd. rewrite format_2f_exact by exact Hd.
    rewrite <- app_assoc. reflexivity. }
  destruct j as [|[|[|[|[|j]]]]]; try lia; cbn [format_units nth].
  - change (1024 ^ N.of_nat 0) with 1.
    replace (k * 1 <? 1024 * 1) with true by (symmetry; apply N.ltb_lt; lia).
    apply Hfmt. discriminate.
  - change (1024 ^ N.of_nat 1) with 1024.
    replace (k * 1024 <? 1024 * 1) with false
      by (symmetry; apply N.ltb_ge; lia).
    replace (k * 1024 <? 1024 * (1024 * 1)) with true
      by (symmetry; apply N.ltb_lt; lia).
    apply Hfmt. discriminate.
  - change (1024 ^ N.of_nat 2) with (1024 * (1024 * 1)).
    replace (k * (1024 * (1024 * 1)) <? 1024 * 1) with false
      by (symmetry; apply N.ltb_ge; lia).
    replace (k * (1024 * (1024 * 1)) <? 1024 * (1024 * 1)) with false
      by (symmetry; apply N.ltb_ge; lia).
    replace (k * (1024 * (1024 * 1)) <? 1024 * (1024 * (1024 * 1))) with true
      by (symmetry; apply N.ltb_lt; lia).
    apply Hfmt. discriminate.
  - change (1024 ^ N.of_nat 3) with (1024 * (1024 * (1024 * 1))).
    replace (k * (1024 * (1024 * (1024 * 1))) <? 1024 * 1) with false
      by (symmetry; apply N.ltb_ge; lia).
    replace (k * (1024 * (1024 * (1024 * 1))) <? 1024 * (1024 * 1)) with false
      by (symmetry; apply N.ltb_ge; lia).
    replace (k * (1024 * (1024 * (1024 * 1))) <? 1024 * (1024 * (1024 * 1)))
      with false by (symmetry; apply N.ltb_ge; lia).
    replace (k * (1024 * (1024 * (1024 * 1)))
             <? 1024 * (1024 * (1024 * (1024 * 1))))
      with true by (symmetry; apply N.ltb_lt; lia).
    apply Hfmt. discriminate.
  - change (1024 ^ N.of_nat 4) with (1024 * (1024 * (1024 * (1024 * 1)))).
    replace (k * (1024 * (1024 * (1024 * (1024 * 1)))) <? 1024 * 1) with false
      by (symmetry; apply N.ltb_ge; lia).
    replace (k * (1024 * (1024 * (1024 * (1024 * 1)))) <? 1024 * (1024 * 1))
      with false by (symmetry; apply N.ltb_ge; lia).
    replace (k * (1024 * (1024 * (1024 * (1024 * 1))))
             <? 1024 * (1024 * (1024 * 1)))
      with false by (symmetry; apply N.ltb_ge; lia).
    replace (k * (1024 * (1024 * (1024 * (1024 * 1))))
             <? 1024 * (1024 * (1024 * (1024 * 1))))
      with false by (symmetry; apply N.ltb_ge; lia).
    rewrite format_2f_exact by discriminate.
    rewrite <- app_assoc. reflexivity.
Qed.

Lemma round_half_even_nearest num d :
  d <> 0 ->
  2 * (round_half_even num d * d) <= 2 * num + d
  /\ 2 * num <= 2 * (round_half_even num d * d) + d.
Proof.
  intros Hd. unfold round_half_even.
  pose proof (N.div_mod num d Hd) as Hdm.
  pose proof (N.mod_lt num d Hd) as Hlt.
  remember (num / d) as q. remember (num mod d) as r.
  destruct (d <? 2 * r) eqn:E1; cbn [orb].
  - apply N.ltb_lt in E1. nia.
  - apply N.ltb_ge in E1.
    destruct (2 * r =? d) eqn:E2; cbn [andb].
    + apply N.eqb_eq in E2. destruct (N.odd q); nia.
    + nia.
Qed.

(** The unit that [format_bytes] picks. *)
Lemma format_bytes_unit j n :
  (j <= 4)%nat ->
  (j = 0%nat \/ 1024 ^ N.of_nat j <= n) ->
  (j = 4%nat \/ n < 1024 ^ N.of_nat (S j)) ->
  format_bytes n
  = format_2f n (1024 ^ N.of_nat j)
      ++ 32 :: nth j [lit "B"; lit "KB"; lit "MB"; lit "GB"; lit "TB"] [].
Proof.
  intros Hj Hlo Hhi. unfold format_bytes.
  assert (P1 : 1024 * 1 = 1024 ^ 1) by reflexivity.
  assert (P2 : 1024 * (1024 * 1) = 1024 ^ 2) by reflexivity.
  assert (P3 : 1024 * (1024 * (1024 * 1)) = 1024 ^ 3) by reflexivity.
  assert (P4 : 1024 * (1024 * (1024 * (1024 * 1))) = 1024 ^ 4)
    by reflexivity.
  assert (L1 : 1024 ^ 1 < 1024 ^ 2) by reflexivity.
  assert (L2 : 1024 ^ 2 < 1024 ^ 3) by reflexivity.
  assert (L3 : 1024 ^ 3 < 1024 ^ 4) by reflexivity.
  assert (L0 : 0 < 1024 ^ 1) by reflexivity.
  cbn [format_units]. rewrite P4, P3, P2, P1.
  remember (1024 ^ 1) as a1. remember (1024 ^ 2) as a2.
  remember (1024 ^ 3) as a3. remember (1024 ^ 4) as a4.
  destruct j as [|[|[|[|[|j]]]]]; try lia; cbn [nth];
    cbn [N.of_nat Pos.of_succ_nat Pos.succ] in *;
    rewrite <- ?Heqa1, <- ?Heqa2, <- ?Heqa3, <- ?Heqa4 in *.
  - replace (n <? a1) with true by (symmetry; apply N.ltb_lt; lia).
    reflexivity.
  - replace (n <? a1) with false by (symmetry; apply N.ltb_ge; lia).
    replace (n <? a2) with true by (symmetry; apply N.ltb_lt; lia).
    reflexivity.
  - replace (n <? a1) with false by (symmetry; apply N.ltb_ge; lia).
    replace (n <? a2) with false by (symmetry; apply N.ltb_ge; lia).
    replace (n <? a3) with true by (symmetry; apply N.ltb_lt; lia).
    reflexivity.
  - replace (n <? a1) with false by (symmetry; apply N.ltb_ge; lia).
    replace (n <? a2) with false by (symmetry; apply N.ltb_ge; lia).
    replace (n <? a3) with false by (symmetry; apply N.ltb_ge; lia).
    replace (n <? a4) with true by (symmetry; apply N.ltb_lt; lia).
    reflexivity.
  - replace (n <? a1) with false by (symmetry; apply N.ltb_ge; lia).
    replace (n <? a2) with false by (symmetry; apply N.ltb_ge; lia).
    replace (n <? a3) with false by (symmetry; apply N.ltb_ge; lia).
    replace (n <? a4) with false by (symmetry; apply N.ltb_ge; lia).
    reflexivity.
Qed.

(** X11: for every size below [2 ^ 53], [format_bytes] picks the unit by
    the magnitude ([B] below 1024, then [KB], [MB], [GB], each up to 1024
    of it, and [TB] from 1024 [GB] on) and prints, with two digits after
    the point, the number [h] of hundredths of that unit that is nearest
    to the size: [h / 100] differs from the size by at most half a
    hundredth of the unit. *)
Theorem format_bytes_nearest j n :
  (j <= 4)%nat ->
  (j = 0%nat \/ 1024 ^ N.of_nat j <= n) ->
  (j = 4%nat \/ n < 1024 ^ N.of_nat (S j)) ->
  n < 2 ^ 53 ->
  exists h,
    format_bytes n
    = str_of_N (h / 100) ++ [46; 48 + (h / 10) mod 10; 48 + h mod 10]
        ++ 32 :: nth j [lit "B"; lit "KB"; lit "MB"; lit "GB"; lit "TB"] []
    /\ 2 * (h * 1024 ^ N.of_nat j) <= 2 * (100 * n) + 1024 ^ N.of_nat j
    /\ 2 * (100 * n) <= 2 * (h * 1024 ^ N.of_nat j) + 1024 ^ N.of_nat j.
Proof.
  intros Hj Hlo Hhi _.
  exists (round_half_even (100 * n) (1024 ^ N.of_nat j)).
  split.
  - rewrite (format_bytes_unit j n Hj Hlo Hhi). unfold format_2f.
    rewrite <- app_assoc. reflexivity.
  - apply round_half_even_nearest. apply N.pow_nonzero. discriminate.
Qed.

End MoreFormat.

Module DecoderFacts.
Import Json JsonFacts.
Local Open Scope N_scope.

(** The scanner of strings raises [JSONDecodeError] only. *)
Lemma scanstring_raises n : forall s chunks e,
  (length s <= n)%nat -> scanstring s chunks = Raise e -> e = JSONDecodeError.
Proof.
  induction n as [|n IH]; intros s chunks e Hn.
  - destruct s; [|cbn in Hn; lia]. cbn. intros [= <-]; reflexivity.
  - assert (IH' : forall s' chunks',
               (length s' <= n)%nat ->
               forall e', scanstring s' chunks' = Raise e' ->
                          e' = JSONDecodeError) by (intros; eapply IH; eauto).
    clear IH. revert e.
    destruct s as [|c s1]; cbn [scanstring].
    { intros ? [= <-]; reflexivity. }
    cbn [length] in Hn.
    destruct (c =? 34); [intros ? [=]|].
    destruct (c =? 92).
    2:{ destruct (c <? 32); [intros ? [= <-]; reflexivity|].
        apply IH'. lia. }
    destruct s1 as [|esc s2]; [intros ? [= <-]; reflexivity|].
    cbn [length] in Hn.
    destruct (esc =? 117).
    2:{ destruct (backslash esc); [|intros ? [= <-]; reflexivity].
        apply IH'. lia. }
    destruct s2 as [|h1 [|h2 [|h3 [|h4 s3]]]];
      try (intros ? [= <-]; reflexivity).
    cbn [length] in Hn.
    destruct (hex4val h1 h2 h3 h4) as [uni|]; [|intros ? [= <-]; reflexivity].
    assert (H3 : forall e', scanstring s3 (uni :: chunks) = Raise e' ->
                            e' = JSONDecodeError) by (apply IH'; lia).
    destruct ((0xd800 <=? uni) && (uni <=? 0xdbff)); [|exact H3].
    destruct s3 as [|b [|u [|g1 [|g2 [|g3 [|g4 s4]]]]]]; try exact H3.
    destruct ((b =? 92) && (u =? 117)); [|exact H3].
    destruct (hex4val g1 g2 g3 g4) as [uni2|];
      [|intros ? [= <-]; reflexivity].
    destruct ((0xdc00 <=? uni2) && (uni2 <=? 0xdfff)); [|exact H3].
    apply IH'. cbn [length] in Hn. lia.
Qed.

(** So do the scanner of values and its two loops. *)
Lemma scan_once_raises fuel :
  (forall s e, scan_once fuel s = Raise e -> e = JSONDecodeError)
  /\ (forall s values e,
        array_loop fuel s values = Raise e -> e = JSONDecodeError)
  /\ (forall s pairs e,
        object_loop fuel s pairs = Raise e -> e = JSONDecodeError).
Proof.
  induction fuel as [|fuel (IHs & IHa & IHo)].
  { repeat split; intros; discriminate. }
  assert (Hstr : forall s chunks e,
             scanstring s chunks = Raise e -> e = JSONDecodeError)
    by (intros s chunks e; apply (scanstring_raises (length s)); lia).
  repeat split.
  - intros [|nextchar s1]; [intros ? [= <-]; reflexivity|].
    rewrite scan_once_S. cbv zeta.
    destruct (nextchar =? 34).
    { destruct (scanstring s1 []) as [[x rest]|e'|] eqn:E.
      - intros ? [=].
      - intros e [= <-]. eapply Hstr; eauto.
      - intros ? [=]. }
    destruct (nextchar =? 123).
    { destruct (skip_ws s1) as [|c s2]; [intros ? [= <-]; reflexivity|].
      destruct (c =? 125); [intros ? [=]|].
      destruct (c =? 34); [apply IHo | intros ? [= <-]; reflexivity]. }
    destruct (nextchar =? 91).
    { destruct (skip_ws s1) as [|c s2]; [intros ? [= <-]; reflexivity|].
      destruct (c =? 93); [intros ? [=] | apply IHa]. }
    destruct (starts_with (lit "null") _); [intros ? [=]|].
    destruct (starts_with (lit "true") _); [intros ? [=]|].
    destruct (starts_with (lit "false") _); [intros ? [=]|].
    destruct (match_number _) as [[[z [|]] rest]|];
      [intros ? [=] | intros ? [=] |].
    destruct (_ || _); [intros ? [=] | intros ? [= <-]; reflexivity].
  - intros s values. rewrite array_loop_S.
    destruct (scan_once fuel s) as [[value s1]|e'|] eqn:E.
    + destruct (skip_ws s1) as [|c s2]; [intros ? [= <-]; reflexivity|].
      destruct (c =? 93); [intros ? [=]|].
      destruct (c =? 44); [apply IHa | intros ? [= <-]; reflexivity].
    + intros e [= <-]. eapply IHs; eauto.
    + intros ? [=].
  - intros s pairs. rewrite object_loop_S.
    destruct (scanstring s []) as [[k s1]|e'|] eqn:E.
    + destruct (skip_ws s1) as [|c s2]; [intros ? [= <-]; reflexivity|].
      destruct (c =? 58); [|intros ? [= <-]; reflexivity].
      destruct (scan_once fuel (skip_ws s2)) as [[value s3]|e'|] eqn:E'.
      * destruct (skip_ws s3) as [|d s4]; [intros ? [= <-]; reflexivity|].
        destruct (d =? 125); [intros ? [=]|].
        destruct (d =? 44); [|intros ? [= <-]; reflexivity].
        destruct (skip_ws s4) as [|q s5]; [intros ? [= <-]; reflexivity|].
        destruct (q =? 34); [apply IHo | intros ? [= <-]; reflexivity].
      * intros e [= <-]. eapply IHs; eauto.
      * intros ? [=].
    + intros e [= <-]. eapply Hstr; eauto.
    + intros ? [=].
Qed.

Lemma loads_raises s e : loads s = Raise e -> e = JSONDecodeError.
Proof.
  unfold loads, decode.
  destruct (starts_with _ s); [intros [= <-]; reflexivity|].
  destruct (scan_once _ _) as [[obj rest]|e'|] eqn:E.
  - destruct (skip_ws rest); [discriminate | intros [= <-]; reflexivity].
  - intros [= <-]. destruct (scan_once_raises (S (length s))) as (H & _ & _).
    eapply H; eauto.
  - discriminate.
Qed.

End DecoderFacts.

(** * The command line *)

Module CliFacts.
Import Json Cli.
Local Open Scope cli_scope.

(** ** The combinators *)

Lemma keeps_ret {A} (a : A) : keeps (c_ret a).
Proof.
  intros p. split; [reflexivity|]. exists []. rewrite app_nil_r. auto.
Qed.

Lemma safe_ret {A} (a : A) : safe (c_ret a).
Proof. intros p e. discriminate. Qed.

Lemma keeps_echo m : keeps (echo m).
Proof.
  intros p. split; [reflexivity|]. exists []. rewrite app_nil_r. auto.
Qed.

Lemma safe_echo m : safe (echo m).
Proof. intros p e. discriminate. Qed.

Lemma keeps_then {A} (p p' : Process) (m : C A) tl :
  self (client p') = self (client p) ->
  calls (client p') = calls (client p) ++ tl ->
  existsb teardown tl = false ->
  keeps m ->
  self (client (snd (m p'))) = self (client p)
  /\ exists tl', calls (client (snd (m p'))) = calls (client p) ++ tl'
                 /\ existsb teardown tl' = false.
Proof.
  intros Hs Hc Ht Hm. destruct (Hm p') as (Hs' & tl' & Hc' & Ht').
  split; [congruence|]. exists (tl ++ tl').
  rewrite Hc', Hc, app_assoc, existsb_app, Ht, Ht'. auto.
Qed.

Lemma keeps_bind {A B} (m : C A) (k : A -> C B) :
  keeps m -> (forall a, keeps (k a)) -> keeps (c_bind m k).
Proof.
  intros Hm Hk p. unfold c_bind.
  destruct (Hm p) as (Hs & tl & Hc & Ht).
  destruct (m p) as [[a|e|] p']; cbn [fst snd] in *; eauto using keeps_then.
Qed.

Lemma safe_bind {A B} (m : C A) (k : A -> C B) :
  safe m -> (forall a, safe (k a)) -> safe (c_bind m k).
Proof.
  intros Hm Hk p e. unfold c_bind. specialize (Hm p).
  destruct (m p) as [[a|e'|] p']; cbn [fst] in *.
  - apply Hk.
  - exfalso. exact (Hm e' eq_refl).
  - discriminate.
Qed.

Lemma keeps_try_except {A} (body : C A) (handler : exn -> C A) :
  keeps body -> (forall e, keeps (handler e)) ->
  keeps (c_try_except body handler).
Proof.
  intros Hb Hh p. unfold c_try_except.
  destruct (Hb p) as (Hs & tl & Hc & Ht).
  destruct (body p) as [[a|e|] p']; cbn [fst snd] in *; eauto using keeps_then.
Qed.

Lemma safe_try_except {A} (body : C A) (handler : exn -> C A) :
  (forall p e, fst (body p) = Raise e -> safe (handler e)) ->
  safe (c_try_except body handler).
Proof.
  intros Hh p e. unfold c_try_except.
  specialize (Hh p).
  destruct (body p) as [[a|e'|] p']; cbn [fst] in *; try discriminate.
  apply (Hh e' eq_refl).
Qed.

(** The value and the state of a method called from the command line. *)
Lemma lift_eq {A} (m : M A) p :
  lift m p
  = (match fst (m (client p)) with inr a => Ok a | inl e => Raise e end,
     mkProcess (snd (m (client p)))
       (stdout p ++ map Lclient (skipn (length (console (client p)))
                                       (console (snd (m (client p))))))).
Proof. unfold lift. destruct (m (client p)) as [r st']. reflexivity. Qed.

Lemma safe_lift {A} (m : M A) :
  (forall st, returns (m st)) -> safe (lift m).
Proof.
  intros Hm p e. rewrite lift_eq. cbn [fst].
  destruct (Hm (client p)) as [a Ha]. rewrite Ha. discriminate.
Qed.

Lemma keeps_lift {A} (m : M A) :
  (forall st, self (snd (m st)) = self st
              /\ exists tl, calls (snd (m st)) = calls st ++ tl
                            /\ existsb teardown tl = false) ->
  keeps (lift m).
Proof. intros Hm p. rewrite lift_eq. cbn [snd client]. apply Hm. Qed.

(** ** The methods *)

Section Methods.

Variable env : Env.

Ltac calls_only :=
  split; [reflexivity|];
  first [ exists []; rewrite app_nil_r; split; reflexivity
        | eexists; split; [rewrite <- ?app_assoc; reflexivity | reflexivity] ].

Lemma send_message_calls_only message st :
  self (snd (send_message env message st)) = self st
  /\ exists tl, calls (snd (send_message env message st)) = calls st ++ tl
                /\ existsb teardown tl = false.
Proof. unfold_client. case_env; calls_only. Qed.

Lemma send_file_calls_only file_path st :
  self (snd (send_file env file_path st)) = self st
  /\ exists tl, calls (snd (send_file env file_path st)) = calls st ++ tl
                /\ existsb teardown tl = false.
Proof. unfold_client. case_env; calls_only. Qed.

Lemma send_json_message_calls_only data st :
  self (snd (send_json_message env data st)) = self st
  /\ exists tl, calls (snd (send_json_message env data st)) = calls st ++ tl
                /\ existsb teardown tl = false.
Proof.
  rewrite send_json_message_eq.
  destruct (Json.dumps data); [|apply send_message_calls_only].
  cbn. calls_only.
Qed.

Lemma connect_calls_only st :
  exists tl, calls (snd (connect env st)) = calls st ++ tl
             /\ existsb teardown tl = false.
Proof.
  unfold_client. case_env;
    first [ exists []; rewrite app_nil_r; split; reflexivity
          | eexists; split; [rewrite <- ?app_assoc; reflexivity | reflexivity] ].
Qed.

End Methods.


(** ** [run_test_sequence], [interactive_mode] and [main] *)

Section CommandLine.

Variable env : Env.
Variable read_text : str -> exn + str.
Variable str_strip str_lower : str -> str.

Lemma keeps_send_message message : keeps (lift (send_message env message)).
Proof. apply keeps_lift, send_message_calls_only. Qed.

Lemma keeps_send_file file_path : keeps (lift (send_file env file_path)).
Proof. apply keeps_lift, send_file_calls_only. Qed.

Lemma keeps_send_json_message data :
  keeps (lift (send_json_message env data)).
Proof. apply keeps_lift, send_json_message_calls_only. Qed.

Lemma safe_send_message message : safe (lift (send_message env message)).
Proof. apply safe_lift, send_message_returns. Qed.

Lemma safe_send_file file_path : safe (lift (send_file env file_path)).
Proof. apply safe_lift, send_file_returns. Qed.

Lemma safe_send_json_message data : safe (lift (send_json_message env data)).
Proof. apply safe_lift, send_json_message_returns. Qed.

Lemma keeps_json_loads text : keeps (json_loads text).
Proof.
  intros p. split; [reflexivity|]. exists []. rewrite app_nil_r. auto.
Qed.

Lemma json_loads_raises text p e :
  fst (json_loads text p) = Raise e -> e = JSONDecodeError.
Proof.
  unfold json_loads. cbn [fst].
  destruct (length text <? 256)%nat; [apply DecoderFacts.loads_raises|].
  discriminate.
Qed.

Lemma keeps_now : keeps (now env).
Proof.
  intros p. split; [reflexivity|]. exists []. rewrite app_nil_r. auto.
Qed.

Lemma safe_now : safe (now env).
Proof. intros p e. discriminate. Qed.

Create HintDb cli.

#[local] Hint Resolve keeps_ret safe_ret keeps_echo safe_echo keeps_now
  safe_now keeps_send_message keeps_send_file keeps_send_json_message
  safe_send_message safe_send_file safe_send_json_message keeps_json_loads
  : cli.

Ltac combine :=
  repeat first
    [ solve [auto with cli]
    | apply keeps_bind; [|intros ?]
    | apply safe_bind; [|intros ?] ].

Lemma keeps_run_test_sequence : keeps (run_test_sequence env).
Proof. unfold run_test_sequence, sleep. combine. Qed.

Lemma safe_run_test_sequence : safe (run_test_sequence env).
Proof. unfold run_test_sequence, sleep. combine. Qed.

#[local] Hint Resolve keeps_run_test_sequence safe_run_test_sequence : cli.

(** What raises in the [try] around [json.loads] of the interactive
    mode. *)
Lemma json_command_raises text p e :
  fst ((json_data <- json_loads text ;;
        lift (send_json_message env json_data) ;;
        c_ret tt) p) = Raise e ->
  e = JSONDecodeError.
Proof.
  unfold c_bind at 1.
  destruct (json_loads text p) as [[json_data|e'|] p'] eqn:E; cbn [fst].
  - intros H. exfalso. revert H. apply safe_bind; [|intros ?]; auto with cli.
  - intros [= <-]. apply (json_loads_raises text p). rewrite E. reflexivity.
  - discriminate.
Qed.

Lemma interactive_loop_keeps inputs :
  keeps (interactive_loop env str_strip str_lower inputs)
  /\ safe (interactive_loop env str_strip str_lower inputs).
Proof.
  induction inputs as [|raw inputs [IHk IHs]]; cbn [interactive_loop].
  { split; combine. }
  destruct (str_strip raw) as [|c user_input] eqn:Estrip.
  { split; combine. }
  destruct (str_eqb _ (lit "quit")).
  { split; combine. }
  split.
  - apply keeps_bind; [auto with cli | intros _].
    apply keeps_bind; [|intros _; exact IHk].
    repeat match goal with
           | |- context [if ?b then _ else _] => destruct b
           end; combine.
    apply keeps_try_except; [combine|].
    intros [ | | | | | | | ]; auto with cli;
      intros p; (split; [reflexivity|]); exists []; rewrite app_nil_r; auto.
  - apply safe_bind; [auto with cli | intros _].
    apply safe_bind; [|intros _; exact IHs].
    repeat match goal with
           | |- context [if ?b then _ else _] => destruct b
           end; combine.
    apply safe_try_except. intros p e He.
    apply json_command_raises in He. subst e. auto with cli.
Qed.


Lemma keeps_interactive_mode inputs :
  keeps (interactive_mode env str_strip str_lower inputs).
Proof.
  unfold interactive_mode. combine. apply interactive_loop_keeps.
Qed.

Lemma safe_interactive_mode inputs :
  safe (interactive_mode env str_strip str_lower inputs).
Proof.
  unfold interactive_mode. combine. apply interactive_loop_keeps.
Qed.

#[local] Hint Resolve keeps_interactive_mode safe_interactive_mode : cli.

Lemma keeps_dispatch args inputs :
  keeps (dispatch env read_text str_strip str_lower args inputs).
Proof.
  unfold dispatch.
  repeat match goal with
         | |- context [if ?b then _ else _] => destruct b
         end; combine;
    (apply keeps_try_except; [|intros e; combine]);
    (apply keeps_bind; [|intros text; combine]);
    intros p; cbn [snd]; (split; [reflexivity|]); exists [];
    rewrite app_nil_r; auto.
Qed.

Lemma safe_dispatch args inputs :
  safe (dispatch env read_text str_strip str_lower args inputs).
Proof.
  unfold dispatch.
  repeat match goal with
         | |- context [if ?b then _ else _] => destruct b
         end; combine;
    apply safe_try_except; intros p e _; combine.
Qed.

(** The exit code of a command is 0 or 1. *)
Lemma exits_ret c : c = 0%Z \/ c = 1%Z -> exits (c_ret c).
Proof. intros Hc p z [= <-]. exact Hc. Qed.

Lemma exits_bind {A} (m : C A) (k : A -> C Z) :
  (forall a, exits (k a)) -> exits (c_bind m k).
Proof.
  intros Hk p z. unfold c_bind.
  destruct (m p) as [[a|e|] p']; cbn [fst]; try discriminate. apply Hk.
Qed.

Lemma exits_try_except (body : C Z) (handler : exn -> C Z) :
  exits body -> (forall e, exits (handler e)) ->
  exits (c_try_except body handler).
Proof.
  intros Hb Hh p z. unfold c_try_except. specialize (Hb p z).
  destruct (body p) as [[a|e|] p']; cbn [fst] in *; try discriminate.
  - exact Hb.
  - apply Hh.
Qed.

Lemma exits_dispatch args inputs :
  exits (dispatch env read_text str_strip str_lower args inputs).
Proof.
  unfold dispatch.
  repeat match goal with
         | |- context [if ?b then _ else _] => destruct b
         end;
    repeat first
      [ match goal with
        | |- exits (c_ret (if ?b then _ else _)) => destruct b
        end
      | solve [apply exits_ret; auto]
      | apply exits_bind; intros ?
      | apply exits_try_except; [|intros ?] ].
Qed.

(** [connect] after it has returned [True]. *)
Lemma connect_true st :
  fst (connect env st) = inr true ->
  connected (self (snd (connect env st))) = true
  /\ exists h, socket (self (snd (connect env st))) = Some h.
Proof.
  unfold_client. case_env; intros [=]; eauto.
Qed.

(** [disconnect] on a client with a socket, when [close()] and [term()]
    return. *)
Lemma disconnect_calls st h :
  socket (self st) = Some h ->
  (forall tr h, zmq_call env tr (Cclose h) = None) ->
  (forall tr, zmq_call env tr Cterm = None) ->
  disconnect env st
  = (inr tt,
     mkState (mkClient (endpoint (self st)) (Some h) false)
             (calls st ++ [Cclose h; Cterm])
             (console st ++ [MDisconnected])).
Proof.
  intros Hs Hclose Hterm. unfold disconnect, do_call. run_monad.
  rewrite Hs. cbn. rewrite Hclose. cbn. rewrite Hterm. cbn.
  rewrite Hs, <- app_assoc. reflexivity.
Qed.

(** [main] from the connection on, by the value of [connect]. *)
Lemma main_client_eq args inputs endpoint :
  let p0 := mkProcess (init endpoint) [] in
  main_client env read_text str_strip str_lower args inputs p0
  = match fst (connect env (init endpoint)) with
    | inr false => (Ok 1%Z, snd (lift (connect env) p0))
    | _ => try_finally
             (dispatch env read_text str_strip str_lower args inputs)
             (lift (disconnect env))
             (snd (lift (connect env) p0))
    end.
Proof.
  intros p0. unfold main_client, c_bind. rewrite lift_eq. cbn [fst snd].
  destruct (connect_returns env (client p0)) as [b Hb].
  change (client p0) with (init endpoint) in *.
  rewrite Hb. destruct b; reflexivity.
Qed.

Lemma main_eq argv inputs endpoint args :
  parse_options argv = inr (endpoint, args) ->
  main env read_text str_strip str_lower argv inputs
  = let r := main_client env read_text str_strip str_lower args inputs
               (mkProcess (init endpoint) []) in
    mkOutcome (fst r) (Some (client (snd r))) (stdout (snd r)).
Proof.
  intros Hp. unfold main. rewrite Hp.
  destruct (main_client _ _ _ _ _ _ _) as [r p]. reflexivity.
Qed.

(** The [try] of [main] with its [finally], when [close()] and [term()]
    return. *)
Lemma try_finally_disconnect {A} (body : C A) p h :
  keeps body ->
  socket (self (client p)) = Some h ->
  (forall tr h, zmq_call env tr (Cclose h) = None) ->
  (forall tr, zmq_call env tr Cterm = None) ->
  fst (body p) <> Outside ->
  fst (try_finally body (lift (disconnect env)) p) = fst (body p)
  /\ client (snd (try_finally body (lift (disconnect env)) p))
     = mkState (mkClient (endpoint (self (client p))) (Some h) false)
               (calls (client (snd (body p))) ++ [Cclose h; Cterm])
               (console (client (snd (body p))) ++ [MDisconnected]).
Proof.
  intros Hk Hs Hclose Hterm Hout. unfold try_finally.
  destruct (Hk p) as (Hself & _).
  destruct (body p) as [r p'] eqn:E. cbn [fst snd] in *.
  assert (Hs' : socket (self (client p')) = Some h) by congruence.
  rewrite lift_eq, (disconnect_calls _ h Hs' Hclose Hterm). cbn [fst snd].
  rewrite Hself.
  destruct r; [auto | auto | congruence].
Qed.


(** ** The test sequence *)

Lemma run_test_sequence_eq p :
  let st1 :=
    snd (send_message env (lit "Hello from Python ZMQ client!") (client p)) in
  let st2 :=
    snd (send_json_message env (test_data (time_time env (calls st1))) st1) in
  let st3 := snd (send_message env (lit "STATUS") st2) in
  exists out,
    run_test_sequence env p
    = (Ok tt, mkProcess st3 (out ++ [Lcli LTestsCompleted])).
Proof.
  intros st1 st2 st3.
  unfold run_test_sequence, sleep, now, echo, c_ret, c_bind.
  cbn [fst snd client stdout].
  rewrite lift_eq. cbn [fst snd client stdout].
  destruct (send_message_returns env (lit "Hello from Python ZMQ client!")
              (client p)) as [b1 Hb1].
  rewrite Hb1. fold st1.
  rewrite lift_eq. cbn [fst snd client stdout].
  destruct (send_json_message_returns env
              (test_data (time_time env (calls st1))) st1) as [b2 Hb2].
  rewrite Hb2. fold st2.
  rewrite lift_eq. cbn [fst snd client stdout].
  destruct (send_message_returns env (lit "STATUS") st2) as [b3 Hb3].
  rewrite Hb3. fold st3. eexists. reflexivity.
Qed.

(** X12: [run_test_sequence] raises nothing and runs its three tests
    whatever each of them returns: the greeting, then the JSON message
    stamped with the time read after the first test, then the status
    request, each on the client as the test before it left it; and it
    prints its last line. *)
Theorem run_test_sequence_runs_all p :
  let st1 :=
    snd (send_message env (lit "Hello from Python ZMQ client!") (client p)) in
  let st2 :=
    snd (send_json_message env (test_data (time_time env (calls st1))) st1) in
  let st3 := snd (send_message env (lit "STATUS") st2) in
  fst (run_test_sequence env p) = Ok tt
  /\ client (snd (run_test_sequence env p)) = st3
  /\ last (stdout (snd (run_test_sequence env p))) (Lcli LUsage)
     = Lcli LTestsCompleted.
Proof.
  intros st1 st2 st3.
  destruct (run_test_sequence_eq p) as [out ->]. cbn [fst snd client stdout].
  repeat split. apply last_last.
Qed.

(** X13: on a connected client whose sends are accepted, the test
    sequence hands over three messages of one frame each, every one
    followed by the wait for its reply: the greeting, the text of the test
    dict, and [STATUS].  The dict of the second test is always encoded,
    and its text parses back to it. *)
Theorem run_test_sequence_calls p h :
  connected (self (client p)) = true ->
  socket (self (client p)) = Some h ->
  (forall tr u, zmq_call env tr (Csend_string h u false) = None) ->
  let tr1 :=
    calls (client p)
    ++ send_message_calls_of h (lit "Hello from Python ZMQ client!") in
  let data := test_data (time_time env tr1) in
  exists json_str,
    dumps data = inr json_str
    /\ loads json_str = Ok data
    /\ calls (client (snd (run_test_sequence env p)))
       = tr1 ++ send_message_calls_of h json_str
             ++ send_message_calls_of h (lit "STATUS").
Proof.
  intros Hc Hs Hsend tr1 data.
  destruct (JsonFacts.loads_dumps data eq_refl) as (json_str & Hd & Hl).
  exists json_str. split; [exact Hd|]. split; [exact Hl|].
  destruct (run_test_sequence_eq p) as [out ->]. cbn [snd client].
  set (st1 := snd (send_message env (lit "Hello from Python ZMQ client!")
                     (client p))).
  assert (E1 : calls st1 = tr1)
    by (apply send_message_calls; auto).
  assert (S1 : self st1 = self (client p)) by apply send_message_self.
  rewrite E1. fold data.
  set (st2 := snd (send_json_message env data st1)).
  assert (E2 : calls st2 = tr1 ++ send_message_calls_of h json_str).
  { unfold st2. rewrite send_json_message_eq, Hd, <- E1.
    apply send_message_calls; try rewrite S1; auto. }
  assert (S2 : self st2 = self (client p)).
  { unfold st2. rewrite send_json_message_self. exact S1. }
  rewrite (send_message_calls env st2 (lit "STATUS") h); try rewrite S2; auto.
  rewrite E2, <- app_assoc. reflexivity.
Qed.

(** ** The options of [main] *)

Lemma index_app x pre l :
  index x pre = None -> index x (pre ++ x :: l) = Some (length pre).
Proof.
  induction pre as [|y pre IH]; cbn [index app length].
  - intros _. destruct (str_eqb x x) eqn:E; [reflexivity|].
    exfalso. assert (H : str_eqb x x = true)
      by (apply JsonFacts.str_eqb_eq; reflexivity).
    congruence.
  - destruct (str_eqb y x); [discriminate|].
    destruct (index x pre); [discriminate|]. intros _.
    rewrite IH by reflexivity. reflexivity.
Qed.

Lemma parse_options_endpoint prog pre e post :
  index (lit "--endpoint") pre = None ->
  parse_options (prog :: pre ++ lit "--endpoint" :: e :: post)
  = match pre ++ post with
    | [] => inl LUsage
    | _ :: _ => inr (e, pre ++ post)
    end.
Proof.
  intros Hpre. unfold parse_options.
  cbn [length skipn]. rewrite length_app. cbn [length].
  replace (S (length pre + S (S (length post))) <? 2)%nat with false
    by (symmetry; apply Nat.ltb_ge; lia).
  rewrite (index_app _ _ _ Hpre).
  replace (length pre + 1 <? length pre + S (S (length post)))%nat with true
    by (symmetry; apply Nat.ltb_lt; lia).
  rewrite app_nth2 by lia.
  replace (length pre + 1 - length pre)%nat with 1%nat by lia.
  cbn [nth].
  unfold firstn. fold (@firstn str).
  rewrite firstn_app, firstn_all, Nat.sub_diag. cbn [firstn].
  rewrite app_nil_r.
  rewrite skipn_app, skipn_all2 by lia.
  replace (length pre + 2 - length pre)%nat with 2%nat by lia.
  cbn [skipn app].
  destruct (pre ++ post); reflexivity.
Qed.

(** X14: the option [--endpoint <addr>] may stand anywhere among the
    arguments: [main] takes the address after the first [--endpoint] as the
    endpoint of the client and goes on with the other arguments in their
    order, the command being the first of them (a second [--endpoint]
    among them is an argument like any other); with no other argument it
    prints the usage and returns 1 without making a client. *)
Theorem main_option_anywhere prog pre e post inputs :
  index (lit "--endpoint") pre = None ->
  main env read_text str_strip str_lower
       (prog :: pre ++ lit "--endpoint" :: e :: post) inputs
  = match pre ++ post with
    | [] => mkOutcome (Ok 1%Z) None [Lcli LUsage]
    | _ :: _ =>
        let r := main_client env read_text str_strip str_lower
                   (pre ++ post) inputs (mkProcess (init e) []) in
        mkOutcome (fst r) (Some (client (snd r))) (stdout (snd r))
    end.
Proof.
  intros Hpre.
  pose proof (parse_options_endpoint prog pre e post Hpre) as Hp.
  destruct (pre ++ post) as [|a args] eqn:E.
  - unfold main. rewrite Hp. reflexivity.
  - apply main_eq. exact Hp.
Qed.

(** X15: an [--endpoint] at the very end has no address: [main] prints
    that the option requires one and returns 1, and it makes no client,
    also when a complete command stands before the option. *)
Theorem main_endpoint_last prog pre inputs :
  index (lit "--endpoint") pre = None ->
  main env read_text str_strip str_lower
       (prog :: pre ++ [lit "--endpoint"]) inputs
  = mkOutcome (Ok 1%Z) None [Lcli LEndpointRequiresAddress].
Proof.
  intros Hpre. unfold main, parse_options.
  cbn [length skipn]. rewrite length_app. cbn [length].
  replace (S (length pre + 1) <? 2)%nat with false
    by (symmetry; apply Nat.ltb_ge; lia).
  rewrite (index_app _ _ _ Hpre).
  rewrite Nat.ltb_irrefl. reflexivity.
Qed.


(** ** [main] from the connection on *)

(** X16: when [connect] returns [False], [main] returns 1 at once: it
    runs no command and it does not call [disconnect], so neither
    [close()] nor [term()] is called, although the socket may have been
    made; what was printed is what [connect] printed. *)
Theorem main_connect_failure argv inputs addr args :
  parse_options argv = inr (addr, args) ->
  fst (connect env (init addr)) = inr false ->
  let st := snd (connect env (init addr)) in
  main env read_text str_strip str_lower argv inputs
  = mkOutcome (Ok 1%Z) (Some st) (map Lclient (console st))
  /\ existsb teardown (calls st) = false.
Proof.
  intros Hp Hc st. split.
  - rewrite (main_eq _ _ _ _ Hp), main_client_eq, Hc. cbv zeta.
    rewrite lift_eq. cbn [fst snd client stdout init console length skipn app].
    reflexivity.
  - destruct (connect_calls_only env (init addr)) as (tl & Hcalls & Htl).
    unfold st. rewrite Hcalls. exact Htl.
Qed.

(** The run of [main] after [connect] has returned [True], when [close()]
    and [term()] return. *)
Lemma main_connected argv inputs addr args :
  parse_options argv = inr (addr, args) ->
  fst (connect env (init addr)) = inr true ->
  (forall tr h, zmq_call env tr (Cclose h) = None) ->
  (forall tr, zmq_call env tr Cterm = None) ->
  let p := snd (lift (connect env) (mkProcess (init addr) [])) in
  let run := dispatch env read_text str_strip str_lower args inputs p in
  fst run <> Outside ->
  exists h st,
    socket (self (client p)) = Some h
    /\ status (main env read_text str_strip str_lower argv inputs) = fst run
    /\ final (main env read_text str_strip str_lower argv inputs) = Some st
    /\ self st = mkClient addr (Some h) false
    /\ calls st = calls (client (snd run)) ++ [Cclose h; Cterm].
Proof.
  intros Hp Hc Hclose Hterm p run Hrun.
  destruct (connect_true _ Hc) as (_ & h & Hs).
  assert (Hsp : socket (self (client p)) = Some h).
  { unfold p. rewrite lift_eq. exact Hs. }
  assert (Hep : endpoint (self (client p)) = addr).
  { unfold p. rewrite lift_eq. cbn [snd client].
    clear. unfold_client. case_env; reflexivity. }
  destruct (try_finally_disconnect _ p h (keeps_dispatch args inputs)
              Hsp Hclose Hterm Hrun) as (Hfst & Hcl).
  exists h. eexists. split; [exact Hsp|].
  rewrite (main_eq _ _ _ _ Hp), main_client_eq, Hc. cbv zeta.
  cbn [status final]. fold p.
  split; [exact Hfst|]. split; [reflexivity|].
  rewrite Hcl, Hep. split; reflexivity.
Qed.

(** X17: after [connect] has returned [True], and where [close()] and
    [term()] return, every run of [main] that stays inside the model ends
    with the exit code 0 or 1 and with the client disconnected: whatever
    the command was and however it went, the socket is closed and the
    context terminated, once, as the last two calls. *)
Theorem main_tears_down argv inputs addr args :
  parse_options argv = inr (addr, args) ->
  fst (connect env (init addr)) = inr true ->
  (forall tr h, zmq_call env tr (Cclose h) = None) ->
  (forall tr, zmq_call env tr Cterm = None) ->
  let out := main env read_text str_strip str_lower argv inputs in
  status out = Outside
  \/ (exists z, status out = Ok z /\ (z = 0%Z \/ z = 1%Z))
     /\ (exists st h tr,
            final out = Some st
            /\ connected (self st) = false
            /\ calls st = tr ++ [Cclose h; Cterm]
            /\ existsb teardown tr = false).
Proof.
  intros Hp Hc Hclose Hterm out.
  set (p := snd (lift (connect env) (mkProcess (init addr) []))).
  destruct (fst (dispatch env read_text str_strip str_lower args inputs p))
    as [z|e|] eqn:E.
  - right.
    destruct (main_connected argv inputs addr args Hp Hc Hclose Hterm)
      as (h & st & Hs & Hst & Hfin & Hself & Hcalls).
    { fold p. rewrite E. discriminate. }
    fold p in Hst, Hcalls. split.
    + exists z. split; [unfold out; rewrite Hst; exact E|].
      exact (exits_dispatch args inputs p z E).
    + destruct (keeps_dispatch args inputs p) as (_ & tl & Htl & Hno).
      destruct (connect_calls_only env (init addr)) as (tl0 & Htl0 & Hno0).
      exists st, h, (tl0 ++ tl). split; [exact Hfin|].
      split; [rewrite Hself; reflexivity|].
      split.
      * rewrite Hcalls, Htl. unfold p. rewrite lift_eq. cbn [snd client].
        rewrite Htl0. reflexivity.
      * rewrite existsb_app, Hno0, Hno. reflexivity.
  - exfalso. exact (safe_dispatch args inputs p e E).
  - left. unfold out.
    rewrite (main_eq _ _ _ _ Hp), main_client_eq, Hc. cbv zeta.
    cbn [status]. fold p. unfold try_finally.
    destruct (dispatch env read_text str_strip str_lower args inputs p)
      as [r p']. cbn [fst] in E. subst r. reflexivity.
Qed.



(** ** The exit code *)

Lemma lift_connect_client addr :
  client (snd (lift (connect env) (mkProcess (init addr) [])))
  = snd (connect env (init addr)).
Proof. rewrite lift_eq. reflexivity. Qed.

(** X19: [send-file <path>] ends with the exit code 0 when [send_file]
    has returned [True] and with 1 when it has returned [False]; only the
    first word after the command is the path, what follows it is
    ignored. *)
Theorem main_send_file_exit_code argv inputs addr file_path rest :
  parse_options argv = inr (addr, lit "send-file" :: file_path :: rest) ->
  fst (connect env (init addr)) = inr true ->
  (forall tr h, zmq_call env tr (Cclose h) = None) ->
  (forall tr, zmq_call env tr Cterm = None) ->
  exists success,
    fst (send_file env file_path (snd (connect env (init addr))))
    = inr success
    /\ status (main env read_text str_strip str_lower argv inputs)
       = Ok (if success then 0 else 1)%Z.
Proof.
  intros Hp Hc Hclose Hterm.
  destruct (send_file_returns env file_path (snd (connect env (init addr))))
    as [success Hb].
  exists success. split; [exact Hb|].
  set (p := snd (lift (connect env) (mkProcess (init addr) []))).
  assert (E : fst (dispatch env read_text str_strip str_lower
                     (lit "send-file" :: file_path :: rest) inputs p)
              = Ok (if success then 0 else 1)%Z).
  { change (fst ((success <- lift (send_file env file_path) ;;
                  c_ret (if success : bool then 0 else 1)%Z) p)
            = Ok (if success then 0 else 1)%Z).
    unfold c_bind. rewrite lift_eq. unfold p. rewrite lift_connect_client.
    cbn [fst]. rewrite Hb. reflexivity. }
  destruct (main_connected argv inputs addr _ Hp Hc Hclose Hterm)
    as (h & st & _ & Hst & _).
  { fold p. rewrite E. discriminate. }
  rewrite Hst. exact E.
Qed.

(** X20: [send-message <words...>] sends one text, the words after the
    command joined by single spaces, and ends with the exit code 0 when
    [send_message] has returned [True] and with 1 otherwise. *)
Theorem main_send_message_exit_code argv inputs addr word rest :
  parse_options argv = inr (addr, lit "send-message" :: word :: rest) ->
  fst (connect env (init addr)) = inr true ->
  (forall tr h, zmq_call env tr (Cclose h) = None) ->
  (forall tr, zmq_call env tr Cterm = None) ->
  exists success,
    fst (send_message env (join_space (word :: rest))
           (snd (connect env (init addr))))
    = inr success
    /\ status (main env read_text str_strip str_lower argv inputs)
       = Ok (if success then 0 else 1)%Z.
Proof.
  intros Hp Hc Hclose Hterm.
  destruct (send_message_returns env (join_space (word :: rest))
              (snd (connect env (init addr)))) as [success Hb].
  exists success. split; [exact Hb|].
  set (p := snd (lift (connect env) (mkProcess (init addr) []))).
  assert (E : fst (dispatch env read_text str_strip str_lower
                     (lit "send-message" :: word :: rest) inputs p)
              = Ok (if success then 0 else 1)%Z).
  { change (fst ((success <-
                    lift (send_message env (join_space (word :: rest))) ;;
                  c_ret (if success : bool then 0 else 1)%Z) p)
            = Ok (if success then 0 else 1)%Z).
    unfold c_bind. rewrite lift_eq. unfold p. rewrite lift_connect_client.
    cbn [fst]. rewrite Hb. reflexivity. }
  destruct (main_connected argv inputs addr _ Hp Hc Hclose Hterm)
    as (h & st & _ & Hst & _).
  { fold p. rewrite E. discriminate. }
  rewrite Hst. exact E.
Qed.

(** X21: [test] ends with the exit code 0 whatever the three tests
    returned: after a connection that succeeded, no failure of a test
    reaches the exit code. *)
Theorem main_test_exit_code argv inputs addr rest :
  parse_options argv = inr (addr, lit "test" :: rest) ->
  fst (connect env (init addr)) = inr true ->
  (forall tr h, zmq_call env tr (Cclose h) = None) ->
  (forall tr, zmq_call env tr Cterm = None) ->
  status (main env read_text str_strip str_lower argv inputs) = Ok 0%Z.
Proof.
  intros Hp Hc Hclose Hterm.
  set (p := snd (lift (connect env) (mkProcess (init addr) []))).
  assert (E : fst (dispatch env read_text str_strip str_lower
                     (lit "test" :: rest) inputs p) = Ok 0%Z).
  { change (fst ((run_test_sequence env ;; c_ret 0%Z) p) = Ok 0%Z).
    unfold c_bind. destruct (run_test_sequence_eq p) as [out ->].
    reflexivity. }
  destruct (main_connected argv inputs addr _ Hp Hc Hclose Hterm)
    as (h & st & _ & Hst & _).
  { fold p. rewrite E. discriminate. }
  rewrite Hst. exact E.
Qed.

Lemma str_eqb_neq a b : a <> b -> str_eqb a b = false.
Proof.
  intros Hn. destruct (str_eqb a b) eqn:E; [|reflexivity].
  apply JsonFacts.str_eqb_eq in E. contradiction.
Qed.

(** X22: a command that has nothing to send, because its argument is
    missing ([send-file], [send-message] or [send-json] alone) or because
    it is no command at all, is found out only after the connection was
    made: [main] ends with the exit code 1, and all that pyzmq sees after
    the calls of [connect] is the [close()] and the [term()]. *)
Theorem main_nothing_to_send argv inputs addr command :
  parse_options argv = inr (addr, [command]) ->
  command <> lit "test" ->
  command <> lit "interactive" ->
  fst (connect env (init addr)) = inr true ->
  (forall tr h, zmq_call env tr (Cclose h) = None) ->
  (forall tr, zmq_call env tr Cterm = None) ->
  let out := main env read_text str_strip str_lower argv inputs in
  status out = Ok 1%Z
  /\ exists st h,
       final out = Some st
       /\ calls st = calls (snd (connect env (init addr)))
                     ++ [Cclose h; Cterm].
Proof.
  intros Hp Htest Hinter Hc Hclose Hterm out.
  set (p := snd (lift (connect env) (mkProcess (init addr) []))).
  assert (E : fst (dispatch env read_text str_strip str_lower
                     [command] inputs p) = Ok 1%Z
              /\ client (snd (dispatch env read_text str_strip str_lower
                                [command] inputs p)) = client p).
  { unfold dispatch. cbn [nth length].
    rewrite (str_eqb_neq _ _ Htest), (str_eqb_neq _ _ Hinter).
    change (1 <? 2)%nat with true. cbv iota.
    repeat match goal with
           | |- context [if ?b then _ else _] => destruct b
           end; split; reflexivity. }
  destruct E as [E1 E2].
  destruct (main_connected argv inputs addr _ Hp Hc Hclose Hterm)
    as (h & st & _ & Hst & Hfin & _ & Hcalls).
  { fold p. rewrite E1. discriminate. }
  fold p in Hst, Hcalls. split; [unfold out; rewrite Hst; exact E1|].
  exists st, h. split; [exact Hfin|].
  rewrite Hcalls, E2. unfold p. rewrite lift_connect_client. reflexivity.
Qed.

(** ** The interactive mode *)

Lemma c_bind_ext {A B} (m : C A) (k k' : A -> C B) p :
  (forall a p', k a p' = k' a p') -> c_bind m k p = c_bind m k' p.
Proof.
  intros Hk. unfold c_bind. destruct (m p) as [[a|e|] p']; auto.
Qed.

Lemma interactive_loop_quit pre q post :
  str_strip q <> [] ->
  str_lower (str_strip q) = lit "quit" ->
  forall p,
    interactive_loop env str_strip str_lower (pre ++ q :: post) p
    = interactive_loop env str_strip str_lower (pre ++ [q]) p.
Proof.
  intros Hne Hq. induction pre as [|raw pre IH]; intros p;
    cbn [app interactive_loop]; apply c_bind_ext; intros _ p'.
  - destruct (str_strip q) as [|c s] eqn:E; [congruence|].
    rewrite Hq. reflexivity.
  - destruct (str_strip raw) as [|c s]; [apply IH|].
    destruct (str_eqb _ (lit "quit")); [reflexivity|].
    apply c_bind_ext. intros _ p''. apply IH.
Qed.

(** X23: in the interactive mode a line that, stripped and in lower case,
    is [quit] ends the loop: the lines after it are not read, and no
    command of them is run. *)
Theorem interactive_mode_quit pre q post p :
  str_strip q <> [] ->
  str_lower (str_strip q) = lit "quit" ->
  interactive_mode env str_strip str_lower (pre ++ q :: post) p
  = interactive_mode env str_strip str_lower (pre ++ [q]) p.
Proof.
  intros Hne Hq. unfold interactive_mode.
  apply c_bind_ext. intros _ p1. apply c_bind_ext. intros _ p2.
  unfold c_bind. rewrite (interactive_loop_quit pre q post Hne Hq).
  reflexivity.
Qed.

(** X24: whatever is typed, the interactive mode lets no exception out
    (an invalid JSON text is reported and the loop goes on), it leaves the
    fields of the client as they are, and it calls neither [close()] nor
    [term()]: the session can only send. *)
Theorem interactive_mode_only_sends inputs p :
  (forall e,
     fst (interactive_mode env str_strip str_lower inputs p) <> Raise e)
  /\ self (client (snd (interactive_mode env str_strip str_lower inputs p)))
     = self (client p)
  /\ exists tl,
       calls (client (snd (interactive_mode env str_strip str_lower
                             inputs p)))
       = calls (client p) ++ tl
       /\ existsb teardown tl = false.
Proof.
  split; [apply safe_interactive_mode | apply keeps_interactive_mode].
Qed.

End CommandLine.

End CliFacts.

(** * The extra properties at the test doubles *)

Module ExtraWitness.
Import Json Cli Double CliDouble CliFacts.

Lemma connect_success_witness :
  zmq_socket env_ok (calls (init endpoint0)) = inr 1%nat
  /\ accepted env_ok [Csocket]
       (connect_calls 1 (lit "client_4242_1700000000") endpoint0)
  /\ connect env_ok (init endpoint0)
     = (inr true,
        mkState (mkClient endpoint0 (Some 1%nat) true)
          ([Csocket]
           ++ connect_calls 1 (lit "client_4242_1700000000") endpoint0)
          [MConnecting endpoint0;
           MConnected (lit "client_4242_1700000000")]).
Proof.
  split; [reflexivity|]. split; [repeat split|].
  apply (connect_success env_ok (init endpoint0) 1%nat eq_refl).
  repeat split.
Defined.



(** The silent server: the wait times out. *)
Lemma send_message_reply_witness :
  connected (self st_connected) = true
  /\ socket (self st_connected) = Some 1%nat
  /\ zmq_call env_silent (calls st_connected)
       (Csend_string 1 (lit "hi") false) = None
  /\ send_message env_silent (lit "hi") st_connected
     = (inr false,
        mkState (self st_connected)
          (calls st_connected ++ send_message_calls_of 1 (lit "hi"))
          (console st_connected ++ [MSendingMessage (lit "hi"); MNoReply])).
Proof.
  split; [reflexivity|]. split; [reflexivity|]. split; [reflexivity|].
  exact (send_message_reply env_silent st_connected (lit "hi") 1%nat
           eq_refl eq_refl eq_refl).
Defined.

Lemma send_after_disconnect_witness :
  fst (disconnect env_ok st_connected) = inr tt
  /\ socket (self (snd (disconnect env_ok st_connected))) = Some 1%nat
  /\ forall message,
       fst (send_message env_ok message (snd (disconnect env_ok st_connected)))
       = inr false
       /\ calls (snd (send_message env_ok message
                        (snd (disconnect env_ok st_connected))))
          = calls (snd (disconnect env_ok st_connected)).
Proof.
  split; [reflexivity|].
  pose proof (send_after_disconnect env_ok st_connected eq_refl) as H.
  cbv zeta in H. destruct H as (Hs & _ & Hm & _).
  split; [exact Hs | exact Hm].
Defined.

(** The text of a string that holds U+00E9 is its escape. *)
Lemma dumps_is_ascii_witness :
  dumps (PStr [233%N]) = inr [34; 92; 117; 48; 48; 101; 57; 34]%N
  /\ is_ascii [34; 92; 117; 48; 48; 101; 57; 34]%N = true.
Proof.
  split; [reflexivity|].
  exact (MoreLibrary.dumps_is_ascii (PStr [233%N])
           [34; 92; 117; 48; 48; 101; 57; 34]%N eq_refl).
Defined.

Lemma format_bytes_whole_units_witness :
  (1 <= 4)%nat
  /\ (1%nat = 0%nat \/ 1 <= 3)%N
  /\ (1%nat = 4%nat \/ 3 < 1024)%N
  /\ (3 * 1024 ^ N.of_nat 1 < 2 ^ 53)%N
  /\ format_bytes 3072 = lit "3.00 KB".
Proof.
  assert (H1 : (1 <= 4)%nat) by (repeat constructor).
  assert (H2 : (1%nat = 0%nat \/ 1 <= 3)%N) by (right; discriminate).
  assert (H3 : (1%nat = 4%nat \/ 3 < 1024)%N) by (right; reflexivity).
  assert (H4 : (3 * 1024 ^ N.of_nat 1 < 2 ^ 53)%N) by reflexivity.
  repeat (split; [assumption|]).
  exact (MoreFormat.format_bytes_whole_units 1 3 H1 H2 H3 H4).
Defined.

Lemma format_bytes_nearest_witness :
  (1 <= 4)%nat
  /\ (1%nat = 0%nat \/ 1024 ^ N.of_nat 1 <= 1537)%N
  /\ (1%nat = 4%nat \/ 1537 < 1024 ^ N.of_nat 2)%N
  /\ (1537 < 2 ^ 53)%N
  /\ exists h,
       (format_bytes 1537
        = str_of_N (h / 100) ++ [46; 48 + (h / 10) mod 10; 48 + h mod 10]
            ++ 32
               :: nth 1 [lit "B"; lit "KB"; lit "MB"; lit "GB"; lit "TB"] []
        /\ 2 * (h * 1024 ^ N.of_nat 1) <= 2 * (100 * 1537) + 1024 ^ N.of_nat 1
        /\ 2 * (100 * 1537) <= 2 * (h * 1024 ^ N.of_nat 1) + 1024 ^ N.of_nat 1)%N.
Proof.
  assert (H1 : (1 <= 4)%nat) by (repeat constructor).
  assert (H2 : (1%nat = 0%nat \/ 1024 ^ N.of_nat 1 <= 1537)%N)
    by (right; discriminate).
  assert (H3 : (1%nat = 4%nat \/ 1537 < 1024 ^ N.of_nat 2)%N)
    by (right; reflexivity).
  assert (H4 : (1537 < 2 ^ 53)%N) by reflexivity.
  repeat (split; [assumption|]).
  exact (MoreFormat.format_bytes_nearest 1 1537 H1 H2 H3 H4).
Defined.

Lemma run_test_sequence_calls_witness :
  connected (self (client p_connected)) = true
  /\ socket (self (client p_connected)) = Some 1%nat
  /\ (forall tr u, zmq_call env_ok tr (Csend_string 1 u false) = None)
  /\ exists json_str,
       dumps (test_data 1700000000) = inr json_str
       /\ loads json_str = Ok (test_data 1700000000)
       /\ calls (client (snd (run_test_sequence env_ok p_connected)))
          = (calls (client p_connected)
             ++ send_message_calls_of 1 (lit "Hello from Python ZMQ client!"))
            ++ send_message_calls_of 1 json_str
            ++ send_message_calls_of 1 (lit "STATUS").
Proof.
  split; [reflexivity|]. split; [reflexivity|].
  split; [intros tr u; reflexivity|].
  exact (run_test_sequence_calls env_ok p_connected 1%nat eq_refl eq_refl
           (fun tr u => eq_refl)).
Defined.

Lemma main_option_anywhere_witness :
  index (lit "--endpoint") [lit "send-message"; lit "hi"] = None
  /\ main env_ok read_text str_strip str_lower
       [prog; lit "send-message"; lit "hi"; lit "--endpoint"; endpoint1] []
     = (let r := main_client env_ok read_text str_strip str_lower
                   [lit "send-message"; lit "hi"] []
                   (mkProcess (init endpoint1) []) in
        mkOutcome (fst r) (Some (client (snd r))) (stdout (snd r))).
Proof.
  split; [reflexivity|].
  exact (main_option_anywhere env_ok read_text str_strip str_lower
           prog [lit "send-message"; lit "hi"] endpoint1 [] [] eq_refl).
Defined.

Lemma main_endpoint_last_witness :
  index (lit "--endpoint") [lit "send-file"; greeting_path] = None
  /\ main env_ok read_text str_strip str_lower
       [prog; lit "send-file"; greeting_path; lit "--endpoint"] []
     = mkOutcome (Ok 1%Z) None [Lcli LEndpointRequiresAddress].
Proof.
  split; [reflexivity|].
  exact (main_endpoint_last env_ok read_text str_strip str_lower
           prog [lit "send-file"; greeting_path] [] eq_refl).
Defined.

(** The receive timeout is refused: the socket was made, and it is never
    closed. *)
Lemma main_connect_failure_witness :
  parse_options [prog; lit "test"] = inr (endpoint0, [lit "test"])
  /\ fst (connect env_option_fails (init endpoint0)) = inr false
  /\ main env_option_fails read_text str_strip str_lower
       [prog; lit "test"] []
     = mkOutcome (Ok 1%Z)
         (Some (snd (connect env_option_fails (init endpoint0))))
         (map Lclient
            (console (snd (connect env_option_fails (init endpoint0)))))
  /\ existsb teardown
       (calls (snd (connect env_option_fails (init endpoint0)))) = false.
Proof.
  split; [reflexivity|]. split; [reflexivity|].
  exact (main_connect_failure env_option_fails read_text str_strip str_lower
           [prog; lit "test"] [] endpoint0 [lit "test"] eq_refl eq_refl).
Defined.

Lemma main_tears_down_witness :
  parse_options [prog; lit "send-message"; lit "hi"]
  = inr (endpoint0, [lit "send-message"; lit "hi"])
  /\ fst (connect env_ok (init endpoint0)) = inr true
  /\ (forall tr h, zmq_call env_ok tr (Cclose h) = None)
  /\ (forall tr, zmq_call env_ok tr Cterm = None)
  /\ (status (main env_ok read_text str_strip str_lower
                [prog; lit "send-message"; lit "hi"] []) = Outside
      \/ (exists z,
             status (main env_ok read_text str_strip str_lower
                       [prog; lit "send-message"; lit "hi"] []) = Ok z
             /\ (z = 0%Z \/ z = 1%Z))
         /\ (exists st h tr,
                final (main env_ok read_text str_strip str_lower
                         [prog; lit "send-message"; lit "hi"] []) = Some st
                /\ connected (self st) = false
                /\ calls st = tr ++ [Cclose h; Cterm]
                /\ existsb teardown tr = false)).
Proof.
  split; [reflexivity|]. split; [reflexivity|].
  split; [intros tr h; reflexivity|]. split; [intros tr; reflexivity|].
  exact (main_tears_down env_ok read_text str_strip str_lower
           [prog; lit "send-message"; lit "hi"] [] endpoint0
           [lit "send-message"; lit "hi"] eq_refl eq_refl
           (fun tr h => eq_refl) (fun tr => eq_refl)).
Defined.


Lemma main_send_file_exit_code_witness :
  parse_options [prog; lit "send-file"; greeting_path; lit "more"]
  = inr (endpoint0, [lit "send-file"; greeting_path; lit "more"])
  /\ fst (connect env_ok (init endpoint0)) = inr true
  /\ (forall tr h, zmq_call env_ok tr (Cclose h) = None)
  /\ (forall tr, zmq_call env_ok tr Cterm = None)
  /\ exists success,
       fst (send_file env_ok greeting_path
              (snd (connect env_ok (init endpoint0)))) = inr success
       /\ status (main env_ok read_text str_strip str_lower
                    [prog; lit "send-file"; greeting_path; lit "more"] [])
          = Ok (if success then 0 else 1)%Z.
Proof.
  split; [reflexivity|]. split; [reflexivity|].
  split; [intros tr h; reflexivity|]. split; [intros tr; reflexivity|].
  exact (main_send_file_exit_code env_ok read_text str_strip str_lower
           [prog; lit "send-file"; greeting_path; lit "more"] [] endpoint0
           greeting_path [lit "more"] eq_refl eq_refl
           (fun tr h => eq_refl) (fun tr => eq_refl)).
Defined.

Lemma main_send_message_exit_code_witness :
  parse_options [prog; lit "send-message"; lit "hello"; lit "world"]
  = inr (endpoint0, [lit "send-message"; lit "hello"; lit "world"])
  /\ fst (connect env_silent (init endpoint0)) = inr true
  /\ (forall tr h, zmq_call env_silent tr (Cclose h) = None)
  /\ (forall tr, zmq_call env_silent tr Cterm = None)
  /\ exists success,
       fst (send_message env_silent (lit "hello world")
              (snd (connect env_silent (init endpoint0)))) = inr success
       /\ status (main env_silent read_text str_strip str_lower
                    [prog; lit "send-message"; lit "hello"; lit "world"] [])
          = Ok (if success then 0 else 1)%Z.
Proof.
  split; [reflexivity|]. split; [reflexivity|].
  split; [intros tr h; reflexivity|]. split; [intros tr; reflexivity|].
  exact (main_send_message_exit_code env_silent read_text str_strip str_lower
           [prog; lit "send-message"; lit "hello"; lit "world"] [] endpoint0
           (lit "hello") [lit "world"] eq_refl eq_refl
           (fun tr h => eq_refl) (fun tr => eq_refl)).
Defined.

(** The silent server: the three tests fail, and the exit code is 0. *)
Lemma main_test_exit_code_witness :
  parse_options [prog; lit "test"] = inr (endpoint0, [lit "test"])
  /\ fst (connect env_silent (init endpoint0)) = inr true
  /\ (forall tr h, zmq_call env_silent tr (Cclose h) = None)
  /\ (forall tr, zmq_call env_silent tr Cterm = None)
  /\ status (main env_silent read_text str_strip str_lower
               [prog; lit "test"] []) = Ok 0%Z.
Proof.
  split; [reflexivity|]. split; [reflexivity|].
  split; [intros tr h; reflexivity|]. split; [intros tr; reflexivity|].
  exact (main_test_exit_code env_silent read_text str_strip str_lower
           [prog; lit "test"] [] endpoint0 [] eq_refl eq_refl
           (fun tr h => eq_refl) (fun tr => eq_refl)).
Defined.

Lemma send_file_is_no_test :
  lit "send-file" <> lit "test" /\ lit "send-file" <> lit "interactive".
Proof. split; intros H; vm_compute in H; discriminate H. Qed.

Lemma main_nothing_to_send_witness :
  parse_options [prog; lit "send-file"] = inr (endpoint0, [lit "send-file"])
  /\ lit "send-file" <> lit "test"
  /\ lit "send-file" <> lit "interactive"
  /\ fst (connect env_ok (init endpoint0)) = inr true
  /\ (forall tr h, zmq_call env_ok tr (Cclose h) = None)
  /\ (forall tr, zmq_call env_ok tr Cterm = None)
  /\ status (main env_ok read_text str_strip str_lower
               [prog; lit "send-file"] []) = Ok 1%Z
  /\ exists st h,
       final (main env_ok read_text str_strip str_lower
                [prog; lit "send-file"] []) = Some st
       /\ calls st = calls (snd (connect env_ok (init endpoint0)))
                     ++ [Cclose h; Cterm].
Proof.
  split; [reflexivity|].
  split; [exact (proj1 send_file_is_no_test)|].
  split; [exact (proj2 send_file_is_no_test)|].
  split; [reflexivity|].
  split; [intros tr h; reflexivity|]. split; [intros tr; reflexivity|].
  exact (main_nothing_to_send env_ok read_text str_strip str_lower
           [prog; lit "send-file"] [] endpoint0 (lit "send-file") eq_refl
           (proj1 send_file_is_no_test) (proj2 send_file_is_no_test) eq_refl
           (fun tr h => eq_refl) (fun tr => eq_refl)).
Defined.

Lemma quit_line :
  str_strip (lit " QUIT ") <> []
  /\ str_lower (str_strip (lit " QUIT ")) = lit "quit".
Proof. split; [intros H; vm_compute in H; discriminate H | reflexivity]. Qed.

Lemma interactive_mode_quit_witness :
  str_strip (lit " QUIT ") <> []
  /\ str_lower (str_strip (lit " QUIT ")) = lit "quit"
  /\ interactive_mode env_ok str_strip str_lower
       ([lit "message hi"] ++ lit " QUIT " :: [lit "message late"])
       p_connected
     = interactive_mode env_ok str_strip str_lower
         ([lit "message hi"] ++ [lit " QUIT "]) p_connected.
Proof.
  split; [exact (proj1 quit_line)|]. split; [exact (proj2 quit_line)|].
  exact (interactive_mode_quit env_ok str_strip str_lower
           [lit "message hi"] (lit " QUIT ") [lit "message late"] p_connected
           (proj1 quit_line) (proj2 quit_line)).
Defined.

(** A session at the terminal: a message, a text that is no JSON, a JSON
    text, an unknown command, then [quit]. *)
Example interactive_session :
  let inputs := [lit "message hi"; lit "json {"; 
                 lit "json [1, 2]"; lit "hello"; lit "quit"; lit "file x"] in
  let r := interactive_mode env_ok str_strip str_lower inputs p_connected in
  fst r = Ok tt
  /\ skipn (length (calls st_connected)) (calls (client (snd r)))
     = [Csend_string 1 (lit "hi") false; Crecv_string 1;
        Csend_string 1 [91; 10; 32; 32; 49; 44; 10; 32; 32; 50; 10; 93]%N false;
        Crecv_string 1]
  /\ filter (fun l => match l with Lcli LPrompt | Lclient _ => false
                                 | _ => true end) (stdout (snd r))
     = [Lcli LInteractive; Lcli LCommands; Lcli LInvalidJSON;
        Lcli LUnknownInteractive; Lcli LExiting].
Proof. vm_compute. repeat split. Qed.

End ExtraWitness.
